(** * gkit: command registry, argument marshaling, process invoker and the
      three front ends (REST server, MCP tool handler, shell dispatcher).

    The TypeScript side (core.ts, server.ts, index.ts) is embedded over
    JavaScript strings seen as sequences of UTF-16 code units and JSON
    values; the spawned child process is an oracle of the environment.
    The shell side (gkit.sh) is embedded in [Module Shell] over byte
    strings with an explicit state, exit/return outcomes and [set -e]. *)

From Stdlib Require Import ZArith NArith List String Ascii Bool Lia DecimalString.
From stdpp Require Import base option list countable gmap.
Import ListNotations.

Set Warnings "-register-all".
Local Open Scope N_scope.

(** ** JavaScript strings *)

(** A JavaScript string is a sequence of UTF-16 code units. *)
Definition jschar := N.
Definition jstring := list N.

(** Source literals (all ASCII) are written as Rocq strings. *)
Definition js (s : string) : jstring :=
  map N_of_ascii (list_ascii_of_string s).

(** [a === b] on strings. *)
Definition jstring_eqb (a b : jstring) : bool := bool_decide (a = b).

(** ECMAScript WhiteSpace and LineTerminator code points, the set that
    [String.prototype.trim] strips, and that [\s] matches. *)
Definition is_js_space (c : jschar) : bool :=
  (c =? 9) || (c =? 10) || (c =? 11) || (c =? 12) || (c =? 13) ||
  (c =? 32) || (c =? 160) || (c =? 5760) ||
  ((8192 <=? c) && (c <=? 8202)) ||
  (c =? 8232) || (c =? 8233) || (c =? 8239) || (c =? 8287) ||
  (c =? 12288) || (c =? 65279).

Fixpoint trimStart (s : jstring) : jstring :=
  match s with
  | c :: s' => if is_js_space c then trimStart s' else s
  | [] => []
  end.

Definition trimEnd (s : jstring) : jstring :=
  reverse (trimStart (reverse s)).

(** [String.prototype.trim] *)
Definition trim (s : jstring) : jstring := trimEnd (trimStart s).

(** [a.startsWith(b)] *)
Fixpoint startsWith (s p : jstring) : bool :=
  match p, s with
  | [], _ => true
  | _ :: _, [] => false
  | c :: p', d :: s' => (c =? d) && startsWith s' p'
  end.

(** [a.includes(b)] *)
Fixpoint includes (s p : jstring) : bool :=
  startsWith s p ||
  match s with
  | [] => false
  | _ :: s' => includes s' p
  end.

(** ** JSON values and objects *)

(** The values a parsed JSON document holds, plus the members every plain
    object inherits from [Object.prototype].  [undefined] is the [None] of
    a property read.  Numbers are only ever tested for truthiness or
    passed on, an integer payload stands for them. *)
Inductive JsValue : Type :=
| JNull
| JBool (b : bool)
| JNum (n : Z)
| JStr (s : jstring)
| JArr (l : list JsValue)
| JObj (m : gmap jstring JsValue)
| JInherited (member : jstring).

(** Property names found on [Object.prototype]. *)
Definition object_prototype_names : list jstring :=
  map js [ "constructor"; "hasOwnProperty"; "isPrototypeOf";
           "propertyIsEnumerable"; "toLocaleString"; "toString"; "valueOf";
           "__proto__"; "__defineGetter__"; "__defineSetter__";
           "__lookupGetter__"; "__lookupSetter__" ]%string.

(** [o[k]] on a plain object: own property first, then the prototype. *)
Definition js_get (o : gmap jstring JsValue) (k : jstring) : option JsValue :=
  match o !! k with
  | Some v => Some v
  | None =>
      if bool_decide (k ∈ object_prototype_names) then Some (JInherited k)
      else None
  end.

(** ToBoolean *)
Definition truthy (v : JsValue) : bool :=
  match v with
  | JNull => false
  | JBool b => b
  | JNum n => negb (n =? 0)%Z
  | JStr s => negb (bool_decide (s = []))
  | JArr _ | JObj _ | JInherited _ => true
  end.

(** [typeof v === 'string'] *)
Definition is_string (v : JsValue) : bool :=
  match v with JStr _ => true | _ => false end.

(** ** core.ts: the command registry *)

Record PropertySchema := {
  prop_type : jstring;
  prop_description : jstring;
  prop_default : option jstring
}.

(** [inputSchema]: the entries of [properties] in the order [Object.keys]
    enumerates them (the order of declaration for names like the
    registry's), and the optional [required] list. *)
Record InputSchema := {
  properties : option (list (jstring * PropertySchema));
  required : option (list jstring)
}.

Record Tool := {
  name : jstring;
  description : jstring;
  inputSchema : InputSchema
}.

Definition str_prop (d : string) (dflt : option string) : PropertySchema :=
  {| prop_type := js "string"; prop_description := js d;
     prop_default := option_map js dflt |}.

Definition mkTool (n d : string) (props : list (string * PropertySchema))
    (req : list string) : Tool :=
  {| name := js n; description := js d;
     inputSchema :=
       {| properties := Some (map (fun p => (js (fst p), snd p)) props);
          required := Some (map js req) |} |}.

Definition GkitCommands : list Tool :=
  [ mkTool "create_pr" "Create a pull request to a specific base branch"
      [ ("base", str_prop "Base branch name (default: release)" (Some "release"));
        ("title", str_prop "PR title (optional, will use --fill if not provided)" None) ]
      [];
    mkTool "create_pr_to_staging"
      "Create a pull request to the latest release branch (staging)"
      [ ("remote", str_prop "Remote name (default: origin)" (Some "origin"));
        ("title", str_prop "PR title" None) ]
      [];
    mkTool "create_branch"
      "Create a new branch from develop (or specified branch)"
      [ ("branch", str_prop "New branch name" None);
        ("from", str_prop "Source branch (default: develop)" (Some "develop"));
        ("remote", str_prop "Remote name (default: origin)" (Some "origin")) ]
      [ "branch" ];
    mkTool "create_branch_from_staging"
      "Create a new branch from the latest release branch"
      [ ("branch", str_prop "New branch name" None);
        ("remote", str_prop "Remote name (default: origin)" (Some "origin")) ]
      [ "branch" ];
    mkTool "create_hotfix_branch"
      "Create a new hotfix branch from main (or specified branch)"
      [ ("branch", str_prop "New branch name" None);
        ("from", str_prop "Source branch (default: main)" (Some "main"));
        ("remote", str_prop "Remote name (default: origin)" (Some "origin")) ]
      [ "branch" ];
    mkTool "approve_pr" "Approve a GitHub pull request"
      [ ("pr_url", str_prop "GitHub PR URL" None) ]
      [ "pr_url" ];
    mkTool "merge_pr" "Approve and merge a GitHub pull request"
      [ ("pr_url", str_prop "GitHub PR URL" None) ]
      [ "pr_url" ];
    mkTool "trigger_workflow"
      "Interactively trigger a GitHub Action workflow for a PR"
      [ ("pr_url", str_prop "GitHub PR URL" None) ]
      [ "pr_url" ];
    mkTool "send_slack_message" "Send a message to a Slack channel"
      [ ("message", str_prop "Message to send" None) ]
      [ "message" ]
  ]%string.

(** [ToolToGkitCommandMap], a plain object literal: reading a key goes
    through [js_get], prototype included. *)
Definition ToolToGkitCommandMap : gmap jstring JsValue :=
  list_to_map
    (map (fun p => (js (fst p), JStr (js (snd p))))
       [ ("create_pr", "pr");
         ("create_pr_to_staging", "prs");
         ("create_branch", "nb");
         ("create_branch_from_staging", "nbs");
         ("create_hotfix_branch", "nbh");
         ("approve_pr", "ap");
         ("merge_pr", "mg");
         ("trigger_workflow", "wf");
         ("send_slack_message", "sl") ]%string).

(** [if (x)] on the result of a property read. *)
Definition opt_truthy (v : option JsValue) : bool :=
  match v with
  | Some v => truthy v
  | None => false
  end.

(** ** core.ts: the process invoker *)

(** One call of [spawn(file, args, {shell: true})]. *)
Record Spawn := {
  sp_file : jstring;
  sp_args : list JsValue
}.

(** What the environment answers to a spawn: the [data] chunks of both
    streams, already decoded, and the [code] of the [close] event ([None]
    is [null], a child ended by a signal).  The child is taken to start and
    to end: no timeout exists in the source, and a child that never ends
    gives no result at all. *)
Record ProcOutcome := {
  exit_code : option N;
  stdout_data : list jstring;
  stderr_data : list jstring
}.

Record InvocationResult := {
  success : bool;
  output : jstring;
  error : jstring
}.

(** Computations of the Node side: a value and the processes spawned on
    the way, in order. *)
Definition Eff (A : Type) : Type := A * list Spawn.

Definition ret {A} (a : A) : Eff A := (a, []).

Definition bind {A B} (m : Eff A) (k : A -> Eff B) : Eff B :=
  let '(a, t1) := m in
  let '(b, t2) := k a in
  (b, t1 ++ t2).

Notation "'do' x <- m ; k" := (bind m (fun x => k))
  (at level 10, x name, m at level 100, k at level 200).

Definition spawned {A} (m : Eff A) : list Spawn := snd m.
Definition value {A} (m : Eff A) : A := fst m.

(** [code === 0] *)
Definition code_is_zero (code : option N) : bool :=
  match code with
  | Some c => c =? 0
  | None => false
  end.

Section Invoker.

(** The environment: what each spawned child does. *)
Variable child : Spawn -> ProcOutcome.

Definition spawn (file : jstring) (args : list JsValue) : Eff ProcOutcome :=
  let sp := {| sp_file := file; sp_args := args |} in
  (child sp, [sp]).

Definition executeGkit (command : JsValue) (args : list JsValue)
    : Eff InvocationResult :=
  do p <- spawn (js "./gkit.sh") (command :: args);
  let stdout := concat (stdout_data p) in
  let stderr := concat (stderr_data p) in
  ret {| success := code_is_zero (exit_code p);
         output := trim stdout;
         error := trim stderr |}.

End Invoker.

(** ** Marshaling named values into positional arguments *)

(** [Object.keys(tool.inputSchema.properties || {})] *)
Definition paramOrder (tool : Tool) : list jstring :=
  match properties (inputSchema tool) with
  | Some props => map fst props
  | None => []
  end.

(** [(tool.inputSchema.required || [])] *)
Definition requiredParams (tool : Tool) : list jstring :=
  match required (inputSchema tool) with
  | Some r => r
  | None => []
  end.

(** server.ts: [paramOrder.forEach(param => { if (req.body[param] !==
    undefined) args.push(req.body[param]) })], starting from [args = []]. *)
Definition marshal_body (order : list jstring) (body : gmap jstring JsValue)
    : list JsValue :=
  fold_left
    (fun args param =>
       match js_get body param with
       | Some v => args ++ [v]
       | None => args
       end)
    order [].

(** index.ts: [paramOrder.map(param => args[param]).filter(v => v !==
    undefined)] *)
Definition marshal_args (order : list jstring) (args : gmap jstring JsValue)
    : list JsValue :=
  omap id (filter (fun v => is_Some v) (map (js_get args) order)).

(** ** server.ts: the REST adapter *)

Inductive HttpBody :=
| ErrorBody (ok : bool) (msg : jstring)
| ResultBody (r : InvocationResult)
| HealthBody (status timestamp : jstring)
| NoBody.

Record HttpResponse := {
  http_status : nat;
  http_body : HttpBody
}.

(** The [for (const param of requiredParams)] loop: the first required
    parameter whose body entry is [undefined], if any. *)
Fixpoint first_missing (body : gmap jstring JsValue) (req : list jstring)
    : option jstring :=
  match req with
  | [] => None
  | param :: rest =>
      match js_get body param with
      | None => Some param
      | Some _ => first_missing body rest
      end
  end.

(** [tool.name.replace(/_/g, '-')] *)
Definition underscores_to_hyphens (s : jstring) : jstring :=
  map (fun c => if c =? 95 then 45 else c) s.

Definition endpoint_of (tool : Tool) : jstring :=
  js "/api/" ++ underscores_to_hyphens (name tool).

Record Route := {
  route_endpoint : jstring;
  route_tool : Tool;
  route_command : JsValue
}.

(** The [GkitCommands.forEach] that registers the routes: a tool without a
    truthy command mapping is skipped. *)
Definition register_routes (tools : list Tool) : list Route :=
  omap
    (fun tool =>
       match js_get ToolToGkitCommandMap (name tool) with
       | Some command =>
           if truthy command
           then Some {| route_endpoint := endpoint_of tool;
                        route_tool := tool;
                        route_command := command |}
           else None
       | None => None
       end)
    tools.

Definition routes : list Route := register_routes GkitCommands.

(** ASCII case folding of one code unit. *)
Definition ascii_lower (c : jschar) : jschar :=
  if (65 <=? c) && (c <=? 90) then c + 32 else c.

(** Route matching of the router in its default configuration: letter case
    is ignored and one trailing slash is allowed. *)
Definition path_matches (endpoint path : jstring) : bool :=
  let e := map ascii_lower endpoint in
  let p := map ascii_lower path in
  bool_decide (p = e) || bool_decide (p = e ++ js "/").

Inductive Method := GET | POST.

Section RestAdapter.

Variable child : Spawn -> ProcOutcome.
(** [new Date().toISOString()] at the time of the request. *)
Variable now : jstring.

(** The body of [app.post(endpoint, async (req, res) => ...)];
    [req.body] is the JSON object left by the body parser, empty when the
    request carries none. *)
Definition post_handler (tool : Tool) (command : JsValue)
    (body : gmap jstring JsValue) : Eff HttpResponse :=
  match first_missing body (requiredParams tool) with
  | Some param =>
      ret {| http_status := 400;
             http_body :=
               ErrorBody false
                 (js "Parameter '" ++ param ++ js "' is required") |}
  | None =>
      let args := marshal_body (paramOrder tool) body in
      do result <- executeGkit child command args;
      ret {| http_status := 200; http_body := ResultBody result |}
  end.

(** The application: the generated POST routes, then [GET /health]; a
    request no route matches gets the router's 404. *)
Definition app (m : Method) (path : jstring) (body : gmap jstring JsValue)
    : Eff HttpResponse :=
  match m with
  | POST =>
      match find (fun r => path_matches (route_endpoint r) path) routes with
      | Some r => post_handler (route_tool r) (route_command r) body
      | None => ret {| http_status := 404; http_body := NoBody |}
      end
  | GET =>
      if path_matches (js "/health") path
      then ret {| http_status := 200;
                  http_body := HealthBody (js "ok") now |}
      else ret {| http_status := 404; http_body := NoBody |}
  end.

End RestAdapter.

(** ** index.ts: the advanced tools of the MCP server *)

(** How a function body completes: normally, or by a thrown [Error] of
    which only the [message] is ever read. *)
Inductive Completion (A : Type) :=
| Normal (a : A)
| Thrown (message : jstring).
Arguments Normal {A} a.
Arguments Thrown {A} message.

Definition Exc (A : Type) : Type := Eff (Completion A).

Definition ok {A} (a : A) : Exc A := ret (Normal a).
Definition throw {A} (message : jstring) : Exc A := ret (Thrown message).

Definition bindE {A B} (m : Exc A) (k : A -> Exc B) : Exc B :=
  do c <- m;
  match c with
  | Normal a => k a
  | Thrown e => ret (Thrown e)
  end.

Notation "'try' x <- m ; k" := (bindE m (fun x => k))
  (at level 10, x name, m at level 100, k at level 200).

(** The errors raised by the engine itself rather than by a [throw] of the
    source; the wording of their messages is the engine's. *)
Inductive EngineError :=
| ReadOfUndefined (prop : jstring)
| ReadOfNull (prop : jstring)
| NotAFunction (callee : jstring)
| InvalidURL (input : jstring).

(** [[A-Za-z0-9_]], the characters of [\w]. *)
Definition is_word_char (c : jschar) : bool :=
  ((48 <=? c) && (c <=? 57)) || ((65 <=? c) && (c <=? 90)) ||
  (c =? 95) || ((97 <=? c) && (c <=? 122)).

(** The characters [.] does not match. *)
Definition is_line_terminator (c : jschar) : bool :=
  (c =? 10) || (c =? 13) || (c =? 8232) || (c =? 8233).

(** [s.match(/\bany\b/)] is truthy; [prev_word] tells whether the
    character before [s] is a word character. *)
Fixpoint match_word_any (prev_word : bool) (s : jstring) : bool :=
  match s with
  | [] => false
  | c :: s' =>
      (negb prev_word && startsWith s (js "any") &&
       match drop 3 s with
       | d :: _ => negb (is_word_char d)
       | [] => true
       end)
      || match_word_any (is_word_char c) s'
  end.

(** [\s*\{\s*\}] matches at the start of [s]. *)
Definition match_empty_block (s : jstring) : bool :=
  match trimStart s with
  | 123 :: r =>
      match trimStart r with
      | 125 :: _ => true
      | _ => false
      end
  | _ => false
  end.

(** [.*\)\s*\{\s*\}] matches at the start of [s]. *)
Fixpoint match_to_paren (s : jstring) : bool :=
  match s with
  | [] => false
  | c :: r =>
      ((c =? 41) && match_empty_block r)
      || (negb (is_line_terminator c) && match_to_paren r)
  end.

Definition match_catch_here (s : jstring) : bool :=
  startsWith s (js "catch") &&
  match trimStart (drop 5 s) with
  | 40 :: r => match_to_paren r
  | _ => false
  end.

(** [s.match(/catch\s*\(.*\)\s*\{\s*\}/)] is truthy. *)
Fixpoint match_empty_catch (s : jstring) : bool :=
  match_catch_here s ||
  match s with
  | [] => false
  | _ :: r => match_empty_catch r
  end.

(** [s.split(sep)] for a one-character separator. *)
Fixpoint split (sep : jschar) (s : jstring) : list jstring :=
  match s with
  | [] => [[]]
  | c :: r =>
      if c =? sep then [] :: split sep r
      else match split sep r with
           | h :: t => (c :: h) :: t
           | [] => [[c]]
           end
  end.

(** [`${n}`] for a non-negative integer. *)
Definition number_to_string (n : N) : jstring :=
  js (NilEmpty.string_of_uint (N.to_uint n)).

(** [lines.join('\n')] *)
Fixpoint join (sep : jstring) (l : list jstring) : jstring :=
  match l with
  | [] => []
  | [x] => x
  | x :: r => x ++ sep ++ join sep r
  end.

Record ReviewResult := {
  summary : jstring;
  issues : list jstring;
  rating : Z
}.

Record CommandResult := {
  cr_stdout : jstring;
  cr_stderr : jstring;
  cr_exitCode : N
}.

Section AdvancedTools.

Variable child : Spawn -> ProcOutcome.
(** [String.prototype.toLowerCase], Unicode case mapping of the engine. *)
Variable toLowerCase : jstring -> jstring.
(** [new URL(s).pathname], [None] when the constructor throws. *)
Variable url_pathname : jstring -> option jstring.
(** The message of an error the engine raises. *)
Variable engine_message : EngineError -> jstring.
(** [process.env.GITHUB_TOKEN || process.env.GITHUB_PAT] *)
Variable GITHUB_TOKEN : option jstring.

Definition executeCommand (command : jstring) (args : list jstring)
    : Eff CommandResult :=
  do p <- spawn child command (map JStr args);
  ret {| cr_stdout := trim (concat (stdout_data p));
         cr_stderr := trim (concat (stderr_data p));
         cr_exitCode := match exit_code p with
                        | Some c => c
                        | None => 0
                        end |}.

(** [if (c) issues.push(msg)] *)
Definition push_if (c : bool) (msg : string) (issues : list jstring)
    : list jstring :=
  if c then issues ++ [js msg] else issues.

Definition reviewCode (diff : jstring) : ReviewResult :=
  let issues := [] in
  let lower := toLowerCase diff in
  let issues :=
    push_if (includes diff (js "console.log"))
      "Remove console.log in production code." issues in
  let issues :=
    push_if (includes lower (js "todo") || includes lower (js "fixme"))
      "Resolve TODO/FIXME before merging." issues in
  let issues :=
    push_if (includes lower (js "password") || includes lower (js "secret"))
      "Ensure secrets are not hard-coded." issues in
  let issues :=
    push_if (match_word_any false diff)
      "Avoid TypeScript any; prefer explicit types." issues in
  let issues :=
    push_if (match_empty_catch diff)
      "Avoid empty catch blocks; handle errors meaningfully." issues in
  let summary :=
    if negb (length issues =? 0)%nat
    then js "Basic static review found potential improvements."
    else js "No obvious issues detected by basic static review." in
  let rating :=
    Z.max 1 (10 - Z.min (Z.of_nat (length issues)) 9) in
  {| summary := summary; issues := issues; rating := rating |}.

(** The [lines.forEach((line, idx) => ...)] of [reviewPullRequest];
    [idx] is the index of the first line of [lines]. *)
Fixpoint review_lines (idx : N) (lines : list jstring) : list jstring :=
  match lines with
  | [] => []
  | line :: rest =>
      let lineNo := idx + 1 in
      (if includes line (js "console.log(")
       then [number_to_string lineNo ++
             js ": Avoid console.log in committed code."]
       else []) ++
      (if includes line (js "TODO") || includes line (js "FIXME")
       then [number_to_string lineNo ++
             js ": Address TODO/FIXME before merging."]
       else []) ++
      review_lines (idx + 1) rest
  end.

Definition reviewPullRequest (diff : jstring) : jstring :=
  let lines := split 10 diff in
  let comments := review_lines 0 lines in
  if (length comments =? 0)%nat then
    js "APPROVED:" ++ [10] ++ js "Looks good " ++ [8212] ++
    js " no issues detected by basic checks."
  else
    let summary :=
      js "Found " ++ number_to_string (N.of_nat (length comments)) ++
      js " potential issue(s). Please address before merge." in
    js "REVIEW:" ++ [10] ++ join [10] comments ++ [10; 10] ++
    js "SUMMARY:" ++ [10] ++ summary.

Definition suggestCommitMessage (diff : jstring)
    : Eff (jstring * jstring * CommandResult) :=
  let possibleType :=
    if includes (toLowerCase diff) (js "fix") then js "fix" else js "feat" in
  let summary := js "update based on diff" in
  let commitMessage := possibleType ++ js ": " ++ summary in
  do commitResult <-
    executeCommand (js "git") [js "commit"; js "-m"; commitMessage];
  let output :=
    js "REVIEW:" ++ [10] ++ js "- Looks good." ++ [10] ++ js "COMMIT:" ++
    [10] ++ commitMessage in
  ret (output, commitMessage, commitResult).

(** Calling the string method [method] on an arbitrary value: only a
    string has it. *)
Definition as_string_receiver (method : string) (v : option JsValue)
    : Exc jstring :=
  match v with
  | Some (JStr s) => ok s
  | None => throw (engine_message (ReadOfUndefined (js method)))
  | Some JNull => throw (engine_message (ReadOfNull (js method)))
  | Some _ => throw (engine_message (NotAFunction (js method)))
  end.

(** [s.endsWith(p)] *)
Definition endsWith (s p : jstring) : bool :=
  startsWith (reverse s) (reverse p).

(** [u.replace(/^`+|`+$/g, '')] *)
Fixpoint strip_backticks_start (s : jstring) : jstring :=
  match s with
  | 96 :: r => strip_backticks_start r
  | _ => s
  end.

Definition strip_backticks (s : jstring) : jstring :=
  reverse (strip_backticks_start (reverse (strip_backticks_start s))).

Definition sanitizePrUrl (input : JsValue) : Exc jstring :=
  try u <- as_string_receiver "trim"
             (Some (if truthy input then input else JStr []));
  let u := trim u in
  let u := if startsWith u (js "@") then drop 1 u else u in
  let u := if startsWith u (js "<") && endsWith u (js ">")
           then take (length u - 2) (drop 1 u) else u in
  ok (strip_backticks u).

(** [t.replace(/^Bearer\s+/i, '')] *)
Definition strip_bearer (t : jstring) : jstring :=
  if bool_decide (map ascii_lower (take 6 t) = js "bearer") &&
     match drop 6 t with
     | c :: _ => is_js_space c
     | [] => false
     end
  then trimStart (drop 6 t)
  else t.

Definition fetchPrDiff (prUrl : JsValue) (token : option JsValue)
    : Exc jstring :=
  let body : Exc jstring :=
    try cleaned <- sanitizePrUrl prUrl;
    try pathname <-
      match url_pathname cleaned with
      | Some p => ok p
      | None => throw (engine_message (InvalidURL cleaned))
      end;
    let parts :=
      filter (fun x => x <> []) (split 47 pathname) in
    match parts with
    | owner :: repo :: third :: number :: _ =>
        if negb (jstring_eqb third (js "pull")) then
          throw (js "Invalid PR URL. Expected https://github.com/owner/repo/pull/123")
        else
          let apiUrl :=
            js "https://api.github.com/repos/" ++ owner ++ js "/" ++ repo ++
            js "/pulls/" ++ number in
          let headers :=
            [ js "-H"; js "Accept: application/vnd.github.v3.diff";
              js "-H"; js "X-GitHub-Api-Version: 2022-11-28";
              js "-H"; js "User-Agent: gkit-mcp" ] in
          let authToken :=
            if opt_truthy token then token
            else option_map JStr GITHUB_TOKEN in
          try headers <-
            (if opt_truthy authToken then
               try t <- as_string_receiver "replace" authToken;
               ok (headers ++
                   [ js "-H";
                     js "Authorization: Bearer " ++ strip_bearer t ])
             else ok headers);
          do result <-
            executeCommand (js "curl") ([js "-sSL"] ++ headers ++ [apiUrl]);
          if (cr_exitCode result =? 0) &&
             negb (bool_decide (cr_stdout result = [])) &&
             negb (startsWith (trim (cr_stdout result)) (js "{"))
          then ok (cr_stdout result)
          else throw (js "GitHub diff fetch failed for " ++ cleaned ++
                      js ". Check token and access, or the URL.")
    | _ =>
        throw (js "Invalid PR URL. Expected https://github.com/owner/repo/pull/123")
    end in
  do c <- body;
  match c with
  | Normal diff => ok diff
  | Thrown msg => throw (js "fetchPrDiff error: " ++ msg)
  end.

End AdvancedTools.

(** ** index.ts: the tool-call handler *)

(** [GkitCommands.find(t => t.name === n)] *)
Definition find_tool (n : jstring) : option Tool :=
  find (fun t => jstring_eqb (name t) n) GkitCommands.

Definition advancedTools : list jstring :=
  [ js "review_code"; js "commit"; js "rv_pr" ].

(** The [text] of a tool result: a string, or the JSON rendering of a
    review ([JSON.stringify(codeReviewResult, null, 2)]). *)
Inductive ToolText :=
| Text (s : jstring)
| JsonOf (r : ReviewResult).

(** [{ content: [{ type: 'text', text }], isError }]; an omitted
    [isError] is [false]. *)
Record ToolResult := {
  text : ToolText;
  isError : bool
}.

Section ToolCallHandler.

Variable child : Spawn -> ProcOutcome.
Variable toLowerCase : jstring -> jstring.
Variable url_pathname : jstring -> option jstring.
Variable engine_message : EngineError -> jstring.
Variable GITHUB_TOKEN : option jstring.

(** The branch for the wrappers around gkit.sh. *)
Definition call_gkit (name : jstring) (gkitCommand : JsValue)
    (args : gmap jstring JsValue) : Exc ToolResult :=
  match find_tool name with
  | None => throw (engine_message (ReadOfUndefined (js "inputSchema")))
  | Some tool =>
      let paramOrder := paramOrder tool in
      let gkitArgs := marshal_args paramOrder args in
      do result <- executeGkit child gkitCommand gkitArgs;
      if negb (success result) then
        throw (if negb (bool_decide (error result = []))
               then error result else output result)
      else
        ok {| text := Text (output result); isError := false |}
  end.

(** The [switch (name)] for the advanced tools. *)
Definition call_advanced (name : jstring) (args : gmap jstring JsValue)
    : Exc ToolResult :=
  if jstring_eqb name (js "rv_pr") then
    try diffText <-
      (if opt_truthy (js_get args (js "diff")) then
         ok (js_get args (js "diff"))
       else if opt_truthy (js_get args (js "pr_url")) then
         match js_get args (js "pr_url") with
         | Some pr_url =>
             try d <- fetchPrDiff child url_pathname engine_message
                        GITHUB_TOKEN pr_url (js_get args (js "token"));
             ok (Some (JStr d))
         | None => ok None
         end
       else ok None);
    if negb (opt_truthy diffText) then
      throw (js "Provide either " ++ [34] ++ js "diff" ++ [34] ++
             js " or " ++ [34] ++ js "pr_url" ++ [34])
    else
      try diff <- as_string_receiver engine_message "split" diffText;
      ok {| text := Text (reviewPullRequest diff); isError := false |}
  else if jstring_eqb name (js "review_code") then
    try diff <- as_string_receiver engine_message "toLowerCase"
                  (js_get args (js "diff"));
    ok {| text := JsonOf (reviewCode toLowerCase diff); isError := false |}
  else if jstring_eqb name (js "commit") then
    try diff <- as_string_receiver engine_message "toLowerCase"
                  (js_get args (js "diff"));
    do r <- suggestCommitMessage child toLowerCase diff;
    let '(output, commitMessage, commitResult) := r in
    let or_empty (s : jstring) :=
      if negb (bool_decide (s = [])) then s else js "(empty)" in
    ok {| text :=
            Text (join [10]
                    [ js "Suggested commit and result:";
                      output;
                      js "---";
                      js "Commit Message: " ++ commitMessage;
                      js "Exit Code: " ++
                        number_to_string (cr_exitCode commitResult);
                      js "Stdout: " ++ or_empty (cr_stdout commitResult);
                      js "Stderr: " ++ or_empty (cr_stderr commitResult) ]);
          isError := false |}
  else
    throw (js "Unknown tool: " ++ name).

(** [server.setRequestHandler(CallToolRequestSchema, ...)].  The request
    schema admits [arguments] only as an absent field or a JSON object. *)
Definition callTool (name : jstring) (args : option (gmap jstring JsValue))
    : Eff ToolResult :=
  match args with
  | None =>
      ret {| text := Text (js "Error: Invalid arguments provided");
             isError := true |}
  | Some args =>
      do c <-
        (let gkitCommand := js_get ToolToGkitCommandMap name in
         match gkitCommand with
         | Some command =>
             if truthy command then call_gkit name command args
             else call_advanced name args
         | None => call_advanced name args
         end);
      match c with
      | Normal r => ret r
      | Thrown errorMessage =>
          ret {| text := Text (js "Error: " ++ errorMessage);
                 isError := true |}
      end
  end.

End ToolCallHandler.

(** * gkit.sh *)

Module Shell.

Local Open Scope string_scope.

(** Shell words are byte strings. *)
Definition dq : string := String (ascii_of_nat 34) EmptyString.
Definition bq : string := String (ascii_of_nat 96) EmptyString.
Definition bs : string := String (ascii_of_nat 92) EmptyString.
Definition nl : string := String (ascii_of_nat 10) EmptyString.

Definition is_empty (s : string) : bool :=
  match s with
  | EmptyString => true
  | _ => false
  end.

(** [$*]: the arguments joined by spaces. *)
Fixpoint join_args (args : list string) : string :=
  match args with
  | [] => EmptyString
  | [a] => a
  | a :: rest => a ++ " " ++ join_args rest
  end.

(** [$n], empty when unset. *)
Definition arg (n : nat) (args : list string) : string :=
  nth (n - 1) args EmptyString.

(** [${x:-dflt}] *)
Definition or_default (x dflt : string) : string :=
  if is_empty x then dflt else x.

(** [${x#*:}]: drop the shortest prefix ending in a colon, if there is
    one. *)
Fixpoint after_colon (x : string) : option string :=
  match x with
  | EmptyString => None
  | String c r => if Ascii.eqb c ":" then Some r else after_colon r
  end.

Definition strip_to_colon (x : string) : string :=
  match after_colon x with
  | Some r => r
  | None => x
  end.

(** Command substitution drops the trailing newlines of the output. *)
Fixpoint strip_newlines_rev (l : list ascii) : list ascii :=
  match l with
  | c :: r => if Ascii.eqb c (ascii_of_nat 10) then strip_newlines_rev r else l
  | [] => []
  end.

Definition strip_trailing_newlines (s : string) : string :=
  string_of_list_ascii
    (rev (strip_newlines_rev (rev (list_ascii_of_string s)))).

(** An external command as the script runs it: the argument vectors of a
    pipeline (one for a simple command) and the here-string fed to it. *)
Record Command := {
  pipeline : list (list string);
  here_string : option string
}.

Definition cmd (argv : list string) : Command :=
  {| pipeline := [argv]; here_string := None |}.

Definition pipe (stages : list (list string)) : Command :=
  {| pipeline := stages; here_string := None |}.

Definition cmd_in (argv : list string) (input : string) : Command :=
  {| pipeline := [argv]; here_string := Some input |}.

(** What the environment answers: exit status and both output streams. *)
Record Answer := {
  ans_status : N;
  ans_stdout : string;
  ans_stderr : string
}.

(** The state of a run of the script: what it wrote on its standard
    output and standard error, the external commands it ran (in order),
    and the lines still unread on its standard input. *)
Record State := {
  out : list string;
  err : list string;
  ran : list Command;
  input : list string
}.

Definition initial (stdin : list string) : State :=
  {| out := []; err := []; ran := []; input := stdin |}.

(** A step either goes on with a value or ends the whole script ([exit],
    or a failing command under [set -e]). *)
Inductive Outcome (A : Type) :=
| Go (a : A) (st : State)
| Exit (status : N) (st : State).
Arguments Go {A} a st.
Arguments Exit {A} status st.

Definition Sh (A : Type) : Type := State -> Outcome A.

Definition pure {A} (a : A) : Sh A := fun st => Go a st.

Definition seq {A B} (m : Sh A) (k : A -> Sh B) : Sh B :=
  fun st =>
    match m st with
    | Go a st' => k a st'
    | Exit n st' => Exit n st'
    end.

Notation "'sh' x <- m ; k" := (seq m (fun x => k))
  (at level 10, x name, m at level 100, k at level 200).
Notation "m ;; k" := (seq m (fun _ => k))
  (at level 100, k at level 200, right associativity).

Definition exit {A} (n : N) : Sh A := fun st => Exit n st.

(** [echo s] and [echo s >&2] *)
Definition echo (s : string) : Sh unit :=
  fun st => Go tt {| out := out st ++ [s]; err := err st;
                     ran := ran st; input := input st |}.

Definition echo_err (s : string) : Sh unit :=
  fun st => Go tt {| out := out st; err := err st ++ [s];
                     ran := ran st; input := input st |}.

(** [read]: one line of standard input; status 1 at end of input.  The
    prompt of [read -p], shown only on a terminal, is left out. *)
Definition read : Sh (N * string) :=
  fun st =>
    match input st with
    | [] => Go (1%N, EmptyString) st
    | line :: rest =>
        Go (0%N, line) {| out := out st; err := err st;
                          ran := ran st; input := rest |}
    end.

(** [set -e]: a failing simple command ends the script with its status. *)
Definition errexit (status : N) : Sh unit :=
  if (status =? 0)%N then pure tt else exit status.

Section Script.

(** The environment: the answer to a command, given the commands run
    before it. *)
Variable world : list Command -> Command -> Answer.
(** [command -v tool] succeeds. *)
Variable installed : string -> bool.
(** [$SLACK_TOKEN], empty when unset, and [$0]. *)
Variable SLACK_TOKEN : string.
Variable script : string.

Definition DINH_SLACK_ID := "U08TVVC6PL5".
Definition PHUONG_SLACK_ID := "U08UAPSK14H".
Definition VINH_SLACK_ID := "U08TR09LSEP".
Definition THY_SLACK_ID := "U08TS1P3JMC".
Definition PR_ROOM := "C09E15YGCES".

(** Run an external command with its output going to the script's own
    streams; [quiet_err] is [2>/dev/null]. *)
Definition exec_with (quiet_err : bool) (c : Command) : Sh N :=
  fun st =>
    let a := world (ran st) c in
    Go (ans_status a)
       {| out := out st ++ [ans_stdout a];
          err := if quiet_err then err st else err st ++ [ans_stderr a];
          ran := ran st ++ [c];
          input := input st |}.

Definition exec (c : Command) : Sh N := exec_with false c.

(** [$(c)]: status and captured output. *)
Definition capture_with (quiet_err : bool) (c : Command) : Sh (N * string) :=
  fun st =>
    let a := world (ran st) c in
    Go (ans_status a, strip_trailing_newlines (ans_stdout a))
       {| out := out st;
          err := if quiet_err then err st else err st ++ [ans_stderr a];
          ran := ran st ++ [c];
          input := input st |}.

Definition capture (c : Command) : Sh (N * string) := capture_with false c.

(** A simple command under [set -e]. *)
Definition run (c : Command) : Sh unit :=
  sh status <- exec c; errexit status.

(** [x=$(c)] under [set -e]. *)
Definition assign (c : Command) : Sh string :=
  sh r <- capture c; errexit (fst r) ;; pure (snd r).

(** A function called as a simple command under [set -e]. *)
Definition call (f : Sh N) : Sh unit :=
  sh status <- f; errexit status.

Definition check_deps : Sh N :=
  sh m1 <- (if installed "gh" then pure false
            else echo_err "❌ 'gh' (GitHub CLI) not found. Please install it." ;;
                 pure true);
  sh m2 <- (if installed "fzf" then pure false
            else echo_err "❌ 'fzf' not found. Please install it." ;;
                 pure true);
  sh m3 <- (if installed "jq" then pure false
            else echo_err "❌ 'jq' not found. Please install it." ;;
                 pure true);
  let missing := m1 || m2 || m3 in
  (if negb (is_empty SLACK_TOKEN) then
     if is_empty PR_ROOM
     then echo_err "⚠️ PR_ROOM is not set. Slack messages will not be sent."
     else pure tt
   else pure tt) ;;
  if missing then exit 1 else pure 0%N.

Definition help_text : list string :=
  [ "Git & GitHub Helper Scripts";
    EmptyString;
    "Usage: " ++ script ++ " <command> [arguments...]";
    EmptyString;
    "Commands:";
    "  pr <base> [title]           Create a PR to a specific base branch.";
    "  prs [remote] [title]        Create a PR to the latest release branch (staging).";
    "  nb <branch> [from] [remote] Create a new branch from 'develop' (or [from]).";
    "  nbs <branch> [remote]       Create a new branch from the latest release branch.";
    "  nbh <branch> [from] [remote] Create a new branch from 'main' (or [from]).";
    "  ap <pr_url>                 Approve a GitHub PR.";
    "  mg <pr_url>                 Approve and merge a GitHub PR (non-interactive, with optional workflow trigger).";
    "  wf <pr_url>                 Interactively trigger a GitHub Action workflow for a PR.";
    "  sl <message>                Send a message to a Slack channel.";
    "  help, -h, --help            Show this help message.";
    EmptyString;
    "Note: For Slack integration, ensure SLACK_TOKEN, PR_ROOM, and user SLACK_IDs are set in your environment." ].

Fixpoint echo_all (lines : list string) : Sh unit :=
  match lines with
  | [] => pure tt
  | l :: rest => echo l ;; echo_all rest
  end.

Definition gk_help : Sh N := echo_all help_text ;; pure 0%N.

Definition gk_slack (args : list string) : Sh N :=
  if is_empty SLACK_TOKEN then
    echo "❌ SLACK_TOKEN not set. export SLACK_TOKEN='xoxb-xxxx'" ;;
    pure 1%N
  else if (length args <? 1)%nat then
    echo "Usage: gk_slack <message>" ;;
    pure 1%N
  else
    echo ("Sending message to " ++ PR_ROOM ++ ": " ++ join_args args) ;;
    let channel := PR_ROOM in
    let message := join_args args in
    sh response <-
      assign (cmd [ "curl"; "-s"; "-X"; "POST";
                    "https://slack.com/api/chat.postMessage";
                    "-H"; "Authorization: Bearer " ++ SLACK_TOKEN;
                    "-H"; "Content-type: application/json";
                    "--data";
                    "{" ++ dq ++ "channel" ++ dq ++ ":" ++ dq ++ channel ++
                    dq ++ "," ++ dq ++ "text" ++ dq ++ ":" ++ dq ++
                    message ++ dq ++ "}" ]);
    sh ok <- capture (cmd_in ["jq"; "-r"; ".ok"] response);
    if String.eqb (snd ok) "true" then
      echo ("✅ Sent to " ++ channel ++ ": " ++ message) ;;
      pure 0%N
    else
      sh e <- capture (cmd_in ["jq"; "-r"; ".error"] response);
      echo ("❌ Error: " ++ snd e) ;;
      pure 0%N.

(** [git branch -r | grep ... | sed ... | sort -V | tail -n1 | awk ...] *)
Definition latest_release_pipeline : Command :=
  pipe [ ["git"; "branch"; "-r"];
         ["grep"; "origin/release/v"];
         ["sed"; "s|origin/release/v||"];
         ["sort"; "-V"];
         ["tail"; "-n1"];
         ["awk"; "{$1=$1;print}"] ].

(** [echo "$url" | awk -F/ program] *)
Definition awk_field (url program : string) : Command :=
  pipe [ ["echo"; url]; ["awk"; "-F/"; program] ].

(** The [while] loop of [gk_pr] that waits for the conflicts to be
    resolved; [pending] is the unread standard input, one line of which
    each round consumes. *)
Fixpoint wait_for_resolution (pending : list string) : Sh unit :=
  sh unmerged <-
    capture (cmd ["git"; "diff"; "--name-only"; "--diff-filter=U"]);
  if negb (is_empty (snd unmerged)) then
    sh r <- read;
    errexit (fst r) ;;
    match pending with
    | [] => pure tt
    | _ :: rest => wait_for_resolution rest
    end
  else pure tt.

Definition slack_users : list string :=
  [ "ĐỊNH:" ++ DINH_SLACK_ID;
    "PHƯƠNG:" ++ PHUONG_SLACK_ID;
    "VINH:" ++ VINH_SLACK_ID;
    "THY:" ++ THY_SLACK_ID;
    "NONE:" ].

(** The text handed to [gk_slack]: inside double quotes [\`] is a
    backtick, and [\n] stays a backslash followed by [n]. *)
Definition pr_message (pr_url pr_number author repo_name current_branch
    base mention : string) : string :=
  "🚀 Pull request <" ++ pr_url ++ "|" ++ pr_number ++ "> created by *" ++
  author ++ "* in " ++ bq ++ repo_name ++ bq ++ " " ++ bs ++
  "n> Branch: " ++ bq ++ current_branch ++ bq ++ " to: " ++
  bq ++ base ++ bq ++ mention ++ " " ++ bs ++ "n" ++ bs ++
  "n💬 Please react after you approved or merged this PR".

Definition gk_pr (args : list string) : Sh N :=
  echo ("gk_pr " ++ arg 1 args ++ " " ++ arg 2 args) ;;
  echo "🔥 Start to create pull request" ;;
  let base := or_default (arg 1 args) "release" in
  let title := arg 2 args in
  (if String.eqb base "develop" then
     sh source_branch <- assign (cmd ["git"; "branch"; "--show-current"]);
     sh timestamp <- assign (cmd ["date"; "+%Y%m%d%H%M%S"]);
     let merge_branch := source_branch ++ "-to-develop-" ++ timestamp in
     echo ("🌱 Preparing integration branch: " ++ merge_branch ++
           " (from origin/develop)") ;;
     run (cmd ["git"; "fetch"; "origin"]) ;;
     run (cmd ["git"; "checkout"; "-b"; merge_branch; "origin/develop"]) ;;
     echo ("🔀 Merging '" ++ source_branch ++ "' into '" ++ merge_branch ++
           "'") ;;
     sh merge_exit <-
       exec (cmd ["git"; "merge"; "--no-ff"; "--no-edit"; source_branch]);
     (if negb (merge_exit =? 0)%N then
        echo "⚠️ Merge conflicts detected. Please resolve them in another terminal/editor." ;;
        echo "   After resolving, stage the changes and commit, then return here." ;;
        (fun st => wait_for_resolution (input st) st) ;;
        sh _ <- exec_with true (cmd ["git"; "merge"; "--continue"]);
        echo "✅ Conflicts resolved. Continuing..."
      else pure tt) ;;
     echo ("📤 Pushing integration branch to origin: " ++ merge_branch) ;;
     run (cmd ["git"; "push"; "-u"; "origin"; merge_branch])
   else pure tt) ;;
  sh pr_url <-
    (if negb (is_empty title) then
       echo ("🔥 Create pull request with title: " ++ title) ;;
       assign (cmd ["gh"; "pr"; "create"; "--base"; base; "--title"; title])
     else
       echo "🔥 Create pull request with fill" ;;
       assign (cmd ["gh"; "pr"; "create"; "--base"; base; "--fill"]));
  if negb (is_empty pr_url) then
    echo ("✅ Pull request created: " ++ pr_url ++ " 🎉") ;;
    sh current_branch <- assign (cmd ["git"; "branch"; "--show-current"]);
    sh author <- assign (cmd ["git"; "config"; "user.name"]);
    sh pr_number <-
      assign (pipe [ ["echo"; pr_url];
                     ["grep"; "-o"; "[0-9]" ++ bs ++ "+$"] ]);
    sh toplevel <- capture (cmd ["git"; "rev-parse"; "--show-toplevel"]);
    sh repo_name <- assign (cmd ["basename"; snd toplevel]);
    sh selected_user <-
      assign (pipe [ ("printf" :: ("%s" ++ bs ++ "n") :: slack_users);
                     [ "fzf"; "--prompt=Select user to mention: ";
                       "--height=7"; "--reverse"; "--border" ] ]);
    if negb (is_empty selected_user) &&
       negb (String.eqb selected_user "NONE:") then
      let user_id := strip_to_colon selected_user in
      call (gk_slack [ pr_message pr_url pr_number author repo_name
                         current_branch base (" <@" ++ user_id ++ ">") ]) ;;
      pure 0%N
    else
      call (gk_slack [ pr_message pr_url pr_number author repo_name
                         current_branch base EmptyString ]) ;;
      pure 0%N
  else
    echo "❌ Failed to create pull request." ;;
    pure 1%N.

Definition gk_prs (args : list string) : Sh N :=
  echo ("gk_prs " ++ arg 1 args ++ " " ++ arg 2 args) ;;
  echo "🔥 Start to create pull request" ;;
  let remote := or_default (arg 1 args) "origin" in
  let title := arg 2 args in
  sh fetched <- exec (cmd ["git"; "fetch"; remote]);
  if negb (fetched =? 0)%N then pure 1%N
  else
    sh latest_release <- assign latest_release_pipeline;
    if is_empty latest_release then
      echo "No release branch found" ;;
      pure 1%N
    else
      echo ("Latest release: " ++ latest_release) ;;
      echo ("Create pull request with title: " ++ title) ;;
      call (gk_pr ["release/v" ++ latest_release; title]) ;;
      echo ("✅ " ++ arg 1 args ++ " Pull request created") ;;
      pure 0%N.

(** [git fetch R && git checkout -b B R/F && git push -u R B]: only a
    failure of the last command of the list ends the script. *)
Definition fetch_checkout_push (branch from remote : string) : Sh unit :=
  sh s1 <- exec (cmd ["git"; "fetch"; remote]);
  if negb (s1 =? 0)%N then pure tt
  else
    sh s2 <- exec (cmd ["git"; "checkout"; "-b"; branch;
                        remote ++ "/" ++ from]);
    if negb (s2 =? 0)%N then pure tt
    else run (cmd ["git"; "push"; "-u"; remote; branch]).

Definition gk_nb (args : list string) : Sh N :=
  echo ("gk_nb " ++ arg 1 args ++ " " ++ arg 2 args ++ " " ++ arg 3 args) ;;
  echo "🔥 Start to create new branch" ;;
  fetch_checkout_push (arg 1 args) (or_default (arg 2 args) "develop")
    (or_default (arg 3 args) "origin") ;;
  echo ("✅ " ++ arg 1 args ++ " New branch created from develop 🎉") ;;
  pure 0%N.

Definition gk_nbs (args : list string) : Sh N :=
  echo ("gk_nbs " ++ arg 1 args ++ " " ++ arg 2 args) ;;
  echo "🔥 Start to create new branch from staging" ;;
  let remote := or_default (arg 2 args) "origin" in
  sh latest_release <- assign latest_release_pipeline;
  echo ("Latest release: " ++ latest_release) ;;
  sh fetched <- exec (cmd ["git"; "fetch"; remote]);
  if negb (fetched =? 0)%N then pure 1%N
  else
    echo ("Fetch remote: " ++ remote) ;;
    call (gk_nb [arg 1 args; "release/v" ++ latest_release; remote]) ;;
    echo ("✅ " ++ arg 1 args ++ " Branch created from staging 🎉") ;;
    pure 0%N.

Definition gk_nbh (args : list string) : Sh N :=
  echo ("gk_nbh " ++ arg 1 args ++ " " ++ arg 2 args ++ " " ++ arg 3 args) ;;
  echo "🔥 Start to create new branch" ;;
  fetch_checkout_push (arg 1 args) (or_default (arg 2 args) "main")
    (or_default (arg 3 args) "origin") ;;
  echo ("✅ " ++ arg 1 args ++ " New branch hotfix created 🎉") ;;
  pure 0%N.

Definition gk_approve (args : list string) : Sh N :=
  let url := arg 1 args in
  echo ("🔥 Approving PR: " ++ url) ;;
  sh pr_number <- assign (awk_field url "{print $7}");
  sh repo <-
    assign (awk_field url ("{print $4 " ++ dq ++ "/" ++ dq ++ " $5}"));
  run (cmd ["gh"; "pr"; "review"; pr_number; "--approve"; "--repo"; repo]) ;;
  echo ("✅ PR for " ++ url ++ " approved 🎉") ;;
  pure 0%N.

Definition gk_wf (args : list string) : Sh N :=
  let url := arg 1 args in
  if is_empty url then
    echo "Usage: gk_wf <github_pr_url>" ;;
    pure 1%N
  else if negb (installed "fzf") then
    echo "❌ fzf is not installed. Please install it for interactive selection." ;;
    echo "   On macOS, you can run: brew install fzf" ;;
    pure 1%N
  else
    sh owner <- assign (awk_field url "{print $4}");
    sh repo <- assign (awk_field url "{print $5}");
    sh pr_number <- assign (awk_field url "{print $7}");
    if is_empty owner || is_empty repo || is_empty pr_number then
      echo "❌ Invalid GitHub PR URL provided." ;;
      echo "Expected format: https://github.com/owner/repo/pull/123" ;;
      pure 1%N
    else
      echo ("owner: " ++ owner) ;;
      echo ("repo: " ++ repo) ;;
      echo ("pr_number: " ++ pr_number) ;;
      let branch := "develop" in
      if is_empty branch then
        echo ("❌ Could not determine branch for PR #" ++ pr_number ++
              ". Is the PR valid and do you have access?") ;;
        pure 1%N
      else
        echo ("🔍 Checking workflows on branch '" ++ branch ++ "' of '" ++
              owner ++ "/" ++ repo ++ "'...") ;;
        sh listed <-
          capture_with true
            (cmd [ "gh"; "api";
                   "repos/" ++ owner ++ "/" ++ repo ++
                   "/contents/.github/workflows?ref=" ++ branch;
                   "--jq"; ".[].name" ]);
        errexit (fst listed) ;;
        let workflows := snd listed in
        if is_empty workflows then
          echo ("❌ No workflows found on branch '" ++ branch ++ "'") ;;
          pure 1%N
        else
          sh workflow_to_run <-
            assign (pipe [ ["echo"; workflows];
                           [ "fzf";
                             "--prompt=Please select a workflow to trigger > ";
                             "--height=40%"; "--layout=reverse" ] ]);
          if negb (is_empty workflow_to_run) then
            echo ("🚀 Triggering workflow '" ++ workflow_to_run ++
                  "' on branch '" ++ branch ++ "'...") ;;
            run (cmd [ "gh"; "workflow"; "run"; workflow_to_run;
                       "--ref"; branch; "--repo"; owner ++ "/" ++ repo ]) ;;
            pure 0%N
          else
            echo "No workflow selected. Aborting." ;;
            pure 1%N.

(** [read -n 1]: the first character of the line read. *)
Definition first_char (line : string) : string :=
  match line with
  | EmptyString => EmptyString
  | String c _ => String c EmptyString
  end.

Definition gk_merge (args : list string) : Sh N :=
  let url := arg 1 args in
  echo ("🔥 Approving PR: " ++ url) ;;
  sh pr_number <- assign (awk_field url "{print $7}");
  sh repo <-
    assign (awk_field url ("{print $4 " ++ dq ++ "/" ++ dq ++ " $5}"));
  run (cmd ["gh"; "pr"; "review"; pr_number; "--approve"; "--repo"; repo]) ;;
  run (cmd ["gh"; "pr"; "merge"; pr_number; "--repo"; repo; "--merge"]) ;;
  echo ("✅ PR for " ++ url ++ " approved and merged 🎉") ;;
  sh viewed <-
    capture_with true
      (cmd [ "gh"; "pr"; "view"; pr_number; "--repo"; repo;
             "--json"; "baseRefName"; "--jq"; ".baseRefName" ]);
  let base_branch := snd viewed in
  if String.eqb base_branch "develop" then
    echo EmptyString ;;
    sh r <- read;
    errexit (fst r) ;;
    let REPLY := first_char (snd r) in
    echo EmptyString ;;
    if String.eqb REPLY "y" || String.eqb REPLY "Y" then
      echo "🔥 Starting workflow selection..." ;;
      call (gk_wf [url]) ;;
      pure 0%N
    else
      echo "⏭️ Skipping workflow execution" ;;
      pure 0%N
  else pure 0%N.

(** The command router. *)
Definition main (args : list string) : Sh N :=
  call check_deps ;;
  if is_empty (arg 1 args) then
    sh _ <- gk_help;
    exit 0
  else
    let COMMAND := arg 1 args in
    let args := tl args in
    if String.eqb COMMAND "prs" then
      call (gk_prs args) ;; pure 0%N
    else if String.eqb COMMAND "pr" then
      call (gk_pr args) ;; pure 0%N
    else if String.eqb COMMAND "sl" || String.eqb COMMAND "slack" then
      call (gk_slack args) ;; pure 0%N
    else if String.eqb COMMAND "nb" then
      call (gk_nb args) ;; pure 0%N
    else if String.eqb COMMAND "nbs" then
      call (gk_nbs args) ;; pure 0%N
    else if String.eqb COMMAND "nbh" then
      call (gk_nbh args) ;; pure 0%N
    else if String.eqb COMMAND "ap" || String.eqb COMMAND "approve" then
      call (gk_approve args) ;; pure 0%N
    else if String.eqb COMMAND "mg" || String.eqb COMMAND "merge" then
      call (gk_merge args) ;; pure 0%N
    else if String.eqb COMMAND "wf" then
      call (gk_wf args) ;; pure 0%N
    else if String.eqb COMMAND "help" || String.eqb COMMAND "-h" ||
            String.eqb COMMAND "--help" then
      gk_help
    else
      echo_err ("❌ Error: Unknown command '" ++ COMMAND ++ "'") ;;
      echo EmptyString ;;
      sh _ <- gk_help;
      exit 1.

(** A whole run, [main "$@"] being the last command of the script: the
    exit status and the final state. *)
Definition run_script (args stdin : list string) : N * State :=
  match main args (initial stdin) with
  | Go status st => (status, st)
  | Exit status st => (status, st)
  end.

End Script.

End Shell.

(** ** install.sh: the dependency step *)

Module Installer.

Import Shell.
Local Open Scope string_scope.

Definition esc : string := String (ascii_of_nat 27) EmptyString.

(** [echo -e "\033[${color_code}m${message}\033[0m"]; none of the
    messages of the script holds a backslash. *)
Definition colored (color_code message : string) : string :=
  esc ++ "[" ++ color_code ++ "m" ++ message ++ esc ++ "[0m".

Definition echo_info (message : string) : Sh unit :=
  echo (colored "34" message).

Definition echo_success (message : string) : Sh unit :=
  echo (colored "32" message).

Definition echo_error (message : string) : Sh unit :=
  echo_err (colored "31" message).

Section Script.

Variable world : list Command -> Command -> Answer.
(** [command_exists tool] succeeds. *)
Variable installed : string -> bool.

(** [! command_exists p && packages_to_install+=(p)] *)
Definition add_if_missing (p : string) (packages : list string)
    : list string :=
  if negb (installed p) then packages ++ [p] else packages.

Definition install_dependencies : Sh N :=
  echo_info "🚀 Checking and installing dependencies..." ;;
  let packages_to_install := [] in
  let packages_to_install := add_if_missing "gh" packages_to_install in
  let packages_to_install := add_if_missing "fzf" packages_to_install in
  let packages_to_install := add_if_missing "jq" packages_to_install in
  if (length packages_to_install =? 0)%nat then
    echo_success "✔ All dependencies are already installed." ;;
    pure 0%N
  else
    echo_info ("The following packages will be installed: " ++
               join_args packages_to_install) ;;
    sh uname1 <- capture world (cmd ["uname"]);
    (if String.eqb (snd uname1) "Darwin" then
       if negb (installed "brew") then
         echo_error "Error: Homebrew ('brew') is not installed. Please install it to continue: https://brew.sh/" ;;
         exit 1
       else
         echo_info "🍺 Using Homebrew to install packages..." ;;
         run world (cmd ("brew" :: "install" :: packages_to_install))
     else
       sh uname2 <- capture world (cmd ["uname"]);
       if String.eqb (snd uname2) "Linux" then
         if installed "apt-get" then
           echo_info "📦 Using apt-get to install packages. Your password may be required." ;;
           run world (cmd ["sudo"; "apt-get"; "update"]) ;;
           run world (cmd ("sudo" :: "apt-get" :: "install" :: "-y" ::
                           packages_to_install))
         else if installed "yum" then
           echo_info "📦 Using yum to install packages. Your password may be required." ;;
           run world (cmd ("sudo" :: "yum" :: "install" :: "-y" ::
                           packages_to_install))
         else if installed "dnf" then
           echo_info "📦 Using dnf to install packages. Your password may be required." ;;
           run world (cmd ("sudo" :: "dnf" :: "install" :: "-y" ::
                           packages_to_install))
         else
           echo_error "Error: Could not find a supported package manager (apt-get, yum, dnf). Please install dependencies manually." ;;
           exit 1
       else
         echo_error "Error: Unsupported operating system. Please install dependencies manually." ;;
         exit 1) ;;
    echo_success "✔ Dependencies installed successfully." ;;
    pure 0%N.

End Script.

End Installer.

(** * Vocabulary of the statements *)

Definition all_space (s : jstring) : Prop :=
  Forall (fun c => is_js_space c = true) s.

(** The sequence both adapters build: the values of the parameters in
    declared order, absent ones left out. *)
Definition present_values (order : list jstring)
    (values : gmap jstring JsValue) : list JsValue :=
  omap (js_get values) order.

Definition gkit_spawn (command : JsValue) (args : list JsValue) : Spawn :=
  {| sp_file := js "./gkit.sh"; sp_args := command :: args |}.

(** The result of an invocation as a function of what the child did. *)
Definition result_of (p : ProcOutcome) : InvocationResult :=
  {| success := code_is_zero (exit_code p);
     output := trim (concat (stdout_data p));
     error := trim (concat (stderr_data p)) |}.

Definition registry_names : list jstring := map name GkitCommands.

(** What the handler answers once the child has run. *)
Definition tool_result_of (r : InvocationResult) : ToolResult :=
  if success r then {| text := Text (output r); isError := false |}
  else {| text :=
            Text (js "Error: " ++
                  (if negb (bool_decide (error r = []))
                   then error r else output r));
          isError := true |}.

(** Sample inputs. *)
Definition tool_named (n : string) : Tool :=
  default (mkTool EmptyString EmptyString [] []) (find_tool (js n)).
Definition create_branch : Tool := tool_named "create_branch".
Definition approve_pr : Tool := tool_named "approve_pr".
Definition create_pr : Tool := tool_named "create_pr".

Definition str (s : string) : JsValue := JStr (js s).

Definition branch_only : gmap jstring JsValue :=
  {[ js "branch" := str "feature-x" ]}.
Definition branch_and_remote : gmap jstring JsValue :=
  <[ js "remote" := str "upstream" ]> branch_only.
Definition branch_from_remote : gmap jstring JsValue :=
  <[ js "from" := str "main" ]> branch_and_remote.

(** A child that exits with [code] after writing [out] and [err]. *)
Definition child_exiting (code : N) (out err : string) (_ : Spawn)
    : ProcOutcome :=
  {| exit_code := Some code;
     stdout_data := [js out];
     stderr_data := [js err] |}.

(** A child that exits 0 without writing anything. *)
Definition silent_child (_ : Spawn) : ProcOutcome :=
  {| exit_code := Some 0; stdout_data := []; stderr_data := [] |}.

Definition no_url (_ : jstring) : option jstring := None.
Definition no_message (_ : EngineError) : jstring := [].

(** A string with nothing for [sanitizePrUrl] to remove: no white space
    or backtick at either end, and no [@], [<] or backtick in front. *)
Definition plain_url (u : jstring) : Prop :=
  (forall c : jschar,
     head u = Some c ->
     is_js_space c = false /\ c <> 64 /\ c <> 60 /\ c <> 96) /\
  (forall c : jschar,
     last u = Some c -> is_js_space c = false /\ c <> 96).





(** The five findings [reviewCode] can report, in the order of its tests. *)
Definition review_findings : list jstring :=
  [ js "Remove console.log in production code.";
    js "Resolve TODO/FIXME before merging.";
    js "Ensure secrets are not hard-coded.";
    js "Avoid TypeScript any; prefer explicit types.";
    js "Avoid empty catch blocks; handle errors meaningfully." ].

(** The two comments [reviewPullRequest] can attach to a line. *)
Definition log_comment (lineNo : N) : jstring :=
  number_to_string lineNo ++ js ": Avoid console.log in committed code.".
Definition todo_comment (lineNo : N) : jstring :=
  number_to_string lineNo ++ js ": Address TODO/FIXME before merging.".

(** A line [reviewPullRequest] has nothing to say about. *)
Definition clean_line (line : jstring) : Prop :=
  includes line (js "console.log(") = false /\
  includes line (js "TODO") = false /\
  includes line (js "FIXME") = false.

(** What the [catch] of the tool-call handler makes of a completion. *)
Definition answer_of (c : Completion ToolResult) : ToolResult :=
  match c with
  | Normal r => r
  | Thrown errorMessage =>
      {| text := Text (js "Error: " ++ errorMessage); isError := true |}
  end.

(** Unfolding the two monads of the Node side, strings left alone. *)
Ltac eff :=
  cbn [value spawned fst snd throw ok ret bind bindE app negb andb orb].

Section ShellVocabulary.

Import Shell.
Local Open Scope string_scope.

(** The three tools [check_deps] looks for are there. *)
Definition deps_present (installed : string -> bool) : Prop :=
  installed "gh" = true /\ installed "fzf" = true /\ installed "jq" = true.

(** The subcommands the [case] of [main] knows. *)
Definition known_commands : list string :=
  [ "prs"; "pr"; "sl"; "slack"; "nb"; "nbs"; "nbh"; "ap"; "approve";
    "mg"; "merge"; "wf"; "help"; "-h"; "--help" ].

Definition with_out (st : State) (lines : list string) : State :=
  {| out := out st ++ lines; err := err st; ran := ran st;
     input := input st |}.

Definition with_err (st : State) (lines : list string) : State :=
  {| out := out st; err := err st ++ lines; ran := ran st;
     input := input st |}.

Definition said (s : string) : Answer :=
  {| ans_status := 0; ans_stdout := s ++ nl; ans_stderr := EmptyString |}.

(** An environment in which every command succeeds: [gh pr create] prints
    the URL of the new pull request, the user picks "NONE:" in the
    selector, and the Slack API answers that the channel does not exist. *)
Definition pr_world (_ : list Command) (c : Command) : Answer :=
  match last (pipeline c) with
  | Some (prog :: rest) =>
      if String.eqb prog "gh" then said "https://github.com/o/r/pull/5"
      else if String.eqb prog "git" then
        if String.eqb (hd EmptyString rest) "branch" then said "feature-x"
        else if String.eqb (hd EmptyString rest) "config" then said "alice"
        else if String.eqb (hd EmptyString rest) "rev-parse"
        then said "/home/alice/r"
        else said EmptyString
      else if String.eqb prog "grep" then said "5"
      else if String.eqb prog "basename" then said "r"
      else if String.eqb prog "fzf" then said "NONE:"
      else if String.eqb prog "curl" then
        said ("{" ++ dq ++ "ok" ++ dq ++ ":false," ++ dq ++ "error" ++ dq ++
              ":" ++ dq ++ "channel_not_found" ++ dq ++ "}")
      else if String.eqb prog "jq" then
        if String.eqb (nth 1 rest EmptyString) ".ok" then said "false"
        else said "channel_not_found"
      else said EmptyString
  | _ => said EmptyString
  end.

Definition all_installed (_ : string) : bool := true.

(** An environment in which every external command fails. *)
Definition offline_world (_ : list Command) (_ : Command) : Answer :=
  {| ans_status := 128; ans_stdout := EmptyString;
     ans_stderr := "fatal: unable to access the remote" |}.

(** An environment in which the two-stage pipelines (the [awk]
    extractions) succeed and every other command fails. *)
Definition gh_refusing (_ : list Command) (c : Command) : Answer :=
  if bool_decide (length (pipeline c) = 2%nat) then said "5"
  else offline_world [] c.

(** An environment in which the local pipelines succeed and every simple
    command (git, gh, curl) fails. *)
Definition remote_unreachable (_ : list Command) (c : Command) : Answer :=
  if bool_decide (length (pipeline c) = 1%nat) then offline_world [] c
  else said "1.2.0".

(** The three commands of the list that creates a branch. *)
Definition git_fetch (remote : string) : Command :=
  cmd ["git"; "fetch"; remote].
Definition git_checkout (branch remote from : string) : Command :=
  cmd ["git"; "checkout"; "-b"; branch; remote ++ "/" ++ from].
Definition git_push (remote branch : string) : Command :=
  cmd ["git"; "push"; "-u"; remote; branch].

(** The state after an external command [c] was run with its output on
    the script's streams, and after it was run in a command substitution. *)
Definition after_exec (world : list Command -> Command -> Answer)
    (quiet_err : bool) (c : Command) (st : State) : State :=
  {| out := out st ++ [ans_stdout (world (ran st) c)];
     err := if quiet_err then err st
            else err st ++ [ans_stderr (world (ran st) c)];
     ran := ran st ++ [c];
     input := input st |}.

Definition after_capture (world : list Command -> Command -> Answer)
    (quiet_err : bool) (c : Command) (st : State) : State :=
  {| out := out st;
     err := if quiet_err then err st
            else err st ++ [ans_stderr (world (ran st) c)];
     ran := ran st ++ [c];
     input := input st |}.

(** What a command substitution yields. *)
Definition captured (world : list Command -> Command -> Answer)
    (c : Command) (st : State) : string :=
  strip_trailing_newlines (ans_stdout (world (ran st) c)).

Definition status_in (world : list Command -> Command -> Answer)
    (c : Command) (st : State) : N :=
  ans_status (world (ran st) c).

(** The commands of [gk_approve] and [gk_merge]. *)
Definition pr_number_query (url : string) : Command :=
  awk_field url "{print $7}".
Definition repo_query (url : string) : Command :=
  awk_field url ("{print $4 " ++ dq ++ "/" ++ dq ++ " $5}").
Definition gh_review (pr_number repo : string) : Command :=
  cmd ["gh"; "pr"; "review"; pr_number; "--approve"; "--repo"; repo].
Definition gh_merge (pr_number repo : string) : Command :=
  cmd ["gh"; "pr"; "merge"; pr_number; "--repo"; repo; "--merge"].
Definition gh_view_base (pr_number repo : string) : Command :=
  cmd [ "gh"; "pr"; "view"; pr_number; "--repo"; repo;
        "--json"; "baseRefName"; "--jq"; ".baseRefName" ].

(** What [$(c)] yields when [c] is run after the commands [before]. *)
Definition output_of (world : list Command -> Command -> Answer)
    (before : list Command) (c : Command) : string :=
  strip_trailing_newlines (ans_stdout (world before c)).

(** The command that triggers a workflow. *)
Definition gh_workflow_run (workflow branch owner repo : string) : Command :=
  cmd [ "gh"; "workflow"; "run"; workflow; "--ref"; branch;
        "--repo"; owner ++ "/" ++ repo ].

(** The command that creates the pull request. *)
Definition gh_pr_create (base title : string) : Command :=
  if is_empty title then cmd ["gh"; "pr"; "create"; "--base"; base; "--fill"]
  else cmd ["gh"; "pr"; "create"; "--base"; base; "--title"; title].

(** The request [gk_slack] sends. *)
Definition slack_post (token message : string) : Command :=
  cmd [ "curl"; "-s"; "-X"; "POST";
        "https://slack.com/api/chat.postMessage";
        "-H"; "Authorization: Bearer " ++ token;
        "-H"; "Content-type: application/json";
        "--data";
        "{" ++ dq ++ "channel" ++ dq ++ ":" ++ dq ++ PR_ROOM ++ dq ++
        "," ++ dq ++ "text" ++ dq ++ ":" ++ dq ++ message ++ dq ++ "}" ].

(** install.sh: the packages that are not there, the package manager a
    Linux host offers, and the commands of the dependency step. *)
Definition missing_packages (installed : string -> bool) : list string :=
  List.filter (fun p => negb (installed p)) ["gh"; "fzf"; "jq"].

Definition package_manager (installed : string -> bool) : option string :=
  if installed "apt-get" then Some "apt-get"
  else if installed "yum" then Some "yum"
  else if installed "dnf" then Some "dnf"
  else None.

Definition uname : Command := cmd ["uname"].
Definition brew_install (packages : list string) : Command :=
  cmd ("brew" :: "install" :: packages).
Definition apt_update : Command := cmd ["sudo"; "apt-get"; "update"].
Definition sudo_install (manager : string) (packages : list string)
    : Command :=
  cmd ("sudo" :: manager :: "install" :: "-y" :: packages).

(** The status a function returned or ended the script with, and the
    state it left. *)
Definition outcome (o : Outcome N) : N * State :=
  match o with
  | Go n st => (n, st)
  | Exit n st => (n, st)
  end.

(** A Linux host on which every command succeeds, with [dnf] as its only
    package manager and [jq] missing. *)
Definition linux_host (_ : list Command) (_ : Command) : Answer :=
  said "Linux".
Definition fedora_tools (tool : string) : bool :=
  String.eqb tool "gh" || String.eqb tool "fzf" || String.eqb tool "dnf".

(** The exit status of a run and what it left behind. *)
Definition status_of (r : N * State) : N := fst r.
Definition commands_of (r : N * State) : list Command := ran (snd r).
Definition printed_by (r : N * State) : list string := out (snd r).

(** [ends P Q m]: whenever [m] ends the script, the status satisfies [P];
    whenever it goes on, its value satisfies [Q]. *)
Definition ends {A} (P : N -> Prop) (Q : A -> Prop) (m : Sh A) : Prop :=
  forall st, match m st with
             | Go a _ => Q a
             | Exit n _ => P n
             end.

Definition nonzero (n : N) : Prop := n <> 0%N.
Definition anything {A} (_ : A) : Prop := True.
Definition nothing {A} (_ : A) : Prop := False.

End ShellVocabulary.

(** Normalising the state a script has reached. *)
Ltac shell_state :=
  unfold status_in, captured, after_exec, after_capture, with_out, with_err,
    Shell.initial;
  cbn [Shell.out Shell.err Shell.ran Shell.input List.app fst snd head
       N.eqb].

(** Cases on the exit status the script tests next. *)
Ltac on_status :=
  match goal with
  | |- context [(Shell.ans_status ?a =? 0)] =>
      destruct (N.eqb_spec (Shell.ans_status a) 0)
  end.

(** * The model on concrete inputs *)

Example trim_spaces :
  trim (js "  PR created " ++ [10]) = js "PR created".
Proof. reflexivity. Qed.

Example trim_unicode_space :
  trim ([160; 65279] ++ js "x y" ++ [8233; 12288]) = js "x y".
Proof. reflexivity. Qed.

Example trim_inner_space_kept : trim (js "a  b") = js "a  b".
Proof. reflexivity. Qed.

Example includes_substring :
  includes (js "x = console.log(1)") (js "console.log") = true /\
  includes (js "console") (js "console.log") = false.
Proof. split; reflexivity. Qed.

Example word_any :
  match_word_any false (js "let x: any = 1") = true /\
  match_word_any false (js "any") = true /\
  match_word_any false (js "many") = false /\
  match_word_any false (js "anyone") = false /\
  match_word_any false (js "any_") = false.
Proof. repeat split; reflexivity. Qed.

Example empty_catch :
  match_empty_catch (js "try { f() } catch (e) { }") = true /\
  match_empty_catch (js "try { f() } catch(e){}") = true /\
  match_empty_catch (js "catch (e) { log(e) }") = false /\
  match_empty_catch (js "catch (" ++ [10] ++ js "e) {}") = false.
Proof. repeat split; reflexivity. Qed.

Example split_lines :
  split 10 (js "a" ++ [10] ++ js "b" ++ [10]) = [js "a"; js "b"; []] /\
  split 10 [] = [[]].
Proof. split; reflexivity. Qed.

Example review_two_lines :
  reviewPullRequest (js "ok" ++ [10] ++ js "// TODO console.log(x)")
  = js "REVIEW:" ++ [10] ++
    js "2: Avoid console.log in committed code." ++ [10] ++
    js "2: Address TODO/FIXME before merging." ++ [10; 10] ++
    js "SUMMARY:" ++ [10] ++
    js "Found 2 potential issue(s). Please address before merge.".
Proof. vm_compute. reflexivity. Qed.

Example review_rating :
  rating (reviewCode id (js "const x: any = 1; // todo")) = 8%Z.
Proof. vm_compute. reflexivity. Qed.

Example endpoints :
  map route_endpoint routes
  = map js [ "/api/create-pr"; "/api/create-pr-to-staging";
             "/api/create-branch"; "/api/create-branch-from-staging";
             "/api/create-hotfix-branch"; "/api/approve-pr"; "/api/merge-pr";
             "/api/trigger-workflow"; "/api/send-slack-message" ]%string.
Proof. vm_compute. reflexivity. Qed.

Example path_matching :
  path_matches (js "/api/approve-pr") (js "/api/approve-pr") = true /\
  path_matches (js "/api/approve-pr") (js "/API/Approve-PR/") = true /\
  path_matches (js "/api/approve-pr") (js "/api/approve_pr") = false.
Proof. repeat split; vm_compute; reflexivity. Qed.

Example prototype_member_read :
  js_get ∅ (js "constructor") = Some (JInherited (js "constructor")) /\
  js_get ∅ (js "pr_url") = None.
Proof. split; vm_compute; reflexivity. Qed.

Example shell_words :
  Shell.strip_to_colon "VINH:U08TR09LSEP" = "U08TR09LSEP"%string /\
  Shell.strip_trailing_newlines ("feature-x" ++ Shell.nl ++ Shell.nl)
  = "feature-x"%string /\
  Shell.join_args ["a"; "b c"]%string = "a b c"%string /\
  Shell.arg 2 ["a"]%string = EmptyString.
Proof. repeat split; reflexivity. Qed.

Example help_command :
  fst (Shell.run_script pr_world all_installed EmptyString "gkit.sh"
         ["--help"%string] []) = 0.
Proof. vm_compute. reflexivity. Qed.

(** * Lemmas *)

(** ** [trim] *)

Lemma trimStart_split (s : jstring) :
  exists pre, s = pre ++ trimStart s /\ all_space pre.
Proof.
  induction s as [|c s (pre & E & Hpre)]; simpl.
  - exists []. split; [done|constructor].
  - destruct (is_js_space c) eqn:Hc.
    + exists (c :: pre). split; [simpl; by f_equal|by constructor].
    + exists []. split; [done|constructor].
Qed.

Lemma trimStart_head (s : jstring) (c : jschar) :
  head (trimStart s) = Some c -> is_js_space c = false.
Proof.
  induction s as [|d s IH]; simpl; [discriminate|].
  destruct (is_js_space d) eqn:Hd; [exact IH|].
  simpl. by intros [= <-].
Qed.

Lemma trimEnd_split (s : jstring) :
  exists post, s = trimEnd s ++ post /\ all_space post.
Proof.
  unfold trimEnd. destruct (trimStart_split (reverse s)) as (pre & E & Hpre).
  exists (reverse pre). split.
  - rewrite <- reverse_app, <- E. by rewrite reverse_involutive.
  - unfold all_space. by apply Forall_reverse.
Qed.

Lemma trimEnd_last (s : jstring) (c : jschar) :
  last (trimEnd s) = Some c -> is_js_space c = false.
Proof.
  unfold trimEnd. rewrite last_reverse. apply trimStart_head.
Qed.

(** [trim s] is [s] without its longest prefix and suffix of white space. *)
Lemma trim_spec (s : jstring) :
  exists pre post,
    s = pre ++ trim s ++ post /\ all_space pre /\ all_space post /\
    (forall c, head (trim s) = Some c -> is_js_space c = false) /\
    (forall c, last (trim s) = Some c -> is_js_space c = false).
Proof.
  destruct (trimStart_split s) as (pre & E1 & Hpre).
  destruct (trimEnd_split (trimStart s)) as (post & E2 & Hpost).
  exists pre, post. unfold trim. split; [by rewrite <- E2|].
  split; [done|]. split; [done|]. split.
  - intros c Hc. apply (trimStart_head s).
    rewrite E2. destruct (trimEnd (trimStart s)); [discriminate|exact Hc].
  - apply trimEnd_last.
Qed.

(** ** Marshaling *)

Section MarshalFacts.

Implicit Types (order : list jstring) (values : gmap jstring JsValue).

Lemma marshal_body_from acc order values :
  fold_left
    (fun args param =>
       match js_get values param with
       | Some v => args ++ [v]
       | None => args
       end)
    order acc
  = acc ++ present_values order values.
Proof.
  revert acc. induction order as [|p order IH]; intros acc; simpl.
  - by rewrite app_nil_r.
  - rewrite IH. unfold present_values. simpl.
    destruct (js_get values p); simpl; [|done].
    by rewrite <- app_assoc.
Qed.

Lemma marshal_body_present order values :
  marshal_body order values = present_values order values.
Proof. unfold marshal_body. by rewrite marshal_body_from. Qed.

Lemma marshal_args_present order values :
  marshal_args order values = present_values order values.
Proof.
  unfold marshal_args, present_values.
  induction order as [|p order IH]; [done|].
  rewrite map_cons, filter_cons.
  destruct (js_get values p) as [v|] eqn:E.
  - destruct (decide (is_Some (Some v))) as [_|n]; [|by destruct n; eauto].
    cbn [omap list_omap]. rewrite E. cbn. f_equal. exact IH.
  - destruct (decide (is_Some (@None JsValue))) as [[? ?]|_]; [done|].
    cbn [omap list_omap]. rewrite E. exact IH.
Qed.

Lemma present_values_app o1 o2 values :
  present_values (o1 ++ o2) values
  = present_values o1 values ++ present_values o2 values.
Proof. apply omap_app. Qed.

Lemma present_values_length order values :
  (length (present_values order values) <= length order)%nat.
Proof.
  induction order as [|p order IH]; simpl; [lia|].
  unfold present_values in *. simpl.
  destruct (js_get values p); simpl; lia.
Qed.

Lemma present_values_full order values :
  (forall p, p ∈ order -> is_Some (js_get values p)) ->
  map Some (present_values order values) = map (js_get values) order.
Proof.
  induction order as [|p order IH]; intros H; [done|].
  unfold present_values in *. simpl.
  destruct (H p) as [v Hv]; [left|]. rewrite Hv. simpl.
  f_equal. apply IH. intros q Hq. apply H. by right.
Qed.

Lemma present_values_elem order values v :
  v ∈ present_values order values ->
  exists p, p ∈ order /\ js_get values p = Some v.
Proof.
  unfold present_values. rewrite list_elem_of_omap.
  intros (p & Hp & Hv). eauto.
Qed.

End MarshalFacts.

Lemma present_values_cons (p : jstring) (order : list jstring)
    (values : gmap jstring JsValue) :
  present_values (p :: order) values
  = match js_get values p with
    | Some v => v :: present_values order values
    | None => present_values order values
    end.
Proof. unfold present_values. simpl. by destruct (js_get values p). Qed.

Lemma present_values_lookup_full (order : list jstring)
    (values : gmap jstring JsValue) (i : nat) (p : jstring) :
  (forall p, p ∈ order -> is_Some (js_get values p)) ->
  order !! i = Some p ->
  present_values order values !! i = js_get values p.
Proof.
  intros Hall Hi.
  assert (E : map Some (present_values order values) !! i
              = map (js_get values) order !! i)
    by (by rewrite present_values_full).
  change (map Some (present_values order values))
    with (Some <$> present_values order values) in E.
  change (map (js_get values) order) with (js_get values <$> order) in E.
  rewrite !list_lookup_fmap, Hi in E. simpl in E.
  destruct (present_values order values !! i) as [v|] eqn:Ev; simpl in E.
  - by injection E.
  - discriminate.
Qed.

Lemma present_values_shift (pre : list jstring) (p : jstring)
    (mid : list jstring) (q : jstring) (post : list jstring)
    (values : gmap jstring JsValue) (v : JsValue) :
  js_get values p = None -> js_get values q = Some v ->
  let argv := present_values (pre ++ p :: mid ++ q :: post) values in
  let k := length (present_values (pre ++ mid) values) in
  (length argv < length (pre ++ p :: mid ++ q :: post))%nat /\
  (k < length pre + S (length mid))%nat /\
  argv !! k = Some v.
Proof.
  intros Hp Hq argv k. subst argv k.
  rewrite !present_values_app, present_values_cons, Hp.
  rewrite present_values_app, present_values_cons, Hq.
  pose proof (present_values_length pre values).
  pose proof (present_values_length mid values).
  pose proof (present_values_length post values).
  rewrite !length_app. simpl. rewrite !length_app. simpl.
  split; [lia|]. split; [lia|].
  rewrite lookup_app_r by lia.
  rewrite lookup_app_r by lia.
  replace (_ - _ - _)%nat with 0%nat by lia. done.
Qed.

(** The registry and the command map agree: every tool has an own,
    non-empty command token and is found under its name. *)
Lemma registry_entry tool :
  In tool GkitCommands ->
  exists c, ToolToGkitCommandMap !! name tool = Some (JStr c) /\
            c <> [] /\ find_tool (name tool) = Some tool.
Proof.
  intros H. unfold GkitCommands in H. simpl in H.
  repeat (destruct H as [<-|H];
          [eexists; split; [vm_compute; reflexivity|];
           split; [discriminate|vm_compute; reflexivity]|]).
  destruct H.
Qed.

Lemma js_get_own (o : gmap jstring JsValue) (k : jstring) (v : JsValue) :
  o !! k = Some v -> js_get o k = Some v.
Proof. intros H. unfold js_get. by rewrite H. Qed.

(** ** The process invoker *)

Section InvokerFacts.

Variable child : Spawn -> ProcOutcome.

Lemma executeGkit_eq command args :
  executeGkit child command args
  = (result_of (child (gkit_spawn command args)), [gkit_spawn command args]).
Proof. reflexivity. Qed.

End InvokerFacts.

(** ** The REST adapter *)

Section RestFacts.

Variable child : Spawn -> ProcOutcome.
Variable now : jstring.

Lemma post_handler_rejects (tool : Tool) (command : JsValue)
    (body : gmap jstring JsValue) (param : jstring) :
  first_missing body (requiredParams tool) = Some param ->
  post_handler child tool command body
  = ({| http_status := 400;
        http_body :=
          ErrorBody false (js "Parameter '" ++ param ++ js "' is required") |},
     []).
Proof. intros H. unfold post_handler. by rewrite H. Qed.

Lemma post_handler_invokes (tool : Tool) (command : JsValue)
    (body : gmap jstring JsValue) :
  first_missing body (requiredParams tool) = None ->
  let sp := gkit_spawn command (present_values (paramOrder tool) body) in
  post_handler child tool command body
  = ({| http_status := 200; http_body := ResultBody (result_of (child sp)) |},
     [sp]).
Proof.
  intros H sp. unfold post_handler. rewrite H, marshal_body_present.
  reflexivity.
Qed.

(** [first_missing] finds the first required parameter that reads as
    [undefined], and finds one whenever there is one. *)
Lemma first_missing_Some (body : gmap jstring JsValue) (req : list jstring)
    (param : jstring) :
  first_missing body req = Some param <->
  exists pre post,
    req = pre ++ param :: post /\ js_get body param = None /\
    forall q, q ∈ pre -> is_Some (js_get body q).
Proof.
  induction req as [|r req IH]; simpl.
  - split; [discriminate|]. intros (pre & post & E & _). by destruct pre.
  - destruct (js_get body r) as [v|] eqn:Er.
    + rewrite IH. split.
      * intros (pre & post & -> & Hn & Hpre).
        exists (r :: pre), post. split; [done|]. split; [done|].
        intros q [->|Hq]%elem_of_cons; eauto.
      * intros (pre & post & E & Hn & Hpre).
        destruct pre as [|r' pre]; simpl in E.
        -- injection E as -> _. congruence.
        -- injection E as -> ->. exists pre, post.
           split; [done|]. split; [done|].
           intros q Hq. apply Hpre. by right.
    + split.
      * intros [= <-]. exists [], req. split; [done|]. split; [done|].
        intros q Hq. by apply elem_of_nil in Hq.
      * intros (pre & post & E & Hn & Hpre).
        destruct pre as [|r' pre]; simpl in E.
        -- by injection E as ->.
        -- injection E as -> ->.
           destruct (Hpre r') as [v Hv]; [left|]. congruence.
Qed.

Lemma first_missing_None (body : gmap jstring JsValue) (req : list jstring) :
  first_missing body req = None <->
  forall q, q ∈ req -> is_Some (js_get body q).
Proof.
  induction req as [|r req IH]; simpl.
  - split; [|done]. intros _ q Hq. by apply elem_of_nil in Hq.
  - destruct (js_get body r) as [v|] eqn:Er.
    + rewrite IH. split.
      * intros H q [->|Hq]%elem_of_cons; eauto.
      * intros H q Hq. apply H. by right.
    + split; [discriminate|]. intros H.
      destruct (H r) as [v Hv]; [left|]. congruence.
Qed.

(** Every registered route is found under its own endpoint. *)
Lemma find_route r :
  In r routes ->
  find (fun r' => path_matches (route_endpoint r') (route_endpoint r)) routes
  = Some r.
Proof.
  intros H. vm_compute in H.
  repeat (destruct H as [<-|H]; [vm_compute; reflexivity|]).
  destruct H.
Qed.

Lemma app_post_registered (r : Route) (body : gmap jstring JsValue) :
  In r routes ->
  app child now POST (route_endpoint r) body
  = post_handler child (route_tool r) (route_command r) body.
Proof. intros H. unfold app. by rewrite find_route. Qed.

(** The routes are exactly the registry's tools, in order, each under its
    endpoint and with its command token. *)
Lemma routes_of_registry :
  map route_tool routes = GkitCommands /\
  map route_endpoint routes = map endpoint_of GkitCommands /\
  map (fun r => Some (route_command r)) routes
  = map (fun t => ToolToGkitCommandMap !! name t) GkitCommands.
Proof. vm_compute. auto. Qed.

End RestFacts.

(** ** The tool-call handler *)

Lemma command_map_keys (n : jstring) :
  n ∉ registry_names -> ToolToGkitCommandMap !! n = None.
Proof.
  intros H. unfold ToolToGkitCommandMap.
  apply not_elem_of_list_to_map_1.
  intros Hin. apply H. revert Hin. vm_compute. exact (fun x => x).
Qed.

Lemma find_tool_unknown (n : jstring) :
  n ∉ registry_names -> find_tool n = None.
Proof.
  intros H. unfold find_tool.
  destruct (find _ _) as [t|] eqn:E; [|done].
  apply find_some in E as [Hin Heq]. exfalso. apply H.
  unfold jstring_eqb in Heq. apply bool_decide_eq_true in Heq. subst n.
  apply list_elem_of_In. unfold registry_names. by apply in_map.
Qed.

Section ToolCallFacts.

Variable child : Spawn -> ProcOutcome.
Variable toLowerCase : jstring -> jstring.
Variable url_pathname : jstring -> option jstring.
Variable engine_message : EngineError -> jstring.
Variable GITHUB_TOKEN : option jstring.

Local Abbreviation handler :=
  (callTool child toLowerCase url_pathname engine_message GITHUB_TOKEN).

Lemma callTool_registry (tool : Tool) (args : gmap jstring JsValue) :
  In tool GkitCommands ->
  exists c,
    ToolToGkitCommandMap !! name tool = Some (JStr c) /\
    let sp := gkit_spawn (JStr c) (present_values (paramOrder tool) args) in
    handler (name tool) (Some args)
    = (tool_result_of (result_of (child sp)), [sp]).
Proof.
  intros Hin. destruct (registry_entry tool Hin) as (c & Hc & Hne & Hfind).
  exists c. split; [done|]. intros sp.
  unfold callTool. rewrite (js_get_own _ _ _ Hc). simpl truthy.
  rewrite bool_decide_eq_false_2 by done. simpl negb. cbv iota.
  unfold call_gkit. rewrite Hfind, marshal_args_present, executeGkit_eq.
  fold sp. unfold tool_result_of, bind, throw, ok, ret. simpl.
  destruct (code_is_zero (exit_code (child sp))); reflexivity.
Qed.

Lemma callTool_no_arguments (n : jstring) :
  handler n None
  = ({| text := Text (js "Error: Invalid arguments provided");
        isError := true |}, []).
Proof. reflexivity. Qed.

Lemma call_advanced_unknown (n : jstring) (args : gmap jstring JsValue) :
  n ∉ advancedTools ->
  call_advanced child toLowerCase url_pathname engine_message GITHUB_TOKEN
    n args
  = throw (js "Unknown tool: " ++ n).
Proof.
  intros H. unfold call_advanced, jstring_eqb.
  rewrite !bool_decide_eq_false_2; [done|..];
    intros ->; apply H; unfold advancedTools; set_solver.
Qed.

Lemma callTool_unknown (n : jstring) (args : gmap jstring JsValue) :
  n ∉ registry_names -> n ∉ advancedTools ->
  handler n (Some args)
  = ({| text :=
          Text (js "Error: " ++
                (if bool_decide (n ∈ object_prototype_names)
                 then engine_message (ReadOfUndefined (js "inputSchema"))
                 else js "Unknown tool: " ++ n));
        isError := true |}, []).
Proof.
  intros Hreg Hadv. unfold callTool, js_get.
  rewrite (command_map_keys n Hreg).
  destruct (bool_decide (n ∈ object_prototype_names)).
  - simpl truthy. cbv iota. unfold call_gkit.
    by rewrite (find_tool_unknown n Hreg).
  - by rewrite (call_advanced_unknown n args Hadv).
Qed.

End ToolCallFacts.

(** ** The shell dispatcher *)

Section ShellFacts.

Import Shell.
Local Open Scope string_scope.

Variable world : list Command -> Command -> Answer.
Variable installed : string -> bool.
Variable SLACK_TOKEN : string.
Variable script : string.

Lemma with_out_nil (st : State) : with_out st [] = st.
Proof. destruct st. unfold with_out. simpl. by rewrite app_nil_r. Qed.

Lemma echo_all_out (lines : list string) (st : State) :
  echo_all lines st = Go tt (with_out st lines).
Proof.
  revert st. induction lines as [|l lines IH]; intros st; simpl.
  - by rewrite with_out_nil.
  - unfold seq. simpl. rewrite IH. f_equal.
    unfold with_out. simpl. by rewrite <- app_assoc.
Qed.

Lemma gk_help_out (st : State) :
  gk_help script st = Go 0%N (with_out st (help_text script)).
Proof. unfold gk_help, seq. by rewrite echo_all_out. Qed.

Lemma check_deps_present (st : State) :
  deps_present installed -> check_deps installed SLACK_TOKEN st = Go 0%N st.
Proof.
  intros (Hgh & Hfzf & Hjq). unfold check_deps. rewrite Hgh, Hfzf, Hjq.
  unfold seq, pure. simpl. by destruct (is_empty SLACK_TOKEN).
Qed.

(** [check_deps] runs no external command and writes nothing on the
    standard output; when it ends the script, the status is 1. *)
Lemma check_deps_quiet (st : State) :
  match check_deps installed SLACK_TOKEN st with
  | Go status st' => status = 0%N /\ ran st' = ran st /\ out st' = out st
  | Exit status st' => status = 1%N /\ ran st' = ran st /\ out st' = out st
  end.
Proof.
  unfold check_deps, seq, pure, exit, echo_err.
  destruct (installed "gh"), (installed "fzf"), (installed "jq"),
    (is_empty SLACK_TOKEN); simpl; auto.
Qed.

Lemma unknown_command_eqb (c k : string) :
  ~ In c known_commands -> In k known_commands -> String.eqb c k = false.
Proof. intros Hc Hk. apply String.eqb_neq. intros ->. by apply Hc. Qed.

Lemma main_unknown (args : list string) (st : State) :
  deps_present installed ->
  is_empty (arg 1 args) = false ->
  ~ In (arg 1 args) known_commands ->
  main world installed SLACK_TOKEN script args st
  = Exit 1%N
      (with_out
         (with_err st ["❌ Error: Unknown command '" ++ arg 1 args ++ "'"])
         (EmptyString :: help_text script)).
Proof.
  intros Hdeps Hne Hunk. unfold main, call.
  rewrite Hne, !(unknown_command_eqb _ _ Hunk) by (simpl; tauto).
  simpl orb. cbv iota. unfold seq.
  rewrite (check_deps_present st Hdeps). unfold errexit, pure.
  change (0 =? 0)%N with true. cbv beta iota.
  unfold echo_err, echo. rewrite gk_help_out.
  unfold exit, with_out, with_err. simpl. by rewrite <- app_assoc.
Qed.

Lemma main_no_command (args : list string) (st : State) :
  deps_present installed ->
  is_empty (arg 1 args) = true ->
  main world installed SLACK_TOKEN script args st
  = Exit 0%N (with_out st (help_text script)).
Proof.
  intros Hdeps He. unfold main, call. rewrite He. unfold seq.
  rewrite (check_deps_present st Hdeps). unfold errexit, pure.
  change (0 =? 0)%N with true. cbv beta iota.
  rewrite gk_help_out. reflexivity.
Qed.

Lemma main_deps_missing (args : list string) (st : State) :
  ~ deps_present installed ->
  exists st',
    main world installed SLACK_TOKEN script args st = Exit 1%N st' /\
    ran st' = ran st /\ out st' = out st.
Proof.
  intros Hdeps. unfold main, call.
  pose proof (check_deps_quiet st) as Hq.
  assert (Hseq : forall (k : unit -> Sh N) (st1 : State),
            check_deps installed SLACK_TOKEN st = Exit 1%N st1 ->
            seq (seq (check_deps installed SLACK_TOKEN) errexit) k st
            = Exit 1%N st1).
  { intros k st1 E. unfold seq. by rewrite E. }
  destruct (check_deps installed SLACK_TOKEN st) as [status st'|status st']
    eqn:E.
  - exfalso. apply Hdeps. revert E.
    unfold check_deps, seq, pure, exit, echo_err, deps_present.
    destruct (installed "gh"), (installed "fzf"), (installed "jq"),
      (is_empty SLACK_TOKEN); simpl; try discriminate; auto.
  - destruct Hq as (-> & Hran & Hout). exists st'.
    split; [|done]. by apply Hseq.
Qed.

(** Without a token, [gk_slack] only prints its complaint and returns 1. *)
Lemma gk_slack_unconfigured (args : list string) (st : State) :
  is_empty SLACK_TOKEN = true ->
  gk_slack world SLACK_TOKEN args st
  = Go 1%N
      (with_out st
         ["❌ SLACK_TOKEN not set. export SLACK_TOKEN='xoxb-xxxx'"]).
Proof. intros H. unfold gk_slack. rewrite H. reflexivity. Qed.

End ShellFacts.

Lemma deps_present_dec (installed : string -> bool) :
  deps_present installed \/ ~ deps_present installed.
Proof.
  unfold deps_present.
  destruct (installed "gh"%string), (installed "fzf"%string),
    (installed "jq"%string);
    first [left; by repeat split | right; intros (? & ? & ?); discriminate].
Qed.

Lemma no_route_matches (path : jstring) :
  (forall t : Tool,
     In t GkitCommands -> path_matches (endpoint_of t) path = false) ->
  find (fun r => path_matches (route_endpoint r) path) routes = None.
Proof.
  intros H. destruct (find _ _) as [r|] eqn:E; [|done].
  apply find_some in E as [Hin Hm].
  destruct routes_of_registry as (_ & Hend & _).
  assert (Hr : In (route_endpoint r) (map endpoint_of GkitCommands)).
  { rewrite <- Hend. by apply in_map. }
  apply in_map_iff in Hr as (t & Ht & Hint).
  rewrite <- Ht, (H t Hint) in Hm. discriminate.
Qed.

(** ** Exit statuses of the [pr] command *)

Section ExitStatus.

Import Shell.
Local Open Scope string_scope.

Variable world : list Command -> Command -> Answer.
Variable installed : string -> bool.
Variable script : string.

Lemma ends_seq {A B} (P : N -> Prop) (Q : B -> Prop) (m : Sh A)
    (k : A -> Sh B) :
  ends P anything m -> (forall a, ends P Q (k a)) -> ends P Q (seq m k).
Proof.
  intros Hm Hk st. unfold seq. specialize (Hm st).
  destruct (m st) as [a st'|n st']; [apply Hk|exact Hm].
Qed.

Lemma ends_pure {A} (P : N -> Prop) (Q : A -> Prop) (a : A) :
  Q a -> ends P Q (pure a).
Proof. intros H st. exact H. Qed.

Lemma ends_echo (P : N -> Prop) (s : string) : ends P anything (echo s).
Proof. intros st. exact I. Qed.

Lemma ends_exec_with (P : N -> Prop) (q : bool) (c : Command) :
  ends P anything (exec_with world q c).
Proof. intros st. exact I. Qed.

Lemma ends_capture_with (P : N -> Prop) (q : bool) (c : Command) :
  ends P anything (capture_with world q c).
Proof. intros st. exact I. Qed.

Lemma ends_read (P : N -> Prop) : ends P anything read.
Proof. intros st. unfold read. by destruct (input st). Qed.

Lemma ends_errexit (status : N) : ends nonzero anything (errexit status).
Proof.
  intros st. unfold errexit. destruct (N.eqb_spec status 0); [exact I|done].
Qed.

Lemma ends_run (c : Command) : ends nonzero anything (run world c).
Proof.
  unfold run. apply ends_seq; [apply ends_exec_with|].
  intros a. apply ends_errexit.
Qed.

Lemma ends_assign (c : Command) : ends nonzero anything (assign world c).
Proof.
  unfold assign. apply ends_seq; [apply ends_capture_with|]. intros r.
  apply ends_seq; [apply ends_errexit|]. intros _. by apply ends_pure.
Qed.

(** Calling, under [set -e], a function that never returns 0 always ends
    the script, with a non-zero status. *)
Lemma ends_call_unsuccessful (f : Sh N) :
  ends nonzero nonzero f -> ends nonzero nothing (call f).
Proof.
  intros Hf st. unfold call, seq. specialize (Hf st).
  destruct (f st) as [n st'|n st']; [|exact Hf].
  unfold errexit. destruct (N.eqb_spec n 0); [done|exact Hf].
Qed.

Lemma ends_nothing {A B} (P : N -> Prop) (Q : B -> Prop) (m : Sh A)
    (k : A -> Sh B) :
  ends P nothing m -> ends P Q (seq m k).
Proof.
  intros Hm st. unfold seq. specialize (Hm st).
  destruct (m st) as [a st'|n st']; [destruct Hm|exact Hm].
Qed.

Lemma ends_wait_for_resolution (pending : list string) :
  ends nonzero anything (wait_for_resolution world pending).
Proof.
  induction pending as [|l pending IH]; simpl.
  - apply ends_seq; [apply ends_capture_with|]. intros u.
    destruct (negb _); [|by apply ends_pure].
    apply ends_seq; [apply ends_read|]. intros r.
    apply ends_seq; [apply ends_errexit|]. intros _. by apply ends_pure.
  - apply ends_seq; [apply ends_capture_with|]. intros u.
    destruct (negb _); [|by apply ends_pure].
    apply ends_seq; [apply ends_read|]. intros r.
    apply ends_seq; [apply ends_errexit|]. intros _. exact IH.
Qed.

Lemma ends_slack_unconfigured (args : list string) :
  ends nonzero nothing (call (gk_slack world EmptyString args)).
Proof.
  apply ends_call_unsuccessful. intros st.
  by rewrite (gk_slack_unconfigured world EmptyString args st).
Qed.

(** Without a Slack token [gk_pr] never returns 0: it ends the script with
    a failure status or returns 1. *)
Lemma gk_pr_unsuccessful (args : list string) :
  ends nonzero nonzero (gk_pr world EmptyString args).
Proof.
  unfold gk_pr.
  apply ends_seq; [apply ends_echo|]. intros _.
  apply ends_seq; [apply ends_echo|]. intros _.
  apply ends_seq.
  { destruct (String.eqb _ _); [|by apply ends_pure].
    apply ends_seq; [apply ends_assign|]. intros source_branch.
    apply ends_seq; [apply ends_assign|]. intros timestamp.
    apply ends_seq; [apply ends_echo|]. intros _.
    apply ends_seq; [apply ends_run|]. intros _.
    apply ends_seq; [apply ends_run|]. intros _.
    apply ends_seq; [apply ends_echo|]. intros _.
    apply ends_seq; [apply ends_exec_with|]. intros merge_exit.
    apply ends_seq; [|intros _; apply ends_seq;
                               [apply ends_echo|intros _; apply ends_run]].
    destruct (negb _); [|by apply ends_pure].
    apply ends_seq; [apply ends_echo|]. intros _.
    apply ends_seq; [apply ends_echo|]. intros _.
    apply ends_seq; [intros st; apply ends_wait_for_resolution|]. intros _.
    apply ends_seq; [apply ends_exec_with|]. intros _. apply ends_echo. }
  intros _. apply ends_seq.
  { destruct (negb _);
      (apply ends_seq; [apply ends_echo|intros _; apply ends_assign]). }
  intros pr_url. destruct (negb (is_empty pr_url)).
  - apply ends_seq; [apply ends_echo|]. intros _.
    apply ends_seq; [apply ends_assign|]. intros current_branch.
    apply ends_seq; [apply ends_assign|]. intros author.
    apply ends_seq; [apply ends_assign|]. intros pr_number.
    apply ends_seq; [apply ends_capture_with|]. intros toplevel.
    apply ends_seq; [apply ends_assign|]. intros repo_name.
    apply ends_seq; [apply ends_assign|]. intros selected_user.
    destruct (_ && _); apply ends_nothing, ends_slack_unconfigured.
  - apply ends_seq; [apply ends_echo|]. intros _. by apply ends_pure.
Qed.

Lemma pr_never_succeeds_without_token (args stdin : list string) :
  fst (run_script world installed EmptyString script ("pr" :: args) stdin)
  <> 0%N.
Proof.
  unfold run_script.
  assert (H : ends nonzero nothing
                (main world installed EmptyString script ("pr" :: args))).
  { unfold main.
    apply ends_seq.
    { unfold call. apply ends_seq; [|apply ends_errexit].
      intros st. pose proof (check_deps_quiet installed EmptyString st) as Hq.
      destruct (check_deps _ _ _) as [n st'|n st']; [exact I|].
      destruct Hq as (-> & _). done. }
    intros _. simpl. apply ends_nothing, ends_call_unsuccessful.
    apply gk_pr_unsuccessful. }
  specialize (H (initial stdin)).
  destruct (main _ _ _ _ _ _) as [n st'|n st']; [destruct H|exact H].
Qed.

End ExitStatus.

(** * The claims *)

(** The scenario of the specification: [create_branch] with only
    [branch] marshals to the one value. *)
Example marshal_branch_only :
  marshal_body (paramOrder create_branch) branch_only = [str "feature-x"] /\
  marshal_args (paramOrder create_branch) branch_only = [str "feature-x"].
Proof. split; vm_compute; reflexivity. Qed.

(** C1: for every command specification, marshaling a named-value
    mapping (in the REST adapter and in the tool-call handler alike) goes
    through the parameter list in declared order and appends the value of
    each parameter that is present, skipping an absent one entirely: no
    placeholder, no default.  Hence a mapping that holds every declared
    parameter gives a sequence as long as the parameter list, value [i]
    being that of parameter [i]; and when an earlier parameter is absent
    and a later one present, the sequence is shorter than the parameter
    list and the later value sits at an earlier position.  The sequence is
    what both adapters pass to the invoker after the command token. *)
Theorem marshal_declared_order (tool : Tool) (values : gmap jstring JsValue) :
  let order := paramOrder tool in
  let argv := present_values order values in
  (marshal_body order values = argv /\ marshal_args order values = argv) /\
  (present_values [] values = [] /\
   forall (p : jstring) (rest : list jstring),
     present_values (p :: rest) values
     = match js_get values p with
       | Some v => v :: present_values rest values
       | None => present_values rest values
       end) /\
  (forall v : JsValue,
     v ∈ argv -> exists p : jstring, p ∈ order /\ js_get values p = Some v) /\
  ((forall p : jstring, p ∈ order -> is_Some (js_get values p)) ->
   length argv = length order /\
   forall (i : nat) (p : jstring),
     order !! i = Some p -> argv !! i = js_get values p) /\
  (forall (pre : list jstring) (p : jstring) (mid : list jstring)
          (q : jstring) (post : list jstring) (v : JsValue),
     order = pre ++ p :: mid ++ q :: post ->
     js_get values p = None -> js_get values q = Some v ->
     (length argv < length order)%nat /\
     exists k : nat,
       (k < length pre + S (length mid))%nat /\ argv !! k = Some v) /\
  (forall (child : Spawn -> ProcOutcome) (command : JsValue),
     first_missing values (requiredParams tool) = None ->
     spawned (post_handler child tool command values)
     = [gkit_spawn command argv]) /\
  (forall (child : Spawn -> ProcOutcome) (toLowerCase : jstring -> jstring)
          (url_pathname : jstring -> option jstring)
          (engine_message : EngineError -> jstring)
          (GITHUB_TOKEN : option jstring),
     In tool GkitCommands ->
     exists c : jstring,
       ToolToGkitCommandMap !! name tool = Some (JStr c) /\
       spawned (callTool child toLowerCase url_pathname engine_message
                  GITHUB_TOKEN (name tool) (Some values))
       = [gkit_spawn (JStr c) argv]).
Proof.
  intros order argv. subst argv.
  split; [split; [apply marshal_body_present|apply marshal_args_present]|].
  split; [split; [reflexivity|intros; apply present_values_cons]|].
  split; [intros v; apply present_values_elem|].
  split.
  { intros Hall. split.
    - pose proof (present_values_full order values Hall) as E.
      apply (f_equal length) in E. by rewrite !length_map in E.
    - intros i p. by apply present_values_lookup_full. }
  split.
  { intros pre p mid q post v E Hp Hq. rewrite E.
    destruct (present_values_shift pre p mid q post values v Hp Hq)
      as (Hlen & Hk & Hv).
    split; [exact Hlen|]. eauto. }
  split.
  { intros child command Hok.
    by rewrite (post_handler_invokes child tool command values Hok). }
  intros child lc up em tok Hin.
  destruct (callTool_registry child lc up em tok tool values Hin)
    as (c & Hc & Hcall).
  exists c. split; [done|]. by rewrite Hcall.
Qed.

(** [create_branch] with all three values, and with [from] left out. *)
Lemma marshal_declared_order_witness :
  length (present_values (paramOrder create_branch) branch_from_remote) = 3%nat /\
  (length (present_values (paramOrder create_branch) branch_and_remote) < 3)%nat /\
  (exists k : nat,
     (k < 2)%nat /\
     present_values (paramOrder create_branch) branch_and_remote !! k
     = Some (str "upstream")) /\
  spawned (post_handler silent_child create_branch (str "nb")
             branch_and_remote)
  = [gkit_spawn (str "nb") [str "feature-x"; str "upstream"]] /\
  spawned (callTool silent_child id no_url no_message None
             (js "create_branch") (Some branch_and_remote))
  = [gkit_spawn (str "nb") [str "feature-x"; str "upstream"]].
Proof.
  split.
  { destruct (marshal_declared_order create_branch branch_from_remote)
      as (_ & _ & _ & Hfull & _).
    apply Hfull. intros p Hp. apply list_elem_of_In in Hp.
    vm_compute in Hp.
    destruct Hp as [<-|[<-|[<-|[]]]]; eexists; vm_compute; reflexivity. }
  destruct (marshal_declared_order create_branch branch_and_remote)
    as (_ & _ & _ & _ & Hshift & Hpost & Hcall).
  destruct (Hshift [js "branch"] (js "from") [] (js "remote") []
              (str "upstream"))
    as (Hlen & k & Hk & Hv);
    [vm_compute; reflexivity..|].
  split; [exact Hlen|]. split; [exists k; split; [exact Hk|exact Hv]|].
  split.
  - rewrite Hpost; [|vm_compute; reflexivity].
    vm_compute. reflexivity.
  - destruct (Hcall silent_child id no_url no_message None)
      as (c & Hc & Hsp); [vm_compute; tauto|].
    change (name create_branch) with (js "create_branch") in Hsp.
    rewrite Hsp. vm_compute in Hc. injection Hc as <-.
    vm_compute. reflexivity.
Defined.

(** C2, as stated, fails: the REST adapter lets a required parameter
    through when its entry is the empty string, and the tool-call handler
    checks no required parameter at all; both run the subprocess. *)
Lemma required_check_counterexample :
  js "pr_url" ∈ requiredParams approve_pr /\
  app silent_child (js "now") POST (js "/api/approve-pr")
    {[ js "pr_url" := JStr [] ]}
  = ({| http_status := 200;
        http_body :=
          ResultBody {| success := true; output := []; error := [] |} |},
     [gkit_spawn (str "ap") [JStr []]]) /\
  callTool silent_child id no_url no_message None (js "approve_pr") (Some ∅)
  = ({| text := Text []; isError := false |}, [gkit_spawn (str "ap") []]).
Proof.
  split; [apply list_elem_of_In; vm_compute; auto|].
  split; vm_compute; reflexivity.
Qed.

(** C2, amended: in the REST adapter, for every command specification, if
    some required parameter is absent from the request body (reads as
    [undefined]), the request is rejected before marshaling with status 400
    and an error body naming the first such parameter in the order of the
    [required] list; no argument sequence is built and no subprocess is
    spawned.  This holds on every generated route, and [POST
    /api/approve-pr] with body [{}] answers 400 naming [pr_url] with no
    subprocess. *)
Theorem rest_rejects_missing_required (child : Spawn -> ProcOutcome)
    (now : jstring) :
  (forall (tool : Tool) (command : JsValue) (body : gmap jstring JsValue),
     (exists p : jstring, p ∈ requiredParams tool /\ js_get body p = None) ->
     exists (param : jstring) (pre post : list jstring),
       requiredParams tool = pre ++ param :: post /\
       js_get body param = None /\
       (forall q : jstring, q ∈ pre -> is_Some (js_get body q)) /\
       post_handler child tool command body
       = ({| http_status := 400;
             http_body :=
               ErrorBody false
                 (js "Parameter '" ++ param ++ js "' is required") |},
          [])) /\
  (forall (r : Route) (body : gmap jstring JsValue),
     In r routes ->
     (exists p : jstring,
        p ∈ requiredParams (route_tool r) /\ js_get body p = None) ->
     http_status (value (app child now POST (route_endpoint r) body)) = 400%nat /\
     spawned (app child now POST (route_endpoint r) body) = []) /\
  app child now POST (js "/api/approve-pr") ∅
  = ({| http_status := 400;
        http_body := ErrorBody false (js "Parameter 'pr_url' is required") |},
     []).
Proof.
  assert (Hgen : forall (tool : Tool) (command : JsValue)
                        (body : gmap jstring JsValue),
    (exists p : jstring, p ∈ requiredParams tool /\ js_get body p = None) ->
    exists (param : jstring) (pre post : list jstring),
      requiredParams tool = pre ++ param :: post /\
      js_get body param = None /\
      (forall q : jstring, q ∈ pre -> is_Some (js_get body q)) /\
      post_handler child tool command body
      = ({| http_status := 400;
            http_body :=
              ErrorBody false
                (js "Parameter '" ++ param ++ js "' is required") |},
         [])).
  { intros tool command body (p & Hp & Hnone).
    destruct (first_missing body (requiredParams tool)) as [param|] eqn:E.
    - pose proof E as E'. apply first_missing_Some in E'.
      destruct E' as (pre & post & Hreq & Hn & Hpre).
      exists param, pre, post. repeat split; try done.
      by apply post_handler_rejects.
    - rewrite first_missing_None in E. destruct (E p Hp) as [v Hv].
      congruence. }
  split; [exact Hgen|]. split.
  - intros r body Hin Hmiss.
    rewrite (app_post_registered child now r body Hin).
    destruct (Hgen (route_tool r) (route_command r) body Hmiss)
      as (param & pre & post & _ & _ & _ & ->).
    split; reflexivity.
  - vm_compute. reflexivity.
Qed.

(** [approve_pr] with an empty body. *)
Lemma rest_rejects_missing_required_witness :
  exists param : jstring,
    js_get (∅ : gmap jstring JsValue) param = None /\
    post_handler silent_child approve_pr (str "ap") ∅
    = ({| http_status := 400;
          http_body :=
            ErrorBody false (js "Parameter '" ++ param ++ js "' is required") |},
       []).
Proof.
  destruct (rest_rejects_missing_required silent_child (js "now"))
    as (Hgen & _ & _).
  destruct (Hgen approve_pr (str "ap") ∅) as (param & pre & post & _ & Hn & _ & E).
  - exists (js "pr_url"). split; [apply list_elem_of_In; vm_compute; auto|].
    vm_compute. reflexivity.
  - exists param. split; [exact Hn|exact E].
Defined.

(** C3, as stated, fails: [commit] is not in the registry, yet the
    tool-call handler serves it, runs [git commit] and answers without an
    error. *)
Lemma outside_registry_still_served :
  (js "commit" ∉ registry_names) /\
  (let m := callTool silent_child id no_url no_message None (js "commit")
              (Some {[ js "diff" := str "fix typo" ]}) in
   isError (value m) = false /\
   spawned m
   = [ {| sp_file := js "git";
          sp_args := [str "commit"; str "-m";
                      str "fix: update based on diff"] |} ]).
Proof.
  split.
  - intros H. apply list_elem_of_In in H. vm_compute in H.
    repeat (destruct H as [H|H]; [discriminate H|]). exact H.
  - vm_compute. split; reflexivity.
Qed.

(** C3, amended: a name the adapter itself does not know fails without
    spawning any process.  The shell dispatcher, given a non-empty
    subcommand outside its [case] table, exits with status 1 having run no
    external command and, when the dependency check passes, prints the
    error line and the usage text.  The tool-call handler, given a name
    that is neither a registry tool nor one of its own advanced tools
    ([review_code], [commit], [rv_pr]), returns an error response and spawns
    nothing; when an argument object was supplied and the name is not a
    member inherited from [Object.prototype], the text is "Error: Unknown
    tool: " followed by the name.  The REST adapter registers exactly the
    registry's endpoints, and a POST whose path matches none of them gets
    the router's 404 and spawns nothing. *)
Theorem unknown_name_fails_without_spawning :
  (forall (world : list Shell.Command -> Shell.Command -> Shell.Answer)
          (installed : string -> bool) (SLACK_TOKEN script c : string)
          (rest stdin : list string),
     Shell.is_empty c = false -> ~ In c known_commands ->
     let r := Shell.run_script world installed SLACK_TOKEN script (c :: rest)
                stdin in
     fst r = 1 /\ Shell.ran (snd r) = [] /\
     (deps_present installed ->
      Shell.out (snd r) = EmptyString :: Shell.help_text script /\
      Shell.err (snd r)
      = [("❌ Error: Unknown command '" ++ c ++ "'")%string])) /\
  (forall (child : Spawn -> ProcOutcome) (toLowerCase : jstring -> jstring)
          (url_pathname : jstring -> option jstring)
          (engine_message : EngineError -> jstring)
          (GITHUB_TOKEN : option jstring) (n : jstring)
          (args : option (gmap jstring JsValue)),
     n ∉ registry_names -> n ∉ advancedTools ->
     let m := callTool child toLowerCase url_pathname engine_message
                GITHUB_TOKEN n args in
     isError (value m) = true /\ spawned m = [] /\
     (is_Some args -> n ∉ object_prototype_names ->
      text (value m) = Text (js "Error: Unknown tool: " ++ n))) /\
  (map route_endpoint routes = map endpoint_of GkitCommands /\
   forall (child : Spawn -> ProcOutcome) (now path : jstring)
          (body : gmap jstring JsValue),
     (forall t : Tool,
        In t GkitCommands -> path_matches (endpoint_of t) path = false) ->
     app child now POST path body
     = ({| http_status := 404; http_body := NoBody |}, [])).
Proof.
  split; [|split].
  - intros world installed SLACK_TOKEN script c rest stdin Hc Hunk r.
    subst r. unfold Shell.run_script.
    destruct (deps_present_dec installed) as [Hdeps|Hdeps].
    + rewrite (main_unknown world installed SLACK_TOKEN script (c :: rest)
                 (Shell.initial stdin) Hdeps Hc Hunk).
      simpl. auto.
    + destruct (main_deps_missing world installed SLACK_TOKEN script
                  (c :: rest) (Shell.initial stdin) Hdeps)
        as (st' & -> & Hran & Hout).
      simpl. split; [done|]. split; [done|]. intros H. by destruct Hdeps.
  - intros child lc up em tok n args Hreg Hadv m. subst m.
    destruct args as [a|].
    + rewrite (callTool_unknown child lc up em tok n a Hreg Hadv).
      simpl. split; [done|]. split; [done|]. intros _ Hproto.
      by rewrite bool_decide_eq_false_2.
    + rewrite callTool_no_arguments. simpl. split; [done|]. split; [done|].
      intros [? ?]. discriminate.
  - split; [apply routes_of_registry|].
    intros child now path body H. unfold app.
    by rewrite (no_route_matches path H).
Qed.

(** An unknown subcommand, an unknown tool and an unknown path. *)
Lemma unknown_name_fails_without_spawning_witness :
  fst (Shell.run_script pr_world all_installed EmptyString "gkit.sh"
         ["frobnicate"%string] []) = 1 /\
  callTool silent_child id no_url no_message None (js "delete_repo") (Some ∅)
  = ({| text := Text (js "Error: Unknown tool: delete_repo");
        isError := true |}, []) /\
  app silent_child (js "now") POST (js "/api/delete-repo") ∅
  = ({| http_status := 404; http_body := NoBody |}, []).
Proof.
  destruct unknown_name_fails_without_spawning as (Hsh & Hmcp & _ & Hhttp).
  split; [|split].
  - apply Hsh; [reflexivity|]. simpl. intros H.
    repeat (destruct H as [H|H]; [discriminate H|]). exact H.
  - destruct (Hmcp silent_child id no_url no_message None (js "delete_repo")
                (Some ∅)) as (Herr & Hsp & Htext).
    + intros H. apply list_elem_of_In in H. vm_compute in H.
      repeat (destruct H as [H|H]; [discriminate H|]). exact H.
    + intros H. apply list_elem_of_In in H. vm_compute in H.
      repeat (destruct H as [H|H]; [discriminate H|]). exact H.
    + specialize (Htext ltac:(eauto)).
      destruct (callTool _ _ _ _ _ _ _) as [[t e] sp].
      simpl in Herr, Hsp, Htext. subst e sp. rewrite Htext; [reflexivity|].
      intros H. apply list_elem_of_In in H. vm_compute in H.
      repeat (destruct H as [H|H]; [discriminate H|]). exact H.
  - apply Hhttp. intros t Ht. vm_compute in Ht.
    repeat (destruct Ht as [<-|Ht]; [vm_compute; reflexivity|]).
    destruct Ht.
Defined.

(** C4, as stated, fails in its last part: the result of the shared
    invoker has no exit code.  Two children that differ only in their
    non-zero exit code give the same result, so no reading of the result
    recovers the code. *)
Lemma result_drops_exit_code :
  (value (executeGkit (child_exiting 1 "out" "err") (str "pr") [])
   = value (executeGkit (child_exiting 2 "out" "err") (str "pr") []) /\
   exit_code (child_exiting 1 "out" "err" (gkit_spawn (str "pr") []))
   <> exit_code (child_exiting 2 "out" "err" (gkit_spawn (str "pr") []))) /\
  ~ (exists code_of : InvocationResult -> option N,
       forall (child : Spawn -> ProcOutcome) (command : JsValue)
              (args : list JsValue),
         code_of (value (executeGkit child command args))
         = exit_code (child (gkit_spawn command args))).
Proof.
  split; [split; [vm_compute; reflexivity|discriminate]|].
  intros (code_of & H).
  pose proof (H (child_exiting 1 "out" "err") (str "pr") []) as H1.
  pose proof (H (child_exiting 2 "out" "err") (str "pr") []) as H2.
  simpl in H1, H2. rewrite H1 in H2. discriminate.
Qed.

(** C4, amended: every invocation through the shared invoker spawns one
    child and returns a result whose success flag is true if and only if
    the exit code is 0, whose output is the whole captured standard output
    with the surrounding white space trimmed and whose error is the trimmed
    captured standard error; a child exiting 0 with "PR created:
    https://github.com/o/r/pull/5" on its standard output and nothing on
    its standard error yields success, that output and an empty error.
    The result carries no exit code: it depends on the code only through
    the success flag. *)
Theorem invocation_result (child : Spawn -> ProcOutcome) (command : JsValue)
    (args : list JsValue) :
  let sp := gkit_spawn command args in
  let p := child sp in
  let m := executeGkit child command args in
  spawned m = [sp] /\
  (success (value m) = true <-> exit_code p = Some 0) /\
  output (value m) = trim (concat (stdout_data p)) /\
  error (value m) = trim (concat (stderr_data p)) /\
  (forall s : jstring,
     exists pre post : jstring,
       s = pre ++ trim s ++ post /\ all_space pre /\ all_space post /\
       (forall c, head (trim s) = Some c -> is_js_space c = false) /\
       (forall c, last (trim s) = Some c -> is_js_space c = false)) /\
  value (executeGkit
           (child_exiting 0 "PR created: https://github.com/o/r/pull/5"
              EmptyString)
           command args)
  = {| success := true;
       output := js "PR created: https://github.com/o/r/pull/5";
       error := [] |} /\
  (forall child' : Spawn -> ProcOutcome,
     stdout_data (child' sp) = stdout_data p ->
     stderr_data (child' sp) = stderr_data p ->
     (exit_code (child' sp) = Some 0 <-> exit_code p = Some 0) ->
     value (executeGkit child' command args) = value m).
Proof.
  intros sp p m. subst m. rewrite executeGkit_eq. fold sp. fold p.
  split; [reflexivity|]. split.
  { simpl. unfold code_is_zero. destruct (exit_code p) as [c|].
    - rewrite N.eqb_eq. split; [by intros ->|by intros [= ->]].
    - split; discriminate. }
  split; [reflexivity|]. split; [reflexivity|].
  split; [exact trim_spec|]. split; [vm_compute; reflexivity|].
  intros child' Hout Herr Hcode. rewrite executeGkit_eq. fold sp. simpl.
  unfold result_of. rewrite Hout, Herr. f_equal.
  unfold code_is_zero.
  destruct (exit_code (child' sp)) as [c'|], (exit_code p) as [c|].
  - destruct (N.eqb_spec c' 0) as [->|Hc'], (N.eqb_spec c 0) as [->|Hc];
      try done.
    + destruct Hcode as [Hcode _]. specialize (Hcode eq_refl). congruence.
    + destruct Hcode as [_ Hcode]. specialize (Hcode eq_refl). congruence.
  - destruct (N.eqb_spec c' 0) as [->|Hc']; [|done].
    destruct Hcode as [Hcode _]. by specialize (Hcode eq_refl).
  - destruct (N.eqb_spec c 0) as [->|Hc]; [|done].
    destruct Hcode as [_ Hcode]. by specialize (Hcode eq_refl).
  - done.
Qed.

(** Two children that differ in their failure code only. *)
Lemma invocation_result_witness :
  value (executeGkit (child_exiting 7 " padded " " x ") (str "pr") [])
  = value (executeGkit (child_exiting 1 " padded " " x ") (str "pr") []) /\
  output (value (executeGkit (child_exiting 1 " padded " " x ") (str "pr") []))
  = js "padded".
Proof.
  destruct (invocation_result (child_exiting 1 " padded " " x ") (str "pr") [])
    as (_ & _ & Hout & _ & _ & _ & Hsame).
  split.
  - apply (Hsame (child_exiting 7 " padded " " x ")).
    + reflexivity.
    + reflexivity.
    + split; discriminate.
  - rewrite Hout. vm_compute. reflexivity.
Defined.

(** C5: for every registered command and every request body that passes
    the required-parameter check, the REST adapter answers with status 200
    and the invocation result as body, whatever the success flag of the
    result; a child that exits 1 with "not a git repository" on its
    standard error still yields a 200 response whose body has
    [success: false] and that error text. *)
Theorem rest_answers_200 (child : Spawn -> ProcOutcome) (now : jstring) :
  (forall (r : Route) (body : gmap jstring JsValue),
     In r routes ->
     (forall q : jstring,
        q ∈ requiredParams (route_tool r) -> is_Some (js_get body q)) ->
     let sp :=
       gkit_spawn (route_command r)
         (present_values (paramOrder (route_tool r)) body) in
     app child now POST (route_endpoint r) body
     = ({| http_status := 200;
           http_body := ResultBody (result_of (child sp)) |}, [sp])) /\
  app (child_exiting 1 EmptyString "not a git repository") now POST
    (js "/api/create-pr") ∅
  = ({| http_status := 200;
        http_body :=
          ResultBody {| success := false; output := [];
                        error := js "not a git repository" |} |},
     [gkit_spawn (str "pr") []]).
Proof.
  split.
  - intros r body Hin Hreq sp.
    rewrite (app_post_registered child now r body Hin).
    apply post_handler_invokes. by apply first_missing_None.
  - vm_compute. reflexivity.
Qed.

(** [approve_pr] with its URL, the child failing. *)
Lemma rest_answers_200_witness :
  app (child_exiting 3 EmptyString "boom") (js "now") POST (js "/api/approve-pr")
    {[ js "pr_url" := str "https://github.com/o/r/pull/5" ]}
  = ({| http_status := 200;
        http_body :=
          ResultBody {| success := false; output := []; error := js "boom" |} |},
     [gkit_spawn (str "ap") [str "https://github.com/o/r/pull/5"]]).
Proof.
  destruct (rest_answers_200 (child_exiting 3 EmptyString "boom") (js "now"))
    as (Hgen & _).
  assert (Hin : exists r, In r routes /\ route_endpoint r = js "/api/approve-pr"
                          /\ route_tool r = approve_pr
                          /\ route_command r = str "ap").
  { exists {| route_endpoint := js "/api/approve-pr";
              route_tool := approve_pr; route_command := str "ap" |}.
    split; [vm_compute; tauto|]. repeat split. }
  destruct Hin as (r & Hin & He & Ht & Hc).
  specialize (Hgen r {[ js "pr_url" := str "https://github.com/o/r/pull/5" ]} Hin).
  rewrite He, Ht, Hc in Hgen. rewrite Hgen.
  - vm_compute. reflexivity.
  - intros q Hq. apply list_elem_of_In in Hq. vm_compute in Hq.
    destruct Hq as [<-|[]]. eexists. vm_compute. reflexivity.
Defined.

(** C6: in the tool-call handler, for every tool the registry maps to a
    gkit.sh command, a child that exits with a non-zero code (or is ended
    by a signal) makes the response an error response whose text is
    "Error: " followed by the captured, trimmed standard-error text, or by
    the captured output when that error text is empty; a child that exits
    0 makes the response a non-error result whose text is the captured
    output. *)
Theorem tool_call_surfaces_exit (child : Spawn -> ProcOutcome)
    (toLowerCase : jstring -> jstring)
    (url_pathname : jstring -> option jstring)
    (engine_message : EngineError -> jstring)
    (GITHUB_TOKEN : option jstring)
    (tool : Tool) (args : gmap jstring JsValue) :
  In tool GkitCommands ->
  exists c : jstring,
    ToolToGkitCommandMap !! name tool = Some (JStr c) /\
    let sp := gkit_spawn (JStr c) (present_values (paramOrder tool) args) in
    let p := child sp in
    let stdout := trim (concat (stdout_data p)) in
    let stderr := trim (concat (stderr_data p)) in
    let m := callTool child toLowerCase url_pathname engine_message
               GITHUB_TOKEN (name tool) (Some args) in
    spawned m = [sp] /\
    (exit_code p = Some 0 ->
     value m = {| text := Text stdout; isError := false |}) /\
    (exit_code p <> Some 0 ->
     isError (value m) = true /\
     (stderr <> [] -> text (value m) = Text (js "Error: " ++ stderr)) /\
     (stderr = [] -> text (value m) = Text (js "Error: " ++ stdout))).
Proof.
  intros Hin.
  destruct (callTool_registry child toLowerCase url_pathname engine_message
              GITHUB_TOKEN tool args Hin) as (c & Hc & Hcall).
  exists c. split; [exact Hc|].
  intros sp p stdout stderr m. subst m. fold sp in Hcall. rewrite Hcall.
  fold p. split; [reflexivity|].
  unfold tool_result_of, result_of, value. simpl.
  fold stdout. fold stderr. split.
  - intros ->. reflexivity.
  - intros Hcode.
    assert (Hz : code_is_zero (exit_code p) = false).
    { unfold code_is_zero. destruct (exit_code p) as [k|]; [|done].
      apply N.eqb_neq. intros ->. by apply Hcode. }
    rewrite Hz. simpl. split; [reflexivity|]. split.
    + intros Hne. by rewrite bool_decide_eq_false_2.
    + intros He. by rewrite bool_decide_eq_true_2.
Qed.

(** [create_pr] failing with and without text on the standard error. *)
Lemma tool_call_surfaces_exit_witness :
  callTool (child_exiting 1 EmptyString "not a git repository") id no_url
    no_message None (js "create_pr") (Some ∅)
  = ({| text := Text (js "Error: not a git repository"); isError := true |},
     [gkit_spawn (str "pr") []]) /\
  callTool (child_exiting 2 "partial output" EmptyString) id no_url
    no_message None (js "create_pr") (Some ∅)
  = ({| text := Text (js "Error: partial output"); isError := true |},
     [gkit_spawn (str "pr") []]).
Proof.
  assert (Hin : In create_pr GkitCommands) by (vm_compute; tauto).
  split.
  - destruct (tool_call_surfaces_exit
                (child_exiting 1 EmptyString "not a git repository") id no_url
                no_message None create_pr ∅ Hin)
      as (c & Hc & Hsp & _ & Hfail).
    destruct Hfail as (Herr & Htext & _); [discriminate|].
    specialize (Htext ltac:(discriminate)).
    apply injective_projections.
    + change (name create_pr) with (js "create_pr") in Herr, Htext.
      destruct (value _) as [t e] in Herr, Htext |- *.
      simpl in Herr, Htext. subst t e. reflexivity.
    + change (name create_pr) with (js "create_pr") in Hsp.
      unfold spawned in Hsp. rewrite Hsp. vm_compute in Hc.
      injection Hc as <-. reflexivity.
  - destruct (tool_call_surfaces_exit
                (child_exiting 2 "partial output" EmptyString) id no_url
                no_message None create_pr ∅ Hin)
      as (c & Hc & Hsp & _ & Hfail).
    destruct Hfail as (Herr & _ & Htext); [discriminate|].
    specialize (Htext eq_refl).
    apply injective_projections.
    + change (name create_pr) with (js "create_pr") in Herr, Htext.
      destruct (value _) as [t e] in Herr, Htext |- *.
      simpl in Herr, Htext. subst t e. reflexivity.
    + change (name create_pr) with (js "create_pr") in Hsp.
      unfold spawned in Hsp. rewrite Hsp. vm_compute in Hc.
      injection Hc as <-. reflexivity.
Defined.

(** C7, as stated, fails: a number supplied for [pr_url] is not rejected;
    it is marshaled as it is and the command is invoked. *)
Lemma non_string_argument_accepted :
  is_string (JNum 5) = false /\
  callTool silent_child id no_url no_message None (js "approve_pr")
    (Some {[ js "pr_url" := JNum 5 ]})
  = ({| text := Text []; isError := false |},
     [gkit_spawn (str "ap") [JNum 5]]).
Proof. split; vm_compute; reflexivity. Qed.

(** C7, amended: before marshaling and invoking, the tool-call handler
    validates only that an argument mapping was supplied: a request without
    one is answered "Error: Invalid arguments provided" and spawns nothing.
    The types of the values are not checked: for a registry-mapped tool
    every value present under a declared parameter, string or not, is
    marshaled unchanged and the command is invoked. *)
Theorem tool_call_validates_mapping_only (child : Spawn -> ProcOutcome)
    (toLowerCase : jstring -> jstring)
    (url_pathname : jstring -> option jstring)
    (engine_message : EngineError -> jstring)
    (GITHUB_TOKEN : option jstring) :
  (forall n : jstring,
     callTool child toLowerCase url_pathname engine_message GITHUB_TOKEN
       n None
     = ({| text := Text (js "Error: Invalid arguments provided");
           isError := true |}, [])) /\
  (forall (tool : Tool) (args : gmap jstring JsValue),
     In tool GkitCommands ->
     exists c : jstring,
       ToolToGkitCommandMap !! name tool = Some (JStr c) /\
       spawned (callTool child toLowerCase url_pathname engine_message
                  GITHUB_TOKEN (name tool) (Some args))
       = [gkit_spawn (JStr c) (present_values (paramOrder tool) args)] /\
       forall (p : jstring) (v : JsValue),
         p ∈ paramOrder tool -> js_get args p = Some v ->
         v ∈ present_values (paramOrder tool) args).
Proof.
  split; [reflexivity|].
  intros tool args Hin.
  destruct (callTool_registry child toLowerCase url_pathname engine_message
              GITHUB_TOKEN tool args Hin) as (c & Hc & Hcall).
  exists c. split; [exact Hc|]. split; [by rewrite Hcall|].
  intros p v Hp Hv. unfold present_values. apply list_elem_of_omap. eauto.
Qed.

(** [approve_pr] with an array as URL. *)
Lemma tool_call_validates_mapping_only_witness :
  spawned (callTool silent_child id no_url no_message None (js "approve_pr")
             (Some {[ js "pr_url" := JArr [JBool true] ]}))
  = [gkit_spawn (str "ap") [JArr [JBool true]]].
Proof.
  destruct (tool_call_validates_mapping_only silent_child id no_url
              no_message None) as (_ & Hreg).
  destruct (Hreg approve_pr {[ js "pr_url" := JArr [JBool true] ]})
    as (c & Hc & Hsp & _); [vm_compute; tauto|].
  change (name approve_pr) with (js "approve_pr") in Hsp.
  rewrite Hsp. vm_compute in Hc. injection Hc as <-.
  vm_compute. reflexivity.
Defined.

(** C8 (the code departs from the claim): with [SLACK_TOKEN] unset, [gkit.sh
    pr main "Add feature"] creates the pull request, prints the success
    line, then [gk_slack] returns 1 and, under [set -e], the script ends
    with status 1 instead of reporting success.  When the token is set and
    the Slack API answers with an error, the same run ends with status 0
    and only prints the error.  In fact no run of the [pr] command ends
    with status 0 while the token is unset, whatever the environment
    answers. *)
Theorem pr_fails_when_slack_unconfigured :
  Shell.run_script pr_world all_installed EmptyString "gkit.sh"
    ["pr"; "main"; "Add feature"]%string []
  = (1,
     {| Shell.out :=
          [ "gk_pr main Add feature";
            "🔥 Start to create pull request";
            "🔥 Create pull request with title: Add feature";
            "✅ Pull request created: https://github.com/o/r/pull/5 🎉";
            "❌ SLACK_TOKEN not set. export SLACK_TOKEN='xoxb-xxxx'" ]%string;
        Shell.err := repeat EmptyString 7;
        Shell.ran :=
          [ Shell.cmd ["gh"; "pr"; "create"; "--base"; "main"; "--title";
                       "Add feature"];
            Shell.cmd ["git"; "branch"; "--show-current"];
            Shell.cmd ["git"; "config"; "user.name"];
            Shell.pipe [ ["echo"; "https://github.com/o/r/pull/5"];
                         ["grep"; "-o"; "[0-9]" ++ Shell.bs ++ "+$"] ];
            Shell.cmd ["git"; "rev-parse"; "--show-toplevel"];
            Shell.cmd ["basename"; "/home/alice/r"];
            Shell.pipe [ "printf" :: ("%s" ++ Shell.bs ++ "n")
                           :: Shell.slack_users;
                         [ "fzf"; "--prompt=Select user to mention: ";
                           "--height=7"; "--reverse"; "--border" ] ] ]%string;
        Shell.input := [] |}) /\
  (let r := Shell.run_script pr_world all_installed "xoxb-1" "gkit.sh"
              ["pr"; "main"; "Add feature"]%string [] in
   fst r = 0 /\
   last (Shell.out (snd r)) = Some "❌ Error: channel_not_found"%string) /\
  (forall (world : list Shell.Command -> Shell.Command -> Shell.Answer)
          (installed : string -> bool) (script : string)
          (args stdin : list string),
     fst (Shell.run_script world installed EmptyString script
            ("pr"%string :: args) stdin) <> 0).
Proof.
  split; [vm_compute; reflexivity|].
  split; [split; vm_compute; reflexivity|].
  exact pr_never_succeeds_without_token.
Qed.

(** C9: for every diff string, [reviewCode] returns a rating that is an
    integer between 1 and 10, and the rating is 10 exactly when the list of
    issues is empty.  (The rating is 10 minus the number of issues, of
    which there are at most five.) *)
Theorem reviewCode_rating (toLowerCase : jstring -> jstring) (diff : jstring) :
  let r := reviewCode toLowerCase diff in
  (1 <= rating r <= 10)%Z /\ (rating r = 10%Z <-> issues r = []) /\
  rating r = (10 - Z.of_nat (length (issues r)))%Z /\
  (length (issues r) <= 5)%nat.
Proof.
  intros r. subst r. unfold reviewCode. cbv zeta. simpl rating. simpl issues.
  set (l := push_if _ _ _).
  assert (Hl : (length l <= 5)%nat).
  { subst l. unfold push_if.
    repeat match goal with
           | |- context [if ?c then _ else _] => destruct c
           end; simpl; lia. }
  split; [lia|]. split; [|split; [lia|exact Hl]].
  split.
  - intros H. destruct l as [|x l]; [done|]. simpl length in H. lia.
  - intros ->. reflexivity.
Qed.

(** C10: invoked with no command argument at all, once the dependency
    check passes, the shell dispatcher prints the help text and exits with
    status 0 without running anything; an unknown command, by contrast,
    exits with status 1. *)
Theorem no_command_prints_help
    (world : list Shell.Command -> Shell.Command -> Shell.Answer)
    (installed : string -> bool) (SLACK_TOKEN script : string)
    (stdin : list string) :
  deps_present installed ->
  Shell.run_script world installed SLACK_TOKEN script [] stdin
  = (0, {| Shell.out := Shell.help_text script; Shell.err := [];
           Shell.ran := []; Shell.input := stdin |}) /\
  (forall (c : string) (rest : list string),
     Shell.is_empty c = false -> ~ In c known_commands ->
     fst (Shell.run_script world installed SLACK_TOKEN script (c :: rest)
            stdin) = 1).
Proof.
  intros Hdeps. split.
  - unfold Shell.run_script.
    by rewrite (main_no_command world installed SLACK_TOKEN script []
                  (Shell.initial stdin) Hdeps).
  - intros c rest Hc Hunk. unfold Shell.run_script.
    by rewrite (main_unknown world installed SLACK_TOKEN script (c :: rest)
                  (Shell.initial stdin) Hdeps Hc Hunk).
Qed.

(** No argument, and an unknown subcommand. *)
Lemma no_command_prints_help_witness :
  Shell.run_script pr_world all_installed EmptyString "gkit.sh" [] []
  = (0, {| Shell.out := Shell.help_text "gkit.sh"; Shell.err := [];
           Shell.ran := []; Shell.input := [] |}) /\
  fst (Shell.run_script pr_world all_installed EmptyString "gkit.sh"
         ["frobnicate"%string] []) = 1.
Proof.
  destruct (no_command_prints_help pr_world all_installed EmptyString
              "gkit.sh" []) as (Hhelp & Hunk).
  - repeat split.
  - split; [exact Hhelp|]. apply Hunk; [reflexivity|].
    simpl. intros H.
    repeat (destruct H as [H|H]; [discriminate H|]). exact H.
Defined.

(** * Further properties *)

(** ** Marshaling and the registry *)

Lemma present_values_agree (order : list jstring)
    (v1 v2 : gmap jstring JsValue) :
  (forall p : jstring, p ∈ order -> js_get v1 p = js_get v2 p) ->
  present_values order v1 = present_values order v2.
Proof.
  intros H. unfold present_values. induction order as [|p order IH]; [done|].
  simpl. rewrite (H p) by left. destruct (js_get v2 p).
  - f_equal. apply IH. intros q Hq. apply H. by right.
  - apply IH. intros q Hq. apply H. by right.
Qed.

Lemma js_get_insert_ne (o : gmap jstring JsValue) (k p : jstring)
    (v : JsValue) :
  k <> p -> js_get (<[k := v]> o) p = js_get o p.
Proof. intros H. unfold js_get. by rewrite lookup_insert_ne. Qed.

(** X1: the marshalers read the declared parameters only.  Two mappings
    that agree on every declared parameter give the same argument
    sequence in both adapters; in particular an entry under a name the
    tool does not declare never reaches the command line. *)
Theorem marshal_reads_declared_only (tool : Tool)
    (v1 v2 : gmap jstring JsValue) :
  (forall p : jstring, p ∈ paramOrder tool -> js_get v1 p = js_get v2 p) ->
  marshal_body (paramOrder tool) v1 = marshal_body (paramOrder tool) v2 /\
  marshal_args (paramOrder tool) v1 = marshal_args (paramOrder tool) v2 /\
  (forall (k : jstring) (v : JsValue),
     k ∉ paramOrder tool ->
     marshal_body (paramOrder tool) (<[k := v]> v1)
     = marshal_body (paramOrder tool) v2 /\
     marshal_args (paramOrder tool) (<[k := v]> v1)
     = marshal_args (paramOrder tool) v2).
Proof.
  intros H. rewrite !marshal_body_present, !marshal_args_present.
  rewrite (present_values_agree _ v1 v2 H).
  split; [done|]. split; [done|].
  intros k v Hk. rewrite !marshal_body_present, !marshal_args_present.
  assert (E : present_values (paramOrder tool) (<[k := v]> v1)
              = present_values (paramOrder tool) v2).
  { apply present_values_agree. intros p Hp.
    rewrite js_get_insert_ne; [by apply H|]. intros ->. by apply Hk. }
  by rewrite E.
Qed.

(** An undeclared [verbose] entry changes nothing for [create_branch]. *)
Lemma marshal_reads_declared_only_witness :
  marshal_body (paramOrder create_branch)
    (<[ js "verbose" := JBool true ]> branch_only)
  = [str "feature-x"].
Proof.
  destruct (marshal_reads_declared_only create_branch branch_only branch_only)
    as (_ & _ & Hins); [done|].
  destruct (Hins (js "verbose") (JBool true)) as (Hb & _).
  - intros H. apply list_elem_of_In in H. vm_compute in H.
    repeat (destruct H as [H|H]; [discriminate H|]). exact H.
  - rewrite Hb. vm_compute. reflexivity.
Defined.

(** X2: the number of arguments is the number of declared parameters that
    are present, so it never exceeds the parameter count and is 0 exactly
    when no declared parameter is present. *)
Theorem marshal_argument_count (tool : Tool) (values : gmap jstring JsValue) :
  let argv := marshal_body (paramOrder tool) values in
  length argv
  = length (filter (fun p => is_Some (js_get values p)) (paramOrder tool)) /\
  (length argv <= length (paramOrder tool))%nat /\
  (argv = [] <->
   forall p : jstring, p ∈ paramOrder tool -> js_get values p = None).
Proof.
  intros argv. subst argv. rewrite marshal_body_present.
  generalize (paramOrder tool) as order. intros order.
  split; [|split; [apply present_values_length|]].
  - induction order as [|p order IH]; [done|].
    rewrite present_values_cons, filter_cons.
    destruct (js_get values p) as [v|] eqn:E.
    + destruct (decide (is_Some (Some v))) as [_|n]; [|by destruct n; eauto].
      simpl. by rewrite IH.
    + destruct (decide (is_Some (@None JsValue))) as [[? ?]|_]; [done|].
      exact IH.
  - induction order as [|p order IH].
    + split; [|done]. intros _ p Hp. by apply elem_of_nil in Hp.
    + rewrite present_values_cons.
      destruct (js_get values p) as [v|] eqn:E.
      * split; [discriminate|]. intros H.
        specialize (H p ltac:(left)). congruence.
      * rewrite IH. split.
        -- intros H q [->|Hq]%elem_of_cons; [done|by apply H].
        -- intros H q Hq. apply H. by right.
Qed.

Lemma registry_tool_declared (tool : Tool) :
  In tool GkitCommands ->
  (exists c : string,
     In c known_commands /\
     ToolToGkitCommandMap !! name tool = Some (JStr (js c))) /\
  (exists rest : list jstring,
     paramOrder tool = requiredParams tool ++ rest) /\
  NoDup (paramOrder tool).
Proof.
  assert (Hnd : forall l : list jstring, bool_decide (NoDup l) = true ->
                NoDup l) by (intros l; apply bool_decide_eq_true_1).
  revert tool.
  intros tool H. unfold GkitCommands in H. simpl in H.
  repeat (destruct H as [<-|H];
          [split; [|split];
           [ first [ exists "pr"%string; split; [simpl; tauto|vm_compute; reflexivity]
                   | exists "prs"%string; split; [simpl; tauto|vm_compute; reflexivity]
                   | exists "nb"%string; split; [simpl; tauto|vm_compute; reflexivity]
                   | exists "nbs"%string; split; [simpl; tauto|vm_compute; reflexivity]
                   | exists "nbh"%string; split; [simpl; tauto|vm_compute; reflexivity]
                   | exists "ap"%string; split; [simpl; tauto|vm_compute; reflexivity]
                   | exists "mg"%string; split; [simpl; tauto|vm_compute; reflexivity]
                   | exists "wf"%string; split; [simpl; tauto|vm_compute; reflexivity]
                   | exists "sl"%string; split; [simpl; tauto|vm_compute; reflexivity] ]
           | eexists; vm_compute; reflexivity
           | apply Hnd; vm_compute; reflexivity ]|]).
  destruct H.
Qed.

(** X3: the static tables agree with each other.  Tool names are pairwise
    distinct; the command map has an entry for exactly the tools of the
    registry; its tokens are pairwise distinct and each is a subcommand
    the [case] of gkit.sh knows; in every tool the required parameters are
    declared, come first in declaration order and no parameter is declared
    twice; and the generated endpoints are pairwise distinct. *)
Theorem registry_tables_agree :
  NoDup registry_names /\
  (forall n : jstring,
     is_Some (ToolToGkitCommandMap !! n) <-> n ∈ registry_names) /\
  NoDup (map route_command routes) /\
  (forall tool : Tool,
     In tool GkitCommands ->
     (exists c : string,
        In c known_commands /\
        ToolToGkitCommandMap !! name tool = Some (JStr (js c))) /\
     (exists rest : list jstring,
        paramOrder tool = requiredParams tool ++ rest) /\
     NoDup (paramOrder tool)) /\
  NoDup (map route_endpoint routes).
Proof.
  assert (Hnd : forall l : list jstring, bool_decide (NoDup l) = true ->
                NoDup l) by (intros l; apply bool_decide_eq_true_1).
  split; [apply Hnd; vm_compute; reflexivity|].
  split.
  { intros n. split.
    - intros Hn. destruct (decide (n ∈ registry_names)) as [|Hno]; [done|].
      rewrite (command_map_keys n Hno) in Hn. by destruct Hn.
    - intros Hn. apply list_elem_of_In in Hn. unfold registry_names in Hn.
      apply in_map_iff in Hn as (t & <- & Ht).
      destruct (registry_entry t Ht) as (c & -> & _). eauto. }
  split.
  { change (NoDup (map route_command routes)) with
      (NoDup (map JStr (map js ["pr"; "prs"; "nb"; "nbs"; "nbh"; "ap"; "mg";
                                "wf"; "sl"]%string))).
    apply NoDup_fmap_2; [by intros ? ? [= ->]|].
    apply Hnd. vm_compute. reflexivity. }
  split; [exact registry_tool_declared|].
  apply Hnd. vm_compute. reflexivity.
Qed.




(** The path as the router compares it: letter case folded, one trailing
    slash dropped. *)
Lemma path_matches_cases (endpoint path : jstring) :
  path_matches endpoint path = true ->
  map ascii_lower path = map ascii_lower endpoint \/
  map ascii_lower path = map ascii_lower endpoint ++ [47].
Proof.
  unfold path_matches. intros H. apply orb_true_iff in H as [H|H];
    apply bool_decide_eq_true in H; auto.
Qed.

Lemma route_by_endpoint (r r' : Route) :
  In r routes -> In r' routes ->
  map ascii_lower (route_endpoint r) = map ascii_lower (route_endpoint r') \/
  map ascii_lower (route_endpoint r)
  = map ascii_lower (route_endpoint r') ++ [47] ->
  r = r'.
Proof.
  intros H H'. vm_compute in H, H'.
  repeat (destruct H as [<-|H]);
    repeat (destruct H' as [<-|H']);
    try (by destruct H); try (by destruct H');
    intros [E|E]; try reflexivity; vm_compute in E; discriminate E.
Qed.

(** X5: route matching is unambiguous.  Whatever the letter case of the
    path and with or without one trailing slash, a POST whose path matches
    the endpoint of a generated route is served by the handler of that
    route's tool and command, and no other route matches it. *)
Theorem route_matching_unambiguous (child : Spawn -> ProcOutcome)
    (now : jstring) (r : Route) (path : jstring)
    (body : gmap jstring JsValue) :
  In r routes ->
  path_matches (route_endpoint r) path = true ->
  app child now POST path body
  = post_handler child (route_tool r) (route_command r) body /\
  forall r' : Route,
    In r' routes -> path_matches (route_endpoint r') path = true -> r' = r.
Proof.
  intros Hin Hm.
  assert (Huniq : forall r' : Route,
            In r' routes -> path_matches (route_endpoint r') path = true ->
            r' = r).
  { intros r' Hin' Hm'.
    apply path_matches_cases in Hm as [E|E], Hm' as [E'|E'];
      rewrite E in E'.
    - apply route_by_endpoint; [done..|]. left. by symmetry.
    - symmetry. apply route_by_endpoint; [done..|]. by right.
    - apply route_by_endpoint; [done..|]. right. by symmetry.
    - apply route_by_endpoint; [done..|]. left.
      apply app_inv_tail in E'. by symmetry. }
  split; [|exact Huniq]. unfold app.
  destruct (find _ routes) as [r'|] eqn:E.
  - apply find_some in E as [Hin' Hm']. by rewrite (Huniq r' Hin' Hm').
  - apply find_none with (x := r) in E; [|done]. simpl in E. congruence.
Qed.

(** An upper-case path with a trailing slash reaches [approve_pr]. *)
Lemma route_matching_unambiguous_witness :
  app silent_child (js "now") POST (js "/API/Approve-PR/") ∅
  = ({| http_status := 400;
        http_body := ErrorBody false (js "Parameter 'pr_url' is required") |},
     []).
Proof.
  pose (r := {| route_endpoint := js "/api/approve-pr";
                route_tool := approve_pr; route_command := str "ap" |}).
  destruct (route_matching_unambiguous silent_child (js "now") r
              (js "/API/Approve-PR/") ∅) as (E & _).
  - vm_compute. tauto.
  - vm_compute. reflexivity.
  - rewrite E. vm_compute. reflexivity.
Defined.



(** ** The tool-call handler and the advanced tools *)

Section AdvancedFacts.

Variable child : Spawn -> ProcOutcome.
Variable toLowerCase : jstring -> jstring.
Variable url_pathname : jstring -> option jstring.
Variable engine_message : EngineError -> jstring.
Variable GITHUB_TOKEN : option jstring.

Lemma as_string_receiver_spawns (method : string) (v : option JsValue) :
  spawned (as_string_receiver engine_message method v) = [].
Proof. by destruct v as [[]|]. Qed.

Lemma sanitizePrUrl_spawns (input : JsValue) :
  spawned (sanitizePrUrl engine_message input) = [].
Proof.
  unfold sanitizePrUrl, bindE, bind.
  destruct (as_string_receiver _ _ _) as [[u|e] t] eqn:E.
  - pose proof (as_string_receiver_spawns "trim"
                  (Some (if truthy input then input else JStr []))) as H.
    rewrite E in H. simpl in H. subst t. reflexivity.
  - pose proof (as_string_receiver_spawns "trim"
                  (Some (if truthy input then input else JStr []))) as H.
    rewrite E in H. simpl in H. subst t. reflexivity.
Qed.

Lemma trim_fixed (s : jstring) :
  (forall c, head s = Some c -> is_js_space c = false) ->
  (forall c, last s = Some c -> is_js_space c = false) ->
  trim s = s.
Proof.
  intros Hh Hl. unfold trim.
  assert (E : forall t : jstring,
             (forall c, head t = Some c -> is_js_space c = false) ->
             trimStart t = t).
  { intros [|c t] H; [done|]. simpl. by rewrite (H c). }
  rewrite (E s Hh). unfold trimEnd. rewrite E, reverse_involutive; [done|].
  intros c. rewrite head_reverse. apply Hl.
Qed.

Lemma strip_backticks_start_split (s : jstring) :
  exists pre, s = pre ++ strip_backticks_start s /\
              Forall (fun c => c = 96) pre.
Proof.
  induction s as [|c s (pre & E & Hpre)].
  - exists []. split; [done|constructor].
  - destruct (N.eq_dec c 96) as [->|Hc].
    + exists (96 :: pre). simpl. split; [by f_equal|by constructor].
    + exists []. split; [|constructor].
      simpl. destruct c as [|p]; [done|].
      by do 7 (destruct p as [p|p|]; try done).
Qed.

Lemma strip_backticks_start_head (s : jstring) (c : jschar) :
  head (strip_backticks_start s) = Some c -> c <> 96.
Proof.
  induction s as [|d s IH]; [discriminate|].
  destruct (N.eq_dec d 96) as [->|Hd]; [exact IH|].
  assert (E : strip_backticks_start (d :: s) = d :: s).
  { simpl. destruct d as [|p]; [done|].
    by do 7 (destruct p as [p|p|]; try done). }
  rewrite E. simpl. by intros [= <-].
Qed.

Lemma strip_backticks_start_fixed (s : jstring) :
  (forall c, head s = Some c -> c <> 96) -> strip_backticks_start s = s.
Proof.
  destruct s as [|d s]; [done|]. intros H.
  specialize (H d eq_refl). simpl. destruct d as [|p]; [done|].
  by do 7 (destruct p as [p|p|]; try done).
Qed.

Lemma strip_backticks_ends (s : jstring) :
  (forall c, head (strip_backticks s) = Some c -> c <> 96) /\
  (forall c, last (strip_backticks s) = Some c -> c <> 96).
Proof.
  unfold strip_backticks. split.
  - intros c Hc.
    destruct (strip_backticks_start_split
                (reverse (strip_backticks_start s))) as (pre & E & _).
    apply (f_equal reverse) in E.
    rewrite reverse_involutive, reverse_app in E.
    apply (strip_backticks_start_head s). rewrite E.
    destruct (reverse (strip_backticks_start _)); [discriminate|exact Hc].
  - intros c. rewrite last_reverse. apply strip_backticks_start_head.
Qed.

Lemma strip_backticks_fixed (s : jstring) :
  (forall c, head s = Some c -> c <> 96) ->
  (forall c, last s = Some c -> c <> 96) ->
  strip_backticks s = s.
Proof.
  intros Hh Hl. unfold strip_backticks.
  rewrite (strip_backticks_start_fixed s Hh).
  rewrite strip_backticks_start_fixed, reverse_involutive; [done|].
  intros c. rewrite head_reverse. apply Hl.
Qed.

Lemma startsWith_one (s : jstring) (c : jschar) :
  startsWith s [c] = true <-> head s = Some c.
Proof.
  destruct s as [|d [|e s]]; cbn [startsWith head]; [split; discriminate|..];
    rewrite andb_true_r, N.eqb_eq; (split; [by intros ->|by intros [= ->]]).
Qed.

Lemma startsWith_one_false (s : jstring) (c : jschar) :
  (forall d, head s = Some d -> d <> c) -> startsWith s [c] = false.
Proof.
  intros H. destruct (startsWith s [c]) eqn:E; [|done].
  apply startsWith_one in E. by destruct (H c E).
Qed.

End AdvancedFacts.

Lemma trimStart_spaces (pre t : jstring) :
  all_space pre -> trimStart (pre ++ t) = trimStart t.
Proof.
  induction 1 as [|c pre Hc _ IH]; [done|]. simpl. by rewrite Hc.
Qed.

Lemma trimStart_only_spaces (pre : jstring) :
  all_space pre -> trimStart pre = [].
Proof.
  intros H. rewrite <- (app_nil_r pre). by rewrite trimStart_spaces.
Qed.

(** Trimming removes exactly the white space around a core that has none
    at its ends. *)
Lemma trim_strips (pre u post : jstring) :
  all_space pre -> all_space post ->
  (forall c, head u = Some c -> is_js_space c = false) ->
  (forall c, last u = Some c -> is_js_space c = false) ->
  trim (pre ++ u ++ post) = u.
Proof.
  intros Hpre Hpost Hh Hl. unfold trim. rewrite trimStart_spaces by done.
  destruct u as [|c u].
  - simpl. rewrite trimStart_only_spaces by done. reflexivity.
  - assert (E : trimStart ((c :: u) ++ post) = (c :: u) ++ post).
    { simpl. by rewrite (Hh c). }
    rewrite E. unfold trimEnd. rewrite reverse_app.
    rewrite trimStart_spaces by (by apply Forall_reverse).
    assert (E' : trimStart (reverse (c :: u)) = reverse (c :: u)).
    { destruct (reverse (c :: u)) as [|d l] eqn:Er; [done|].
      simpl. rewrite (Hl d); [done|].
      rewrite <- head_reverse, Er. reflexivity. }
    by rewrite E', reverse_involutive.
Qed.

Lemma sanitizePrUrl_string (engine_message : EngineError -> jstring)
    (s : jstring) :
  sanitizePrUrl engine_message (JStr s)
  = ok (strip_backticks
          (let u := trim s in
           let u := if startsWith u (js "@") then drop 1 u else u in
           if startsWith u (js "<") && endsWith u (js ">")
           then take (length u - 2) (drop 1 u) else u)).
Proof. destruct s; reflexivity. Qed.

Lemma sanitize_plain (engine_message : EngineError -> jstring) (u : jstring) :
  plain_url u -> sanitizePrUrl engine_message (JStr u) = ok u.
Proof.
  intros (Hh & Hl). rewrite sanitizePrUrl_string. cbv zeta.
  rewrite trim_fixed by (intros c Hc; first [by apply Hh|by apply Hl]).
  assert (E1 : startsWith u (js "@") = false)
    by (apply (startsWith_one_false u 64); intros d Hd; by apply Hh).
  assert (E2 : startsWith u (js "<") = false)
    by (apply (startsWith_one_false u 60); intros d Hd; by apply Hh).
  rewrite E1, E2. simpl andb. cbv iota.
  by rewrite strip_backticks_fixed
    by (intros c Hc; first [by apply Hh|by apply Hl]).
Qed.

(** X7: [sanitizePrUrl] spawns nothing; a falsy input gives the empty
    string and a truthy value that is not a string makes it throw; on a
    string the result never begins or ends with a backtick; a URL with
    nothing to remove is returned unchanged, and so is its core when it
    comes wrapped in white space, prefixed by [@], enclosed in [<] and [>],
    or enclosed in backticks. *)
Theorem sanitizePrUrl_cleans (engine_message : EngineError -> jstring) :
  (forall input : JsValue,
     spawned (sanitizePrUrl engine_message input) = []) /\
  (forall input : JsValue,
     truthy input = false -> sanitizePrUrl engine_message input = ok []) /\
  (forall input : JsValue,
     truthy input = true -> is_string input = false ->
     sanitizePrUrl engine_message input
     = throw (engine_message (NotAFunction (js "trim")))) /\
  (forall s : jstring,
     exists u : jstring,
       sanitizePrUrl engine_message (JStr s) = ok u /\
       head u <> Some 96 /\ last u <> Some 96) /\
  (forall u : jstring,
     plain_url u ->
     sanitizePrUrl engine_message (JStr u) = ok u /\
     (forall pre post : jstring,
        all_space pre -> all_space post ->
        sanitizePrUrl engine_message (JStr (pre ++ u ++ post)) = ok u) /\
     sanitizePrUrl engine_message (JStr (js "@" ++ u)) = ok u /\
     sanitizePrUrl engine_message (JStr (js "<" ++ u ++ js ">")) = ok u /\
     sanitizePrUrl engine_message (JStr ([96] ++ u ++ [96])) = ok u).
Proof.
  split; [apply sanitizePrUrl_spawns|].
  split.
  { intros input H. unfold sanitizePrUrl. rewrite H. reflexivity. }
  split.
  { intros input Ht Hs. unfold sanitizePrUrl. rewrite Ht.
    destruct input; try discriminate; reflexivity. }
  split.
  { intros s. rewrite sanitizePrUrl_string. eexists. split; [reflexivity|].
    destruct (strip_backticks_ends
                (let u := trim s in
                 let u := if startsWith u (js "@") then drop 1 u else u in
                 if startsWith u (js "<") && endsWith u (js ">")
                 then take (length u - 2) (drop 1 u) else u)) as (Hh & Hl).
    split; intros H; [by apply (Hh 96)|by apply (Hl 96)]. }
  intros u Hu. pose proof Hu as (Hh & Hl).
  assert (Hsp : forall c, head u = Some c -> is_js_space c = false)
    by (intros c Hc; by apply Hh).
  assert (Hsl : forall c, last u = Some c -> is_js_space c = false)
    by (intros c Hc; by apply Hl).
  assert (E1 : startsWith u (js "@") = false)
    by (apply (startsWith_one_false u 64); intros d Hd; by apply Hh).
  assert (E2 : startsWith u (js "<") = false)
    by (apply (startsWith_one_false u 60); intros d Hd; by apply Hh).
  assert (Eb : strip_backticks u = u)
    by (apply strip_backticks_fixed; intros c Hc;
        first [by apply Hh|by apply Hl]).
  split; [by apply sanitize_plain|].
  split.
  { intros pre post Hpre Hpost. rewrite sanitizePrUrl_string. cbv zeta.
    rewrite trim_strips by done. rewrite E1, E2. simpl andb. cbv iota.
    by rewrite Eb. }
  split.
  { rewrite sanitizePrUrl_string. cbv zeta.
    rewrite trim_fixed.
    - assert (E : startsWith (js "@" ++ u) (js "@") = true)
        by (by apply (startsWith_one (js "@" ++ u) 64)).
      rewrite E. change (drop 1 (js "@" ++ u)) with u.
      rewrite E2. simpl andb. cbv iota. by rewrite Eb.
    - by intros c [= <-].
    - intros c Hc. destruct u as [|d u]; [by injection Hc as <-|].
      apply Hsl. exact Hc. }
  split.
  { rewrite sanitizePrUrl_string. cbv zeta.
    rewrite trim_fixed.
    - assert (E : startsWith (js "<" ++ u ++ js ">") (js "@") = false)
        by (apply (startsWith_one_false _ 64); by intros d [= <-]).
      assert (E' : startsWith (js "<" ++ u ++ js ">") (js "<") = true)
        by (by apply (startsWith_one _ 60)).
      assert (E'' : endsWith (js "<" ++ u ++ js ">") (js ">") = true).
      { unfold endsWith. apply (startsWith_one _ 62).
        rewrite head_reverse. change (js "<" ++ u ++ js ">")
          with (60 :: (u ++ [62])).
        rewrite last_cons. by rewrite last_snoc. }
      rewrite E, E', E''. simpl andb. cbv iota.
      change (drop 1 (js "<" ++ u ++ js ">")) with (u ++ js ">").
      replace (length (js "<" ++ u ++ js ">") - 2)%nat with (length u)
        by (simpl; rewrite length_app; simpl; lia).
      by rewrite take_app_length, Eb.
    - by intros c [= <-].
    - intros c. change (js "<" ++ u ++ js ">") with (60 :: (u ++ [62])).
      rewrite last_cons, last_snoc. by intros [= <-]. }
  rewrite sanitizePrUrl_string. cbv zeta.
  rewrite trim_fixed.
  - assert (E : startsWith ([96] ++ u ++ [96]) (js "@") = false)
      by (apply (startsWith_one_false _ 64); by intros d [= <-]).
    assert (E' : startsWith ([96] ++ u ++ [96]) (js "<") = false)
      by (apply (startsWith_one_false _ 60); by intros d [= <-]).
    rewrite E, E'. simpl andb. cbv iota. unfold strip_backticks.
    change (strip_backticks_start ([96] ++ u ++ [96]))
      with (strip_backticks_start (u ++ [96])).
    destruct u as [|c u].
    + reflexivity.
    + rewrite (strip_backticks_start_fixed ((c :: u) ++ [96]))
        by (simpl; intros d [= <-]; by apply Hh).
      rewrite reverse_app. change (reverse [96] ++ reverse (c :: u))
        with (96 :: reverse (c :: u)).
      change (strip_backticks_start (96 :: reverse (c :: u)))
        with (strip_backticks_start (reverse (c :: u))).
      rewrite strip_backticks_start_fixed, reverse_involutive; [done|].
      intros d. rewrite head_reverse. intros Hd. by apply Hl.
  - by intros c [= <-].
  - intros c. change ([96] ++ u ++ [96]) with (96 :: (u ++ [96])).
    rewrite last_cons, last_snoc. by intros [= <-].
Qed.

(** A pull-request URL pasted as [<https://github.com/o/r/pull/5>]. *)
Lemma sanitizePrUrl_cleans_witness :
  sanitizePrUrl no_message
    (JStr (js "<" ++ js "https://github.com/o/r/pull/5" ++ js ">"))
  = ok (js "https://github.com/o/r/pull/5") /\
  sanitizePrUrl no_message (JNum 7)
  = throw (no_message (NotAFunction (js "trim"))).
Proof.
  destruct (sanitizePrUrl_cleans no_message) as (_ & _ & Hthrow & _ & Hplain).
  split.
  - apply (Hplain (js "https://github.com/o/r/pull/5")).
    split; intros c [= <-]; repeat split; discriminate.
  - apply Hthrow; reflexivity.
Defined.

Lemma trim_idempotent (s : jstring) : trim (trim s) = trim s.
Proof.
  destruct (trim_spec s) as (_ & _ & _ & _ & _ & Hh & Hl).
  by apply trim_fixed.
Qed.

Lemma executeCommand_eq (child : Spawn -> ProcOutcome) (command : jstring)
    (args : list jstring) :
  executeCommand child command args
  = (let p := child {| sp_file := command; sp_args := map JStr args |} in
     {| cr_stdout := trim (concat (stdout_data p));
        cr_stderr := trim (concat (stderr_data p));
        cr_exitCode := match exit_code p with
                       | Some c => c
                       | None => 0
                       end |},
     [ {| sp_file := command; sp_args := map JStr args |} ]).
Proof. reflexivity. Qed.

Lemma fetchPrDiff_cases (child : Spawn -> ProcOutcome)
    (url_pathname : jstring -> option jstring)
    (engine_message : EngineError -> jstring)
    (GITHUB_TOKEN : option jstring)
    (prUrl : JsValue) (token : option JsValue) :
  let m := fetchPrDiff child url_pathname engine_message GITHUB_TOKEN
             prUrl token in
  (forall msg : jstring,
     value m = Thrown msg ->
     exists cause : jstring, msg = js "fetchPrDiff error: " ++ cause) /\
  (spawned m = [] \/
   exists (cleaned pathname owner repo number : jstring)
          (rest : list jstring) (args : list JsValue),
     sanitizePrUrl engine_message prUrl = ok cleaned /\
     url_pathname cleaned = Some pathname /\
     filter (fun x => x <> []) (split 47 pathname)
     = owner :: repo :: js "pull" :: number :: rest /\
     spawned m = [ {| sp_file := js "curl"; sp_args := args |} ] /\
     head args = Some (JStr (js "-sSL")) /\
     last args
     = Some (JStr (js "https://api.github.com/repos/" ++ owner ++ js "/" ++
                   repo ++ js "/pulls/" ++ number))) /\
  (forall diff : jstring,
     value m = Normal diff ->
     exists sp : Spawn,
       spawned m = [sp] /\ sp_file sp = js "curl" /\
       (exit_code (child sp) = Some 0 \/ exit_code (child sp) = None) /\
       diff = trim (concat (stdout_data (child sp))) /\
       diff <> [] /\ startsWith diff (js "{") = false).
Proof.
  intros m. subst m. unfold fetchPrDiff, bindE, bind.
  pose proof (sanitizePrUrl_spawns engine_message prUrl) as Hs.
  destruct (sanitizePrUrl engine_message prUrl) as [[cleaned|e] t];
    cbn [spawned snd] in Hs; subst t.
  2:{ eff. split; [intros msg [= <-]; eauto|]. split; [auto|discriminate]. }
  destruct (url_pathname cleaned) as [pathname|] eqn:Eu; eff.
  2:{ split; [intros msg [= <-]; eauto|]. split; [auto|discriminate]. }
  destruct (filter _ _) as [|owner [|repo [|third [|number rest]]]] eqn:Ef;
    eff.
  1-4: split; [intros msg [= <-]; eauto|]; (split; [auto|discriminate]).
  unfold jstring_eqb. destruct (bool_decide_reflect (third = js "pull"))
    as [->|Ht]; eff.
  2:{ split; [intros msg [= <-]; eauto|]. split; [auto|discriminate]. }
  set (authToken := if opt_truthy token then token
                    else option_map JStr GITHUB_TOKEN).
  set (api := js "https://api.github.com/repos/" ++ owner ++ js "/" ++
              repo ++ js "/pulls/" ++ number).
  assert (Hrun : forall headers : list jstring,
    let r := executeCommand child (js "curl")
               ([js "-sSL"] ++ headers ++ [api]) in
    let sp := {| sp_file := js "curl";
                 sp_args := map JStr ([js "-sSL"] ++ headers ++ [api]) |} in
    r = (fst r, [sp]) /\
    cr_exitCode (fst r) = match exit_code (child sp) with
                          | Some c => c
                          | None => 0
                          end /\
    cr_stdout (fst r) = trim (concat (stdout_data (child sp))) /\
    head (sp_args sp) = Some (JStr (js "-sSL")) /\
    last (sp_args sp) = Some (JStr api)).
  { intros headers r sp. subst r. rewrite executeCommand_eq. cbv zeta.
    fold sp. split; [reflexivity|]. split; [reflexivity|].
    split; [reflexivity|]. split; [reflexivity|].
    subst sp. cbn [sp_args]. rewrite app_assoc, map_app.
    change (map JStr [api]) with [JStr api]. apply last_snoc. }
  assert (Hcase : forall headers : list jstring,
    let m := (let '(a1, t0) := executeCommand child (js "curl")
                                 ([js "-sSL"] ++ headers ++ [api]) in
              let '(b, t2) :=
                if (cr_exitCode a1 =? 0) &&
                   negb (bool_decide (cr_stdout a1 = [])) &&
                   negb (startsWith (trim (cr_stdout a1)) (js "{"))
                then @ok jstring (cr_stdout a1)
                else throw (js "GitHub diff fetch failed for " ++ cleaned ++
                            js ". Check token and access, or the URL.") in
              (b, t0 ++ t2)) in
    exists sp : Spawn,
      snd m = [sp] /\ sp_file sp = js "curl" /\
      head (sp_args sp) = Some (JStr (js "-sSL")) /\
      last (sp_args sp) = Some (JStr api) /\
      match fst m with
      | Normal diff =>
          (exit_code (child sp) = Some 0 \/ exit_code (child sp) = None) /\
          diff = trim (concat (stdout_data (child sp))) /\
          diff <> [] /\ startsWith diff (js "{") = false
      | Thrown _ => True
      end).
  { intros headers. destruct (Hrun headers) as (Er & Hcode & Hout & Hh & Hl).
    cbv zeta in *. rewrite Er. cbv zeta. rewrite Hcode, Hout.
    set (sp := {| sp_file := js "curl";
                  sp_args := map JStr ([js "-sSL"] ++ headers ++ [api]) |})
      in *.
    exists sp. destruct (_ && _) eqn:Eok; eff.
    - split; [reflexivity|]. split; [reflexivity|]. split; [exact Hh|].
      split; [exact Hl|].
      apply andb_true_iff in Eok as [Eok Hb].
      apply andb_true_iff in Eok as [Hc Hne].
      split; [|split; [done|split]].
      + destruct (exit_code (child sp)) as [k|]; [|auto].
        apply N.eqb_eq in Hc. left. by f_equal.
      + apply negb_true_iff, bool_decide_eq_false in Hne. exact Hne.
      + apply negb_true_iff in Hb. by rewrite trim_idempotent in Hb.
    - split; [reflexivity|]. split; [reflexivity|]. split; [exact Hh|].
      split; [exact Hl|]. exact I. }
  assert (Hgo : forall headers : list jstring,
    let m := (let '(a1, t0) := executeCommand child (js "curl")
                                 ([js "-sSL"] ++ headers ++ [api]) in
              let '(b, t2) :=
                if (cr_exitCode a1 =? 0) &&
                   negb (bool_decide (cr_stdout a1 = [])) &&
                   negb (startsWith (trim (cr_stdout a1)) (js "{"))
                then @ok jstring (cr_stdout a1)
                else throw (js "GitHub diff fetch failed for " ++ cleaned ++
                            js ". Check token and access, or the URL.") in
              (b, t0 ++ t2)) in
    forall G : Exc jstring -> Prop,
      (forall (c : Completion jstring) (sp : Spawn),
         sp_file sp = js "curl" ->
         head (sp_args sp) = Some (JStr (js "-sSL")) ->
         last (sp_args sp) = Some (JStr api) ->
         match c with
         | Normal diff =>
             (exit_code (child sp) = Some 0 \/ exit_code (child sp) = None) /\
             diff = trim (concat (stdout_data (child sp))) /\
             diff <> [] /\ startsWith diff (js "{") = false
         | Thrown _ => True
         end -> G (c, [sp])) ->
      G m).
  { intros headers m0 G HG. destruct (Hcase headers)
      as (sp & Hsp & Hf & Hh & Hl & Hm). fold m0 in Hsp, Hm.
    destruct m0 as [c t]. cbn [fst snd] in Hsp, Hm. subst t. by apply HG. }
  clear Hcase Hrun.
  destruct (opt_truthy authToken) eqn:Ea.
  - pose proof (as_string_receiver_spawns engine_message "replace" authToken)
      as Hr.
    destruct (as_string_receiver engine_message "replace" authToken)
      as [[tk|e] t]; cbn [spawned snd] in Hr; subst t; eff.
    + apply Hgo. intros c sp Hf Hh Hl Hc. eff.
      destruct c as [diff|e]; eff.
      * split; [discriminate|]. split.
        { right. destruct sp as [f a]. cbn [sp_file sp_args] in *. subst f.
          by exists cleaned, pathname, owner, repo, number, rest, a. }
        intros d [= <-]. eauto.
      * split; [intros msg [= <-]; eauto|]. split; [|discriminate].
        right. destruct sp as [f a]. cbn [sp_file sp_args] in *. subst f.
        by exists cleaned, pathname, owner, repo, number, rest, a.
    + split; [intros msg [= <-]; eauto|]. split; [auto|discriminate].
  - eff. apply Hgo. intros c sp Hf Hh Hl Hc. eff.
    destruct c as [diff|e]; eff.
    + split; [discriminate|]. split.
      { right. destruct sp as [f a]. cbn [sp_file sp_args] in *. subst f.
        by exists cleaned, pathname, owner, repo, number, rest, a. }
      intros d [= <-]. eauto.
    + split; [intros msg [= <-]; eauto|]. split; [|discriminate].
      right. destruct sp as [f a]. cbn [sp_file sp_args] in *. subst f.
      by exists cleaned, pathname, owner, repo, number, rest, a.
Qed.



Section ToolCallShape.

Variable child : Spawn -> ProcOutcome.
Variable toLowerCase : jstring -> jstring.
Variable url_pathname : jstring -> option jstring.
Variable engine_message : EngineError -> jstring.
Variable GITHUB_TOKEN : option jstring.

Local Abbreviation advanced :=
  (call_advanced child toLowerCase url_pathname engine_message GITHUB_TOKEN).
Local Abbreviation handle :=
  (callTool child toLowerCase url_pathname engine_message GITHUB_TOKEN).


(** Outside the registry's names the command map has nothing of its own,
    and the advanced tools are not members of [Object.prototype]. *)
Lemma advanced_not_mapped (n : jstring) :
  n ∈ advancedTools -> js_get ToolToGkitCommandMap n = None.
Proof.
  intros H. apply list_elem_of_In in H. unfold advancedTools in H.
  simpl in H. destruct H as [<-|[<-|[<-|[]]]]; vm_compute; reflexivity.
Qed.

Lemma callTool_advanced (n : jstring) (args : gmap jstring JsValue) :
  n ∈ advancedTools ->
  handle n (Some args)
  = (answer_of (value (advanced n args)), spawned (advanced n args)).
Proof.
  intros H. unfold callTool. rewrite (advanced_not_mapped n H).
  unfold bind. destruct (call_advanced _ _ _ _ _ _ _) as [[r|e] t];
    eff; by rewrite app_nil_r.
Qed.

End ToolCallShape.

(** X9: the [rv_pr] tool.  With a non-empty string under [diff] it reviews
    that text and spawns nothing, whatever [pr_url] and [token] hold; with
    a truthy [diff] that is not a string it answers an error and spawns
    nothing; with neither a truthy [diff] nor a truthy [pr_url] it answers
    the error asking for one of them; otherwise it reviews what
    [fetchPrDiff] returns for [pr_url] and [token], or answers with the
    error [fetchPrDiff] threw, having spawned what [fetchPrDiff] spawned. *)
Theorem rv_pr_behaviour (child : Spawn -> ProcOutcome)
    (toLowerCase : jstring -> jstring)
    (url_pathname : jstring -> option jstring)
    (engine_message : EngineError -> jstring)
    (GITHUB_TOKEN : option jstring) (args : gmap jstring JsValue) :
  let m := callTool child toLowerCase url_pathname engine_message
             GITHUB_TOKEN (js "rv_pr") (Some args) in
  (forall d : jstring,
     js_get args (js "diff") = Some (JStr d) -> d <> [] ->
     m = ({| text := Text (reviewPullRequest d); isError := false |}, [])) /\
  (forall v : JsValue,
     js_get args (js "diff") = Some v -> truthy v = true ->
     is_string v = false ->
     m = ({| text :=
               Text (js "Error: " ++
                     engine_message (NotAFunction (js "split")));
             isError := true |}, [])) /\
  (opt_truthy (js_get args (js "diff")) = false ->
   opt_truthy (js_get args (js "pr_url")) = false ->
   m = ({| text :=
             Text (js "Error: Provide either " ++ [34] ++ js "diff" ++ [34] ++
                   js " or " ++ [34] ++ js "pr_url" ++ [34]);
           isError := true |}, [])) /\
  (forall pr_url : JsValue,
     opt_truthy (js_get args (js "diff")) = false ->
     js_get args (js "pr_url") = Some pr_url -> truthy pr_url = true ->
     let f := fetchPrDiff child url_pathname engine_message GITHUB_TOKEN
                pr_url (js_get args (js "token")) in
     spawned m = spawned f /\
     match value f with
     | Normal d =>
         value m = {| text := Text (reviewPullRequest d); isError := false |}
     | Thrown e =>
         value m = {| text := Text (js "Error: " ++ e); isError := true |}
     end).
Proof.
  intros m. subst m.
  rewrite callTool_advanced by (unfold advancedTools; set_solver).
  unfold call_advanced.
  assert (E : jstring_eqb (js "rv_pr") (js "rv_pr") = true) by reflexivity.
  rewrite E. clear E. cbv iota. unfold bindE, bind.
  split; [|split; [|split]].
  - intros d Hd Hne. rewrite Hd. cbn [opt_truthy truthy].
    rewrite bool_decide_eq_false_2 by done. eff. cbn [opt_truthy truthy].
    rewrite bool_decide_eq_false_2 by done. eff. reflexivity.
  - intros v Hv Ht Hs. rewrite Hv. cbn [opt_truthy]. rewrite Ht. eff.
    cbn [opt_truthy]. rewrite Ht. eff.
    destruct v; try discriminate; reflexivity.
  - intros Hd Hp. rewrite Hd, Hp. eff. reflexivity.
  - intros pr_url Hd Hp Ht. rewrite Hd, Hp. cbn [opt_truthy]. rewrite Ht.
    unfold bindE, bind.
    set (f := fetchPrDiff child url_pathname engine_message GITHUB_TOKEN
                pr_url (js_get args (js "token"))).
    destruct (fetchPrDiff_cases child url_pathname engine_message
                GITHUB_TOKEN pr_url (js_get args (js "token")))
      as (_ & _ & Hok). fold f in Hok. cbv zeta in Hok.
    destruct f as [[d|e] t]; eff.
    + destruct (Hok d eq_refl) as (_ & _ & _ & _ & _ & Hne & _).
      cbn [opt_truthy truthy]. rewrite bool_decide_eq_false_2 by done. eff.
      cbn [as_string_receiver]. eff. cbn [answer_of].
      rewrite !app_nil_r. split; reflexivity.
    + cbn [answer_of]. rewrite !app_nil_r. split; reflexivity.
Qed.

(** A diff given inline, and an empty argument object. *)
Lemma rv_pr_behaviour_witness :
  callTool silent_child id no_url no_message None (js "rv_pr")
    (Some {[ js "diff" := str "ok" ]})
  = ({| text := Text (reviewPullRequest (js "ok")); isError := false |}, []) /\
  isError (value (callTool silent_child id no_url no_message None
                    (js "rv_pr") (Some ∅))) = true.
Proof.
  split.
  - destruct (rv_pr_behaviour silent_child id no_url no_message None
                {[ js "diff" := str "ok" ]}) as (Hd & _).
    apply Hd; [vm_compute; reflexivity|discriminate].
  - destruct (rv_pr_behaviour silent_child id no_url no_message None ∅)
      as (_ & _ & Hn & _).
    rewrite Hn; reflexivity.
Defined.



Section ToolCallAnswers.

Variable child : Spawn -> ProcOutcome.
Variable toLowerCase : jstring -> jstring.
Variable url_pathname : jstring -> option jstring.
Variable engine_message : EngineError -> jstring.
Variable GITHUB_TOKEN : option jstring.

Local Abbreviation advanced :=
  (call_advanced child toLowerCase url_pathname engine_message GITHUB_TOKEN).


End ToolCallAnswers.



(** X12: the findings of [reviewCode] are a selection of five fixed
    sentences, in the order of the tests and without repetition; each one is
    reported exactly when its test on the diff holds; the summary says
    "No obvious issues" exactly when nothing is reported; and since at most
    five findings exist the rating is [10 - number of findings], never below
    5. *)
Theorem reviewCode_findings (toLowerCase : jstring -> jstring)
    (diff : jstring) :
  let r := reviewCode toLowerCase diff in
  let lower := toLowerCase diff in
  sublist (issues r) review_findings /\
  (js "Remove console.log in production code." ∈ issues r <->
   includes diff (js "console.log") = true) /\
  (js "Resolve TODO/FIXME before merging." ∈ issues r <->
   includes lower (js "todo") || includes lower (js "fixme") = true) /\
  (js "Ensure secrets are not hard-coded." ∈ issues r <->
   includes lower (js "password") || includes lower (js "secret") = true) /\
  (js "Avoid TypeScript any; prefer explicit types." ∈ issues r <->
   match_word_any false diff = true) /\
  (js "Avoid empty catch blocks; handle errors meaningfully." ∈ issues r <->
   match_empty_catch diff = true) /\
  (summary r = js "No obvious issues detected by basic static review." <->
   issues r = []) /\
  rating r = (10 - Z.of_nat (length (issues r)))%Z /\
  (5 <= rating r)%Z.
Proof.
  intros r lower. subst r lower. unfold reviewCode.
  destruct (includes diff (js "console.log"));
  destruct (includes (toLowerCase diff) (js "todo") ||
            includes (toLowerCase diff) (js "fixme"));
  destruct (includes (toLowerCase diff) (js "password") ||
            includes (toLowerCase diff) (js "secret"));
  destruct (match_word_any false diff);
  destruct (match_empty_catch diff);
  cbv [push_if]; cbn [app summary issues rating length Nat.eqb negb];
  (split;
   [ repeat first [ apply sublist_nil_l | apply sublist_skip
                  | apply sublist_cons ] |]);
  repeat match goal with
  | |- (_ ∈ _ <-> true = true) /\ _ =>
      split; [split; [reflexivity|intros _;
        apply (bool_decide_eq_true_1 _); vm_compute; reflexivity]|]
  | |- (_ ∈ _ <-> false = true) /\ _ =>
      split; [split; [intros H; apply (bool_decide_eq_true_2 _) in H;
                      vm_compute in H; discriminate H|discriminate]|]
  end;
  (split; [split; intros H; first [reflexivity | discriminate H
             | (vm_compute in H; discriminate H)]|]);
  split; vm_compute; first [reflexivity | discriminate].
Qed.

Lemma startsWith_app (p s : jstring) : startsWith (p ++ s) p = true.
Proof.
  induction p as [|c p IH]; [by destruct s|].
  simpl. by rewrite N.eqb_refl.
Qed.

(** The comments of the line loop: every comment belongs to one line and
    carries that line's number, counted from [idx + 1]. *)
Lemma review_lines_spec (lines : list jstring) (idx : N) (c : jstring) :
  c ∈ review_lines idx lines <->
  exists (i : nat) (line : jstring),
    lines !! i = Some line /\
    ((includes line (js "console.log(") = true /\
      c = log_comment (idx + N.of_nat i + 1)) \/
     (includes line (js "TODO") || includes line (js "FIXME") = true /\
      c = todo_comment (idx + N.of_nat i + 1))).
Proof.
  revert idx. induction lines as [|line rest IH]; intros idx.
  - split; [by intros ?%elem_of_nil|]. by intros (i & l & ? & _).
  - cbn [review_lines]. cbv zeta. rewrite !elem_of_app, IH. split.
    + intros [H|[H|(i & l & Hl & H)]].
      * exists 0%nat, line. split; [done|]. left.
        destruct (includes line (js "console.log("));
          [|by apply elem_of_nil in H].
        apply list_elem_of_singleton in H. split; [done|].
        rewrite H. unfold log_comment. do 2 f_equal. lia.
      * exists 0%nat, line. split; [done|]. right.
        destruct (includes line (js "TODO") || includes line (js "FIXME"));
          [|by apply elem_of_nil in H].
        apply list_elem_of_singleton in H. split; [done|].
        rewrite H. unfold todo_comment. do 2 f_equal. lia.
      * exists (S i), l. split; [done|].
        replace (idx + N.of_nat (S i) + 1) with (idx + 1 + N.of_nat i + 1)
          by lia. exact H.
    + intros ([|i] & l & Hl & H).
      * injection Hl as ->. destruct H as [[-> ->]|[-> ->]].
        -- left. apply list_elem_of_singleton. unfold log_comment.
           do 2 f_equal. lia.
        -- right. left. apply list_elem_of_singleton. unfold todo_comment.
           do 2 f_equal. lia.
      * right. right. exists i, l. split; [done|].
        replace (idx + 1 + N.of_nat i + 1) with (idx + N.of_nat (S i) + 1)
          by lia. exact H.
Qed.

Lemma review_lines_nil (lines : list jstring) (idx : N) :
  review_lines idx lines = [] <-> Forall clean_line lines.
Proof.
  revert idx. induction lines as [|line rest IH]; intros idx.
  - split; [constructor|done].
  - cbn [review_lines]. cbv zeta. unfold clean_line at 1.
    rewrite Forall_cons, <- (IH (idx + 1)). fold (clean_line line).
    unfold clean_line.
    destruct (includes line (js "console.log("));
      [split; [discriminate|by intros [[? _] _]]|].
    destruct (includes line (js "TODO"));
      [split; [discriminate|by intros [(_ & ? & _) _]]|].
    destruct (includes line (js "FIXME"));
      [split; [discriminate|by intros [(_ & _ & ?) _]]|].
    cbn [orb app]. tauto.
Qed.

(** X13: [reviewPullRequest] answers "APPROVED:" exactly when no line of
    the diff contains [console.log(], [TODO] or [FIXME], and "REVIEW:"
    otherwise.  The comments it lists are exactly one per offending test
    and line, each prefixed by the number of its line counted from 1, so
    there are at most two per line. *)
Theorem reviewPullRequest_verdict (diff : jstring) :
  let lines := split 10 diff in
  let comments := review_lines 0 lines in
  (startsWith (reviewPullRequest diff) (js "APPROVED:") = true <->
   Forall clean_line lines) /\
  (startsWith (reviewPullRequest diff) (js "REVIEW:") = true <->
   ~ Forall clean_line lines) /\
  (~ Forall clean_line lines ->
   exists summary : jstring,
     reviewPullRequest diff
     = js "REVIEW:" ++ [10] ++ join [10] comments ++ [10; 10] ++ summary) /\
  (forall c : jstring,
     c ∈ comments <->
     exists (i : nat) (line : jstring),
       lines !! i = Some line /\
       ((includes line (js "console.log(") = true /\
         c = log_comment (N.of_nat i + 1)) \/
        (includes line (js "TODO") || includes line (js "FIXME") = true /\
         c = todo_comment (N.of_nat i + 1)))) /\
  (length comments <= 2 * length lines)%nat.
Proof.
  intros lines comments. subst comments.
  pose proof (review_lines_nil lines 0) as Hnil.
  assert (Hspec := fun c => review_lines_spec lines 0 c).
  assert (Hlen : (length (review_lines 0 lines) <= 2 * length lines)%nat).
  { clear. generalize 0 as idx.
    induction lines as [|l ls IH]; intros idx; [simpl; lia|].
    cbn [review_lines]. cbv zeta. rewrite !length_app.
    specialize (IH (idx + 1)).
    destruct (includes l (js "console.log("));
      destruct (includes l (js "TODO") || includes l (js "FIXME"));
      cbn [length]; unfold jstring in *; lia. }
  unfold reviewPullRequest. fold lines.
  destruct (review_lines 0 lines) as [|c0 cs].
  - assert (Hclean : Forall clean_line lines) by (by apply Hnil).
    split; [split; [done|intros _; apply startsWith_app]|].
    split; [split; [intros H; vm_compute in H; discriminate H|done]|].
    split; [done|]. split; [exact Hspec|exact Hlen].
  - assert (Hdirty : ~ Forall clean_line lines).
    { intros H. apply Hnil in H. discriminate H. }
    cbn [length Nat.eqb].
    split; [split; [intros H; vm_compute in H; discriminate H|done]|].
    split; [split; [done|intros _; apply startsWith_app]|].
    split; [intros _; eexists; reflexivity|].
    split; [exact Hspec|exact Hlen].
Qed.

(** A leftover [console.log(] on the second line is reported with the
    number 2. *)
Lemma reviewPullRequest_verdict_witness :
  log_comment 2 ∈ review_lines 0 (split 10 (js "let x" ++ [10] ++
                                           js "console.log(x)")).
Proof.
  destruct (reviewPullRequest_verdict
              (js "let x" ++ [10] ++ js "console.log(x)"))
    as (_ & _ & _ & Hc & _).
  apply Hc. exists 1%nat, (js "console.log(x)").
  split; [vm_compute; reflexivity|]. left.
  split; vm_compute; reflexivity.
Defined.

Section ShellRuns.

Import Shell.
Local Open Scope string_scope.

Variable world : list Command -> Command -> Answer.
Variable installed : string -> bool.
Variable SLACK_TOKEN : string.
Variable script : string.

Local Abbreviation run_gkit := (run_script world installed SLACK_TOKEN script).

(** What the list [git fetch && git checkout -b && git push -u] leaves
    behind: a failing [fetch] or [checkout] only cuts the list short, a
    failing [push] ends the script. *)
Lemma fetch_checkout_push_cases (branch from remote : string) (st : State) :
  let fetch := git_fetch remote in
  let checkout := git_checkout branch remote from in
  let push := git_push remote branch in
  let a1 := world (ran st) fetch in
  let a2 := world (ran st ++ [fetch]) checkout in
  let a3 := world (ran st ++ [fetch; checkout]) push in
  let after (outs errs : list string) (cs : list Command) :=
    {| out := out st ++ outs; err := err st ++ errs; ran := ran st ++ cs;
       input := input st |} in
  fetch_checkout_push world branch from remote st
  = if negb (ans_status a1 =? 0)%N then
      Go tt (after [ans_stdout a1] [ans_stderr a1] [fetch])
    else if negb (ans_status a2 =? 0)%N then
      Go tt (after [ans_stdout a1; ans_stdout a2]
                   [ans_stderr a1; ans_stderr a2] [fetch; checkout])
    else if (ans_status a3 =? 0)%N then
      Go tt (after [ans_stdout a1; ans_stdout a2; ans_stdout a3]
                   [ans_stderr a1; ans_stderr a2; ans_stderr a3]
                   [fetch; checkout; push])
    else
      Exit (ans_status a3)
           (after [ans_stdout a1; ans_stdout a2; ans_stdout a3]
                  [ans_stderr a1; ans_stderr a2; ans_stderr a3]
                  [fetch; checkout; push]).
Proof.
  cbv zeta. unfold fetch_checkout_push, run, exec, exec_with, seq, errexit.
  fold (git_fetch remote) (git_checkout branch remote from)
    (git_push remote branch).
  destruct (ans_status (world (ran st) (git_fetch remote)) =? 0)%N;
    cbn [negb ran out err input]; [|reflexivity].
  destruct (ans_status (world (ran st ++ [git_fetch remote])
                          (git_checkout branch remote from)) =? 0)%N;
    cbn [negb ran out err input]; rewrite <- ?app_assoc; [|reflexivity].
  cbn [app].
  destruct (ans_status _ =? 0)%N; unfold pure, exit; reflexivity.
Qed.

Lemma after_check_deps (k : unit -> Sh N) (st : State) :
  deps_present installed ->
  seq (call (check_deps installed SLACK_TOKEN)) k st = k tt st.
Proof.
  intros Hdeps. unfold seq, call, seq.
  by rewrite (check_deps_present installed SLACK_TOKEN st Hdeps).
Qed.

(** A function called as the last command of a [case] branch. *)
Lemma call_then_zero (f : Sh N) (st : State) :
  seq (call f) (fun _ => pure 0%N) st
  = match f st with
    | Go n st' => if (n =? 0)%N then Go 0%N st' else Exit n st'
    | Exit n st' => Exit n st'
    end.
Proof.
  unfold seq, call, seq, errexit. destruct (f st) as [n st'|n st']; [|done].
  by destruct (n =? 0)%N.
Qed.

Lemma gk_nb_cases (args : list string) (st : State) :
  gk_nb world args st
  = match fetch_checkout_push world (arg 1 args)
            (or_default (arg 2 args) "develop")
            (or_default (arg 3 args) "origin")
            (with_out st
               [ "gk_nb " ++ arg 1 args ++ " " ++ arg 2 args ++ " " ++
                 arg 3 args;
                 "🔥 Start to create new branch" ]) with
    | Go _ st' =>
        Go 0%N (with_out st'
                  ["✅ " ++ arg 1 args ++ " New branch created from develop 🎉"])
    | Exit n st' => Exit n st'
    end.
Proof.
  unfold gk_nb, seq, echo, with_out. cbn [out err ran input].
  rewrite <- app_assoc. cbn [app].
  by destruct (fetch_checkout_push _ _ _ _ _).
Qed.

Lemma gk_nbh_cases (args : list string) (st : State) :
  gk_nbh world args st
  = match fetch_checkout_push world (arg 1 args)
            (or_default (arg 2 args) "main")
            (or_default (arg 3 args) "origin")
            (with_out st
               [ "gk_nbh " ++ arg 1 args ++ " " ++ arg 2 args ++ " " ++
                 arg 3 args;
                 "🔥 Start to create new branch" ]) with
    | Go _ st' =>
        Go 0%N (with_out st'
                  ["✅ " ++ arg 1 args ++ " New branch hotfix created 🎉"])
    | Exit n st' => Exit n st'
    end.
Proof.
  unfold gk_nbh, seq, echo, with_out. cbn [out err ran input].
  rewrite <- app_assoc. cbn [app].
  by destruct (fetch_checkout_push _ _ _ _ _).
Qed.

End ShellRuns.

(** X14: [gkit.sh nb <branch> [from] [remote]] with the dependencies
    installed.  The three git commands form one [&&] list, so a failing
    [git fetch] or [git checkout -b] only cuts the list short: nothing
    further is run, yet the script still prints the line that says the
    branch was created and exits 0.  Only [git push -u] decides: its status
    is the exit status, and the success line is missing exactly when it
    failed.  The success line says "from develop" whatever [from] is. *)
Theorem new_branch_run
    (world : list Shell.Command -> Shell.Command -> Shell.Answer)
    (installed : string -> bool) (SLACK_TOKEN script : string)
    (args stdin : list string) :
  deps_present installed ->
  let branch := Shell.arg 1 args in
  let remote := Shell.or_default (Shell.arg 3 args) "origin" in
  let fetch := git_fetch remote in
  let checkout :=
    git_checkout branch remote
      (Shell.or_default (Shell.arg 2 args) "develop") in
  let push := git_push remote branch in
  let a1 := world [] fetch in
  let a2 := world [fetch] checkout in
  let a3 := world [fetch; checkout] push in
  let header :=
    [ ("gk_nb " ++ Shell.arg 1 args ++ " " ++ Shell.arg 2 args ++ " " ++
       Shell.arg 3 args)%string;
      "🔥 Start to create new branch"%string ] in
  let created :=
    ("✅ " ++ branch ++ " New branch created from develop 🎉")%string in
  let r := Shell.run_script world installed SLACK_TOKEN script
             ("nb"%string :: args) stdin in
  (Shell.ans_status a1 <> 0 ->
   status_of r = 0 /\ commands_of r = [fetch] /\
   printed_by r = header ++ [Shell.ans_stdout a1; created]) /\
  (Shell.ans_status a1 = 0 -> Shell.ans_status a2 <> 0 ->
   status_of r = 0 /\ commands_of r = [fetch; checkout] /\
   printed_by r
   = header ++ [Shell.ans_stdout a1; Shell.ans_stdout a2; created]) /\
  (Shell.ans_status a1 = 0 -> Shell.ans_status a2 = 0 ->
   status_of r = Shell.ans_status a3 /\
   commands_of r = [fetch; checkout; push] /\
   printed_by r
   = header ++
     [Shell.ans_stdout a1; Shell.ans_stdout a2; Shell.ans_stdout a3] ++
     (if Shell.ans_status a3 =? 0 then [created] else [])).
Proof.
  intros Hdeps. cbv zeta.
  unfold status_of, commands_of, printed_by, Shell.run_script, Shell.main.
  rewrite after_check_deps by exact Hdeps.
  cbn [Shell.arg nth Nat.sub Shell.is_empty tl String.eqb Ascii.eqb
       Bool.eqb orb].
  rewrite call_then_zero, gk_nb_cases, fetch_checkout_push_cases. cbv zeta.
  unfold with_out, Shell.initial.
  cbn [Shell.out Shell.err Shell.ran Shell.input List.app].
  split; [|split].
  - intros H1. apply N.eqb_neq in H1. rewrite H1. cbn. done.
  - intros H1 H2. apply N.eqb_eq in H1. apply N.eqb_neq in H2.
    rewrite H1, H2. cbn. done.
  - intros H1 H2. apply N.eqb_eq in H1. apply N.eqb_eq in H2.
    rewrite H1, H2. cbn [negb].
    destruct (N.eqb_spec (Shell.ans_status
      (world [git_fetch (Shell.or_default (Shell.arg 3 args) "origin");
              git_checkout (Shell.arg 1 args)
                (Shell.or_default (Shell.arg 3 args) "origin")
                (Shell.or_default (Shell.arg 2 args) "develop")]
         (git_push (Shell.or_default (Shell.arg 3 args) "origin")
            (Shell.arg 1 args)))) 0) as [E|E].
    + rewrite E. cbn. done.
    + cbn. done.
Qed.

(** With the remote out of reach, [nb feature-x] still exits 0. *)
Lemma new_branch_run_witness :
  status_of (Shell.run_script offline_world all_installed EmptyString
               "gkit.sh" ["nb"; "feature-x"]%string []) = 0.
Proof.
  destruct (new_branch_run offline_world all_installed EmptyString "gkit.sh"
              ["feature-x"%string] []) as (H & _).
  - by repeat split.
  - cbv zeta in H. apply H. vm_compute. discriminate.
Defined.

(** X15: [gkit.sh nbh <branch> [from] [remote]] behaves the same way with
    [main] as the default starting point: a failing [git fetch] or
    [git checkout -b] is followed by the line "New branch hotfix created"
    and exit status 0, and only a failing [git push -u] ends the script
    with a failure status. *)
Theorem hotfix_branch_run
    (world : list Shell.Command -> Shell.Command -> Shell.Answer)
    (installed : string -> bool) (SLACK_TOKEN script : string)
    (args stdin : list string) :
  deps_present installed ->
  let branch := Shell.arg 1 args in
  let remote := Shell.or_default (Shell.arg 3 args) "origin" in
  let fetch := git_fetch remote in
  let checkout :=
    git_checkout branch remote (Shell.or_default (Shell.arg 2 args) "main") in
  let push := git_push remote branch in
  let a1 := world [] fetch in
  let a2 := world [fetch] checkout in
  let a3 := world [fetch; checkout] push in
  let header :=
    [ ("gk_nbh " ++ Shell.arg 1 args ++ " " ++ Shell.arg 2 args ++ " " ++
       Shell.arg 3 args)%string;
      "🔥 Start to create new branch"%string ] in
  let created :=
    ("✅ " ++ branch ++ " New branch hotfix created 🎉")%string in
  let r := Shell.run_script world installed SLACK_TOKEN script
             ("nbh"%string :: args) stdin in
  (Shell.ans_status a1 <> 0 ->
   status_of r = 0 /\ commands_of r = [fetch] /\
   printed_by r = header ++ [Shell.ans_stdout a1; created]) /\
  (Shell.ans_status a1 = 0 -> Shell.ans_status a2 <> 0 ->
   status_of r = 0 /\ commands_of r = [fetch; checkout] /\
   printed_by r
   = header ++ [Shell.ans_stdout a1; Shell.ans_stdout a2; created]) /\
  (Shell.ans_status a1 = 0 -> Shell.ans_status a2 = 0 ->
   status_of r = Shell.ans_status a3 /\
   commands_of r = [fetch; checkout; push] /\
   printed_by r
   = header ++
     [Shell.ans_stdout a1; Shell.ans_stdout a2; Shell.ans_stdout a3] ++
     (if Shell.ans_status a3 =? 0 then [created] else [])).
Proof.
  intros Hdeps. cbv zeta.
  unfold status_of, commands_of, printed_by, Shell.run_script, Shell.main.
  rewrite after_check_deps by exact Hdeps.
  cbn [Shell.arg nth Nat.sub Shell.is_empty tl String.eqb Ascii.eqb
       Bool.eqb orb].
  rewrite call_then_zero, gk_nbh_cases, fetch_checkout_push_cases. cbv zeta.
  unfold with_out, Shell.initial.
  cbn [Shell.out Shell.err Shell.ran Shell.input List.app].
  split; [|split].
  - intros H1. apply N.eqb_neq in H1. rewrite H1. cbn. done.
  - intros H1 H2. apply N.eqb_eq in H1. apply N.eqb_neq in H2.
    rewrite H1, H2. cbn. done.
  - intros H1 H2. apply N.eqb_eq in H1. apply N.eqb_eq in H2.
    rewrite H1, H2. cbn [negb].
    destruct (N.eqb_spec (Shell.ans_status
      (world [git_fetch (Shell.or_default (Shell.arg 3 args) "origin");
              git_checkout (Shell.arg 1 args)
                (Shell.or_default (Shell.arg 3 args) "origin")
                (Shell.or_default (Shell.arg 2 args) "main")]
         (git_push (Shell.or_default (Shell.arg 3 args) "origin")
            (Shell.arg 1 args)))) 0) as [E|E].
    + rewrite E. cbn. done.
    + cbn. done.
Qed.

(** With the remote out of reach, [nbh hotfix-1] still exits 0. *)
Lemma hotfix_branch_run_witness :
  status_of (Shell.run_script offline_world all_installed EmptyString
               "gkit.sh" ["nbh"; "hotfix-1"]%string []) = 0.
Proof.
  destruct (hotfix_branch_run offline_world all_installed EmptyString
              "gkit.sh" ["hotfix-1"%string] []) as (H & _).
  - by repeat split.
  - cbv zeta in H. apply H. vm_compute. discriminate.
Defined.

(** X16: when [gh], [fzf] or [jq] is missing, every invocation of the
    script, [help] and the bare call included, exits with status 1 before
    doing anything: no external command is run, nothing is written on the
    standard output, no input is read, and the standard error names
    exactly the tools that are missing. *)
Theorem missing_dependency_blocks_every_command
    (world : list Shell.Command -> Shell.Command -> Shell.Answer)
    (installed : string -> bool) (SLACK_TOKEN script : string)
    (args stdin : list string) :
  ~ deps_present installed ->
  let r := Shell.run_script world installed SLACK_TOKEN script args stdin in
  status_of r = 1 /\ commands_of r = [] /\ printed_by r = [] /\
  Shell.input (snd r) = stdin /\
  Shell.err (snd r)
  = (if installed "gh"%string then []
     else ["❌ 'gh' (GitHub CLI) not found. Please install it."%string]) ++
    (if installed "fzf"%string then []
     else ["❌ 'fzf' not found. Please install it."%string]) ++
    (if installed "jq"%string then []
     else ["❌ 'jq' not found. Please install it."%string]).
Proof.
  intros Hdeps. cbv zeta.
  unfold status_of, commands_of, printed_by, Shell.run_script, Shell.main,
    Shell.call.
  unfold Shell.seq at 1. unfold Shell.seq at 1.
  unfold deps_present in Hdeps. revert Hdeps.
  unfold Shell.check_deps, Shell.seq, Shell.pure, Shell.exit, Shell.echo_err,
    Shell.initial.
  destruct (installed "gh"%string), (installed "fzf"%string),
    (installed "jq"%string); intros Hdeps;
    first [ exfalso; apply Hdeps; by repeat split
          | destruct (Shell.is_empty SLACK_TOKEN); cbn; by repeat split ].
Qed.

(** Nothing installed: even [help] fails. *)
Lemma missing_dependency_blocks_every_command_witness :
  status_of (Shell.run_script offline_world (fun _ => false) EmptyString
               "gkit.sh" ["help"%string] []) = 1.
Proof.
  destruct (missing_dependency_blocks_every_command offline_world
              (fun _ => false) EmptyString "gkit.sh" ["help"%string] [])
    as (H & _); [|exact H].
  intros (H & _). discriminate H.
Defined.

Section ShellSteps.

Import Shell.
Local Open Scope string_scope.

Variable world : list Command -> Command -> Answer.

Lemma seq_pure {A B} (a : A) (k : A -> Sh B) (st : State) :
  seq (pure a) k st = k a st.
Proof. reflexivity. Qed.

Lemma seq_assoc {A B C} (m : Sh A) (k1 : A -> Sh B) (k2 : B -> Sh C)
    (st : State) :
  seq (seq m k1) k2 st = seq m (fun a => seq (k1 a) k2) st.
Proof. unfold seq. by destruct (m st). Qed.

Lemma seq_echo {B} (s : string) (k : unit -> Sh B) (st : State) :
  seq (echo s) k st = k tt (with_out st [s]).
Proof. reflexivity. Qed.

Lemma seq_exec_with {B} (q : bool) (c : Command) (k : N -> Sh B)
    (st : State) :
  seq (exec_with world q c) k st
  = k (status_in world c st) (after_exec world q c st).
Proof. reflexivity. Qed.

Lemma seq_exec {B} (c : Command) (k : N -> Sh B) (st : State) :
  seq (exec world c) k st
  = k (status_in world c st) (after_exec world false c st).
Proof. reflexivity. Qed.

Lemma seq_capture_with {B} (q : bool) (c : Command) (k : N * string -> Sh B)
    (st : State) :
  seq (capture_with world q c) k st
  = k (status_in world c st, captured world c st)
      (after_capture world q c st).
Proof. reflexivity. Qed.

Lemma seq_capture {B} (c : Command) (k : N * string -> Sh B) (st : State) :
  seq (capture world c) k st
  = k (status_in world c st, captured world c st)
      (after_capture world false c st).
Proof. reflexivity. Qed.

Lemma seq_run {B} (c : Command) (k : unit -> Sh B) (st : State) :
  seq (run world c) k st
  = if (status_in world c st =? 0)%N
    then k tt (after_exec world false c st)
    else Exit (status_in world c st) (after_exec world false c st).
Proof.
  unfold run, seq, exec, exec_with, errexit, status_in.
  by destruct (_ =? _)%N.
Qed.

Lemma seq_assign {B} (c : Command) (k : string -> Sh B) (st : State) :
  seq (assign world c) k st
  = if (status_in world c st =? 0)%N
    then k (captured world c st) (after_capture world false c st)
    else Exit (status_in world c st) (after_capture world false c st).
Proof.
  unfold assign, seq, capture, capture_with, errexit, status_in.
  cbn [fst snd]. by destruct (_ =? _)%N.
Qed.

Lemma seq_errexit {B} (status : N) (k : unit -> Sh B) (st : State) :
  seq (errexit status) k st
  = if (status =? 0)%N then k tt st else Exit status st.
Proof. unfold seq, errexit. by destruct (_ =? _)%N. Qed.

Lemma seq_read {B} (k : N * string -> Sh B) (st : State) :
  seq read k st
  = match input st with
    | [] => k (1%N, EmptyString) st
    | line :: rest =>
        k (0%N, line) {| out := out st; err := err st; ran := ran st;
                         input := rest |}
    end.
Proof. unfold seq, read. by destruct (input st). Qed.

Lemma seq_call {B} (f : Sh N) (k : unit -> Sh B) (st : State) :
  seq (call f) k st
  = match f st with
    | Go n st' => if (n =? 0)%N then k tt st' else Exit n st'
    | Exit n st' => Exit n st'
    end.
Proof.
  unfold call, seq, errexit. destruct (f st) as [n st'|n st']; [|done].
  by destruct (n =? 0)%N.
Qed.

End ShellSteps.

(** X17: [gkit.sh sl <message...>] with a Slack token.  Without a message
    it prints the usage line, runs nothing and exits 1.  With one it posts
    the words joined by spaces with the token as bearer; if [curl] fails
    the script exits with curl's status having run nothing else; once
    [curl] has succeeded the exit status is 0 whatever Slack answered. *)
Theorem slack_run
    (world : list Shell.Command -> Shell.Command -> Shell.Answer)
    (installed : string -> bool) (SLACK_TOKEN script : string)
    (args stdin : list string) :
  deps_present installed ->
  Shell.is_empty SLACK_TOKEN = false ->
  let r := Shell.run_script world installed SLACK_TOKEN script
             ("sl"%string :: args) stdin in
  let post := slack_post SLACK_TOKEN (Shell.join_args args) in
  (args = [] ->
   status_of r = 1 /\ commands_of r = [] /\
   printed_by r = ["Usage: gk_slack <message>"%string]) /\
  (args <> [] ->
   head (commands_of r) = Some post /\
   (Shell.ans_status (world [] post) <> 0 ->
    status_of r = Shell.ans_status (world [] post) /\
    commands_of r = [post]) /\
   (Shell.ans_status (world [] post) = 0 -> status_of r = 0)).
Proof.
  intros Hdeps Htok. cbv zeta.
  unfold status_of, commands_of, printed_by, Shell.run_script, Shell.main.
  rewrite after_check_deps by exact Hdeps.
  cbn [Shell.arg nth Nat.sub Shell.is_empty tl String.eqb Ascii.eqb
       Bool.eqb orb].
  rewrite call_then_zero. unfold Shell.gk_slack. rewrite Htok.
  split.
  - intros ->. cbn [length Nat.ltb Nat.leb]. by repeat split.
  - intros Hne. destruct args as [|a args]; [done|].
    cbn [length Nat.ltb Nat.leb]. cbv zeta.
    fold (slack_post SLACK_TOKEN (Shell.join_args (a :: args))).
    rewrite seq_echo, seq_assign. shell_state.
    destruct (N.eqb_spec (Shell.ans_status
                            (world [] (slack_post SLACK_TOKEN
                                         (Shell.join_args (a :: args))))) 0)
      as [E|E].
    + rewrite seq_capture. cbn [snd].
      destruct (String.eqb _ "true").
      * rewrite seq_echo. unfold Shell.pure. shell_state. by repeat split.
      * rewrite seq_capture, seq_echo. unfold Shell.pure. shell_state.
        by repeat split.
    + shell_state. by repeat split.
Qed.

(** Slack answers that the channel does not exist: the exit status is 0. *)
Lemma slack_run_witness :
  status_of (Shell.run_script pr_world all_installed "xoxb-1" "gkit.sh"
               ["sl"; "hello"]%string []) = 0.
Proof.
  destruct (slack_run pr_world all_installed "xoxb-1" "gkit.sh"
              ["hello"%string] []) as (_ & H).
  - by repeat split.
  - reflexivity.
  - destruct H as (_ & _ & H); [discriminate|]. apply H. reflexivity.
Defined.

(** X18: [gkit.sh prs [remote] [title]] with the dependencies installed
    never reaches [gh] when there is nothing to target: if [git fetch]
    fails it exits 1 having run only the fetch, and if the listing of
    [origin/release/v*] branches comes out empty it prints "No release
    branch found" and exits 1 having run only the fetch and the listing.
    The listing looks at [origin] whatever remote was fetched. *)
Theorem release_pr_guards
    (world : list Shell.Command -> Shell.Command -> Shell.Answer)
    (installed : string -> bool) (SLACK_TOKEN script : string)
    (args stdin : list string) :
  deps_present installed ->
  let remote := Shell.or_default (Shell.arg 1 args) "origin" in
  let fetch := git_fetch remote in
  let listing := Shell.latest_release_pipeline in
  let r := Shell.run_script world installed SLACK_TOKEN script
             ("prs"%string :: args) stdin in
  (Shell.ans_status (world [] fetch) <> 0 ->
   status_of r = 1 /\ commands_of r = [fetch]) /\
  (Shell.ans_status (world [] fetch) = 0 ->
   Shell.ans_status (world [fetch] listing) = 0 ->
   Shell.strip_trailing_newlines (Shell.ans_stdout (world [fetch] listing))
   = EmptyString ->
   status_of r = 1 /\ commands_of r = [fetch; listing] /\
   last (printed_by r) = Some "No release branch found"%string) /\
  (Shell.ans_status (world [] fetch) = 0 ->
   Shell.ans_status (world [fetch] listing) <> 0 ->
   status_of r = Shell.ans_status (world [fetch] listing) /\
   commands_of r = [fetch; listing]).
Proof.
  intros Hdeps. cbv zeta.
  unfold status_of, commands_of, printed_by, Shell.run_script, Shell.main.
  rewrite after_check_deps by exact Hdeps.
  cbn [Shell.arg nth Nat.sub Shell.is_empty tl String.eqb Ascii.eqb
       Bool.eqb orb].
  rewrite call_then_zero. unfold Shell.gk_prs. cbv zeta.
  fold (git_fetch (Shell.or_default (Shell.arg 1 args) "origin")).
  rewrite !seq_echo, seq_exec. shell_state.
  destruct (N.eqb_spec (Shell.ans_status
      (world [] (git_fetch (Shell.or_default (Shell.arg 1 args) "origin"))))
      0) as [E|E].
  - cbn [negb]. rewrite seq_assign. shell_state.
    destruct (N.eqb_spec (Shell.ans_status
      (world [git_fetch (Shell.or_default (Shell.arg 1 args) "origin")]
         Shell.latest_release_pipeline)) 0) as [E2|E2].
    + split; [done|]. split; [|done]. intros _ _ ->.
      cbn [Shell.is_empty]. rewrite seq_echo. unfold Shell.pure.
      shell_state. by repeat split.
    + split; [done|]. split; [done|]. intros _ _. shell_state.
      by repeat split.
  - cbn [negb]. unfold Shell.pure. shell_state. by repeat split.
Qed.

(** With the remote out of reach [prs] exits 1 after the fetch. *)
Lemma release_pr_guards_witness :
  status_of (Shell.run_script offline_world all_installed EmptyString
               "gkit.sh" ["prs"%string] []) = 1.
Proof.
  destruct (release_pr_guards offline_world all_installed EmptyString
              "gkit.sh" [] []) as (H & _).
  - by repeat split.
  - cbv zeta in H. destruct H as (H & _); [discriminate|exact H].
Defined.

(** X19: [gkit.sh ap <pr_url>] (or [approve]), the two [awk] extractions
    having succeeded.  The review is asked for the seventh [/]-separated
    field of the URL as number and the fourth and fifth as repository; the
    exit status of the script is the status of [gh pr review], and the line
    that reports the approval is printed only when that status is 0. *)
Theorem approve_run
    (world : list Shell.Command -> Shell.Command -> Shell.Answer)
    (installed : string -> bool) (SLACK_TOKEN script name : string)
    (args stdin : list string) :
  deps_present installed ->
  In name ["ap"; "approve"]%string ->
  let url := Shell.arg 1 args in
  let c1 := pr_number_query url in
  let c2 := repo_query url in
  Shell.ans_status (world [] c1) = 0 ->
  Shell.ans_status (world [c1] c2) = 0 ->
  let review := gh_review (output_of world [] c1) (output_of world [c1] c2) in
  let r := Shell.run_script world installed SLACK_TOKEN script
             (name :: args) stdin in
  status_of r = Shell.ans_status (world [c1; c2] review) /\
  commands_of r = [c1; c2; review] /\
  printed_by r
  = [("🔥 Approving PR: " ++ url)%string;
     Shell.ans_stdout (world [c1; c2] review)] ++
    (if Shell.ans_status (world [c1; c2] review) =? 0
     then [("✅ PR for " ++ url ++ " approved 🎉")%string] else []).
Proof.
  intros Hdeps Hname. cbv zeta. intros H1 H2.
  unfold status_of, commands_of, printed_by, Shell.run_script, Shell.main.
  rewrite after_check_deps by exact Hdeps.
  destruct Hname as [<-|[<-|[]]];
    cbn [Shell.arg nth Nat.sub Shell.is_empty tl String.eqb Ascii.eqb
         Bool.eqb orb];
    rewrite call_then_zero; unfold Shell.gk_approve; cbv zeta;
    fold (pr_number_query (Shell.arg 1 args));
    fold (repo_query (Shell.arg 1 args));
    rewrite seq_echo, seq_assign; shell_state; rewrite H1;
    cbn [N.eqb]; rewrite seq_assign; shell_state; rewrite H2; cbn [N.eqb];
    fold (output_of world [] (pr_number_query (Shell.arg 1 args)));
    fold (output_of world [pr_number_query (Shell.arg 1 args)]
            (repo_query (Shell.arg 1 args)));
    fold (gh_review
            (output_of world [] (pr_number_query (Shell.arg 1 args)))
            (output_of world [pr_number_query (Shell.arg 1 args)]
               (repo_query (Shell.arg 1 args))));
    rewrite seq_run; shell_state;
    (destruct (N.eqb_spec (Shell.ans_status
       (world [pr_number_query (Shell.arg 1 args);
               repo_query (Shell.arg 1 args)]
          (gh_review
             (output_of world [] (pr_number_query (Shell.arg 1 args)))
             (output_of world [pr_number_query (Shell.arg 1 args)]
                (repo_query (Shell.arg 1 args)))))) 0) as [E|E];
     [ rewrite seq_echo; unfold Shell.pure; shell_state; rewrite E;
       by repeat split
     | by repeat split ]).
Qed.

(** A review that is refused: the script exits with the status of [gh]. *)
Lemma approve_run_witness :
  status_of (Shell.run_script gh_refusing all_installed EmptyString "gkit.sh"
               ["ap"; "https://github.com/o/r/pull/5"]%string []) = 128.
Proof.
  destruct (approve_run gh_refusing all_installed EmptyString "gkit.sh" "ap"
              ["https://github.com/o/r/pull/5"%string] []) as (H & _).
  - by repeat split.
  - by left.
  - reflexivity.
  - reflexivity.
  - exact H.
Defined.

Lemma main_merge
    (world : list Shell.Command -> Shell.Command -> Shell.Answer)
    (installed : string -> bool) (SLACK_TOKEN script name : string)
    (args : list string) (st : Shell.State) :
  deps_present installed ->
  In name ["mg"; "merge"]%string ->
  Shell.main world installed SLACK_TOKEN script (name :: args) st
  = match Shell.gk_merge world installed args st with
    | Shell.Go n st' => if n =? 0 then Shell.Go 0 st' else Shell.Exit n st'
    | Shell.Exit n st' => Shell.Exit n st'
    end.
Proof.
  intros Hdeps Hname. rewrite <- call_then_zero. unfold Shell.main.
  rewrite after_check_deps by exact Hdeps.
  destruct Hname as [<-|[<-|[]]]; reflexivity.
Qed.

(** X20: [gkit.sh mg <pr_url>] (or [merge]), the two [awk] extractions
    having succeeded.  The pull request is merged only after
    [gh pr review --approve] succeeded: a refused review ends the script
    with gh's status before [gh pr merge] is run, and a failed merge ends
    it before the base branch is looked up.  After a merge the standard
    input is read only when the base branch is [develop]: for any other
    base the script exits 0 without reading; for [develop] it exits 1 at
    end of input although the merge was done, and with an answer that does
    not begin with [y] or [Y] it runs no workflow and exits 0. *)
Theorem merge_run
    (world : list Shell.Command -> Shell.Command -> Shell.Answer)
    (installed : string -> bool) (SLACK_TOKEN script name : string)
    (args stdin : list string) :
  deps_present installed ->
  In name ["mg"; "merge"]%string ->
  let url := Shell.arg 1 args in
  let c1 := pr_number_query url in
  let c2 := repo_query url in
  Shell.ans_status (world [] c1) = 0 ->
  Shell.ans_status (world [c1] c2) = 0 ->
  let number := output_of world [] c1 in
  let repo := output_of world [c1] c2 in
  let review := gh_review number repo in
  let merge := gh_merge number repo in
  let view := gh_view_base number repo in
  let reviewed := Shell.ans_status (world [c1; c2] review) in
  let merged := Shell.ans_status (world [c1; c2; review] merge) in
  let base := output_of world [c1; c2; review; merge] view in
  let r := Shell.run_script world installed SLACK_TOKEN script
             (name :: args) stdin in
  (reviewed <> 0 ->
   status_of r = reviewed /\ commands_of r = [c1; c2; review]) /\
  (reviewed = 0 -> merged <> 0 ->
   status_of r = merged /\ commands_of r = [c1; c2; review; merge]) /\
  (reviewed = 0 -> merged = 0 -> base <> "develop"%string ->
   status_of r = 0 /\ commands_of r = [c1; c2; review; merge; view] /\
   Shell.input (snd r) = stdin) /\
  (reviewed = 0 -> merged = 0 -> base = "develop"%string -> stdin = [] ->
   status_of r = 1 /\ commands_of r = [c1; c2; review; merge; view]) /\
  (forall (line : string) (rest : list string),
     reviewed = 0 -> merged = 0 -> base = "develop"%string ->
     stdin = line :: rest ->
     Shell.first_char line <> "y"%string ->
     Shell.first_char line <> "Y"%string ->
     status_of r = 0 /\ commands_of r = [c1; c2; review; merge; view] /\
     last (printed_by r) = Some "⏭️ Skipping workflow execution"%string).
Proof.
  intros Hdeps Hname. cbv zeta. intros H1 H2.
  unfold status_of, commands_of, printed_by, Shell.run_script.
  rewrite main_merge by done.
  set (url := Shell.arg 1 args) in *.
  set (c1 := pr_number_query url) in *. set (c2 := repo_query url) in *.
  set (number := output_of world [] c1).
  set (repo := output_of world [c1] c2).
  unfold Shell.gk_merge. cbv zeta. fold url. fold c1. fold c2.
  fold (pr_number_query url) (repo_query url). fold c1 c2.
  rewrite seq_echo, seq_assign. shell_state. rewrite H1. cbn [N.eqb].
  rewrite seq_assign. shell_state. rewrite H2. cbn [N.eqb].
  fold (output_of world [] c1) (output_of world [c1] c2). fold number repo.
  fold (gh_review number repo) (gh_merge number repo)
    (gh_view_base number repo).
  rewrite seq_run. shell_state.
  destruct (N.eqb_spec (Shell.ans_status
              (world [c1; c2] (gh_review number repo))) 0) as [E1|E1].
  2:{ by repeat split. }
  rewrite seq_run. shell_state.
  destruct (N.eqb_spec (Shell.ans_status
              (world [c1; c2; gh_review number repo]
                 (gh_merge number repo))) 0) as [E2|E2].
  2:{ by repeat split. }
  rewrite seq_echo, seq_capture_with. shell_state.
  fold (output_of world [c1; c2; gh_review number repo; gh_merge number repo]
          (gh_view_base number repo)).
  destruct (String.eqb_spec
              (output_of world
                 [c1; c2; gh_review number repo; gh_merge number repo]
                 (gh_view_base number repo)) "develop") as [Eb|Eb].
  2:{ unfold Shell.pure. shell_state. by repeat split. }
  rewrite seq_echo, seq_read. shell_state.
  split; [done|]. split; [done|]. split; [done|].
  split.
  - intros _ _ _ ->. rewrite seq_errexit. shell_state. by repeat split.
  - intros line rest _ _ _ -> Hy HY. rewrite seq_errexit. shell_state.
    rewrite seq_echo.
    apply String.eqb_neq in Hy, HY. rewrite Hy, HY. cbn [orb].
    rewrite seq_echo. unfold Shell.pure. shell_state. by repeat split.
Qed.

(** A refused review: nothing is merged. *)
Lemma merge_run_witness :
  length (commands_of (Shell.run_script gh_refusing all_installed EmptyString
                         "gkit.sh"
                         ["mg"; "https://github.com/o/r/pull/5"]%string []))
  = 3%nat.
Proof.
  destruct (merge_run gh_refusing all_installed EmptyString "gkit.sh" "mg"
              ["https://github.com/o/r/pull/5"%string] []) as (H & _).
  - by repeat split.
  - by left.
  - reflexivity.
  - reflexivity.
  - destruct H as (_ & ->); [discriminate|reflexivity].
Defined.

Lemma main_wf
    (world : list Shell.Command -> Shell.Command -> Shell.Answer)
    (installed : string -> bool) (SLACK_TOKEN script : string)
    (args : list string) (st : Shell.State) :
  deps_present installed ->
  Shell.main world installed SLACK_TOKEN script ("wf"%string :: args) st
  = match Shell.gk_wf world installed args st with
    | Shell.Go n st' => if n =? 0 then Shell.Go 0 st' else Shell.Exit n st'
    | Shell.Exit n st' => Shell.Exit n st'
    end.
Proof.
  intros Hdeps. rewrite <- call_then_zero. unfold Shell.main.
  by rewrite after_check_deps by exact Hdeps.
Qed.

(** X21: [gkit.sh wf <pr_url>] with the dependencies installed.  Without a
    URL it prints its usage line, runs nothing and exits 1.  It exits 0
    only by triggering a workflow: the last command run is then
    [gh workflow run <workflow> --ref develop --repo <owner>/<repo>] with a
    non-empty workflow name and it succeeded; the ref is always [develop],
    whatever branch the pull request is on. *)
Theorem workflow_run
    (world : list Shell.Command -> Shell.Command -> Shell.Answer)
    (installed : string -> bool) (SLACK_TOKEN script : string)
    (args stdin : list string) :
  deps_present installed ->
  let r := Shell.run_script world installed SLACK_TOKEN script
             ("wf"%string :: args) stdin in
  (Shell.arg 1 args = EmptyString ->
   status_of r = 1 /\ commands_of r = [] /\
   printed_by r = ["Usage: gk_wf <github_pr_url>"%string]) /\
  (status_of r = 0 ->
   exists (workflow owner repo : string) (before : list Shell.Command),
     workflow <> EmptyString /\
     commands_of r
     = before ++ [gh_workflow_run workflow "develop" owner repo] /\
     Shell.ans_status
       (world before (gh_workflow_run workflow "develop" owner repo)) = 0).
Proof.
  intros Hdeps. cbv zeta.
  unfold status_of, commands_of, printed_by, Shell.run_script.
  rewrite main_wf by done. unfold Shell.gk_wf. cbv zeta.
  destruct Hdeps as (_ & Hfzf & _). rewrite Hfzf. cbn [negb].
  split.
  { intros ->. cbn [Shell.is_empty]. rewrite seq_echo. unfold Shell.pure.
    shell_state. by repeat split. }
  destruct (Shell.is_empty (Shell.arg 1 args)).
  { rewrite seq_echo. unfold Shell.pure. shell_state. done. }
  rewrite seq_assign. shell_state.
  on_status; [|done].
  rewrite seq_assign. shell_state.
  on_status; [|done].
  rewrite seq_assign. shell_state.
  on_status; [|done].
  destruct (_ || _).
  { rewrite !seq_echo. unfold Shell.pure. shell_state. done. }
  rewrite !seq_echo. cbn [Shell.is_empty]. rewrite seq_echo.
  rewrite seq_capture_with. shell_state. rewrite seq_errexit.
  on_status; [|done].
  destruct (Shell.is_empty _).
  { rewrite seq_echo. unfold Shell.pure. shell_state. done. }
  rewrite seq_assign. shell_state.
  on_status; [|done].
  destruct (Shell.is_empty _) eqn:Ew; cbn [negb].
  { rewrite seq_echo. unfold Shell.pure. shell_state. done. }
  rewrite seq_echo, seq_run. shell_state.
  match goal with
  | |- context [Shell.ans_status (world ?b (Shell.cmd
         ["gh"%string; "workflow"%string; "run"%string; ?w; _; _; _;
          (?o ++ "/" ++ ?rp)%string]))] =>
      fold (gh_workflow_run w "develop" o rp);
      destruct (N.eqb_spec (Shell.ans_status
                  (world b (gh_workflow_run w "develop" o rp))) 0)
        as [E|E]; [|done];
      intros _; exists w, o, rp, b
  end.
  split; [by intros Hw; rewrite Hw in Ew|]. by unfold Shell.pure.
Qed.

(** Without a URL [wf] only prints its usage. *)
Lemma workflow_run_witness :
  status_of (Shell.run_script offline_world all_installed EmptyString
               "gkit.sh" ["wf"%string] []) = 1.
Proof.
  destruct (workflow_run offline_world all_installed EmptyString "gkit.sh"
              [] []) as (H & _).
  - by repeat split.
  - cbv zeta in H. by destruct H as (H & _).
Defined.

Lemma or_default_twice (x d : string) :
  Shell.or_default (Shell.or_default x d) d = Shell.or_default x d.
Proof. unfold Shell.or_default. destruct x; [by destruct d|done]. Qed.

(** X22: [gkit.sh nbs <branch> [remote]], the listing of the release
    branches having succeeded.  The latest release is read from what is
    known locally, before anything is fetched.  If [git fetch] fails the
    script exits 1 and creates nothing.  Otherwise it goes through the same
    list as [nb], fetching a second time and starting from
    [<remote>/release/v<latest>], with no check that a release was found;
    as there, a failing second fetch or checkout still ends in the lines
    that report the branch as created and exit status 0. *)
Theorem staging_branch_run
    (world : list Shell.Command -> Shell.Command -> Shell.Answer)
    (installed : string -> bool) (SLACK_TOKEN script : string)
    (args stdin : list string) :
  deps_present installed ->
  let branch := Shell.arg 1 args in
  let remote := Shell.or_default (Shell.arg 2 args) "origin" in
  let listing := Shell.latest_release_pipeline in
  let fetch := git_fetch remote in
  Shell.ans_status (world [] listing) = 0 ->
  let latest := output_of world [] listing in
  let checkout :=
    git_checkout branch remote ("release/v" ++ latest)%string in
  let push := git_push remote branch in
  let created :=
    [ ("✅ " ++ branch ++ " New branch created from develop 🎉")%string;
      ("✅ " ++ branch ++ " Branch created from staging 🎉")%string ] in
  let r := Shell.run_script world installed SLACK_TOKEN script
             ("nbs"%string :: args) stdin in
  (Shell.ans_status (world [listing] fetch) <> 0 ->
   status_of r = 1 /\ commands_of r = [listing; fetch]) /\
  (Shell.ans_status (world [listing] fetch) = 0 ->
   Shell.ans_status (world [listing; fetch] fetch) <> 0 ->
   status_of r = 0 /\ commands_of r = [listing; fetch; fetch] /\
   exists shown : list string, printed_by r = shown ++ created) /\
  (Shell.ans_status (world [listing] fetch) = 0 ->
   Shell.ans_status (world [listing; fetch] fetch) = 0 ->
   Shell.ans_status (world [listing; fetch; fetch] checkout) <> 0 ->
   status_of r = 0 /\ commands_of r = [listing; fetch; fetch; checkout] /\
   exists shown : list string, printed_by r = shown ++ created) /\
  (Shell.ans_status (world [listing] fetch) = 0 ->
   Shell.ans_status (world [listing; fetch] fetch) = 0 ->
   Shell.ans_status (world [listing; fetch; fetch] checkout) = 0 ->
   status_of r
   = Shell.ans_status (world [listing; fetch; fetch; checkout] push) /\
   commands_of r = [listing; fetch; fetch; checkout; push]).
Proof.
  intros Hdeps. cbv zeta. intros Hl.
  unfold status_of, commands_of, printed_by, Shell.run_script, Shell.main.
  rewrite after_check_deps by exact Hdeps.
  cbn [Shell.arg nth Nat.sub Shell.is_empty tl String.eqb Ascii.eqb
       Bool.eqb orb].
  rewrite call_then_zero. unfold Shell.gk_nbs. cbv zeta.
  fold (git_fetch (Shell.or_default (Shell.arg 2 args) "origin")).
  rewrite !seq_echo, seq_assign. shell_state. rewrite Hl. cbn [N.eqb].
  fold (output_of world [] Shell.latest_release_pipeline).
  rewrite seq_echo, seq_exec. shell_state.
  on_status; cbn [negb].
  2:{ unfold Shell.pure. shell_state. by repeat split. }
  rewrite seq_echo, seq_call, gk_nb_cases, fetch_checkout_push_cases.
  cbv zeta. shell_state.
  cbn [Shell.arg nth Nat.sub]. rewrite !or_default_twice.
  change (Shell.or_default
            ("release/v" ++ output_of world [] Shell.latest_release_pipeline)
            "develop")
    with ("release/v" ++ output_of world [] Shell.latest_release_pipeline)%string.
  split; [done|].
  on_status; cbn [negb].
  2:{ rewrite seq_echo. unfold Shell.pure. shell_state.
      split; [|split; [done|split; done]]. intros _ _.
      split; [done|]. split; [done|]. match goal with
      | |- exists shown, ?l = _ => exists (removelast (removelast l))
      end. reflexivity. }
  on_status; cbn [negb].
  2:{ rewrite seq_echo. unfold Shell.pure. shell_state.
      split; [done|]. split; [|done]. intros _ _ _.
      split; [done|]. split; [done|]. match goal with
      | |- exists shown, ?l = _ => exists (removelast (removelast l))
      end. reflexivity. }
  split; [done|]. split; [done|]. intros _ _ _.
  on_status.
  - rewrite seq_echo. unfold Shell.pure. shell_state. by rewrite e2.
  - shell_state. done.
Qed.

(** The release is known locally but the remote is out of reach. *)
Lemma staging_branch_run_witness :
  status_of (Shell.run_script remote_unreachable all_installed EmptyString
               "gkit.sh" ["nbs"; "feature-x"]%string []) = 1.
Proof.
  destruct (staging_branch_run remote_unreachable all_installed EmptyString
              "gkit.sh" ["feature-x"%string] []) as (H & _).
  - by repeat split.
  - reflexivity.
  - cbv zeta in H. destruct H as (H & _); [discriminate|exact H].
Defined.

(** X23: [gkit.sh pr [base] [title]] for a base other than [develop],
    when no pull request comes out.  The script calls
    [gh pr create --base <base>], with [--title <title>] when a title was
    given and [--fill] otherwise; the base defaults to [release].  If [gh]
    fails the script exits with gh's status having run nothing else and
    without printing its own failure line; if [gh] succeeds but prints no
    URL the script prints "Failed to create pull request." and exits 1,
    again having run nothing else. *)
Theorem pull_request_creation
    (world : list Shell.Command -> Shell.Command -> Shell.Answer)
    (installed : string -> bool) (SLACK_TOKEN script : string)
    (args stdin : list string) :
  deps_present installed ->
  let base := Shell.or_default (Shell.arg 1 args) "release" in
  let create := gh_pr_create base (Shell.arg 2 args) in
  let r := Shell.run_script world installed SLACK_TOKEN script
             ("pr"%string :: args) stdin in
  base <> "develop"%string ->
  (Shell.ans_status (world [] create) <> 0 ->
   status_of r = Shell.ans_status (world [] create) /\
   commands_of r = [create] /\
   ~ In "❌ Failed to create pull request."%string (printed_by r)) /\
  (Shell.ans_status (world [] create) = 0 ->
   output_of world [] create = EmptyString ->
   status_of r = 1 /\ commands_of r = [create] /\
   last (printed_by r) = Some "❌ Failed to create pull request."%string).
Proof.
  intros Hdeps. cbv zeta. intros Hbase.
  unfold status_of, commands_of, printed_by, Shell.run_script, Shell.main.
  rewrite after_check_deps by exact Hdeps.
  cbn [Shell.arg nth Nat.sub Shell.is_empty tl String.eqb Ascii.eqb
       Bool.eqb orb].
  rewrite call_then_zero. unfold Shell.gk_pr. cbv zeta.
  rewrite !seq_echo. apply String.eqb_neq in Hbase. rewrite Hbase.
  rewrite seq_pure. unfold gh_pr_create.
  destruct (Shell.is_empty (Shell.arg 2 args)); cbn [negb];
    rewrite seq_assoc, seq_echo, seq_assign; shell_state;
    (on_status;
     [ split; [done|]; intros _; unfold output_of; intros ->;
       cbn [Shell.is_empty negb]; rewrite seq_echo; unfold Shell.pure;
       shell_state; by repeat split
     | split; [|done]; intros _; shell_state;
       split; [done|]; split; [done|];
       intros [H|[H|[H|[]]]]; discriminate H ]).
Qed.

(** [gh] fails: the script exits with its status. *)
Lemma pull_request_creation_witness :
  status_of (Shell.run_script offline_world all_installed EmptyString
               "gkit.sh" ["pr"%string] []) = 128.
Proof.
  destruct (pull_request_creation offline_world all_installed EmptyString
              "gkit.sh" [] []) as (H & _).
  - by repeat split.
  - discriminate.
  - cbv zeta in H. destruct H as (H & _); [discriminate|exact H].
Defined.

Lemma packages_to_install_missing (installed : string -> bool) :
  Installer.add_if_missing installed "jq"
    (Installer.add_if_missing installed "fzf"
       (Installer.add_if_missing installed "gh" []))
  = missing_packages installed.
Proof.
  unfold Installer.add_if_missing, missing_packages. cbn [List.filter].
  by destruct (installed "gh"%string), (installed "fzf"%string),
    (installed "jq"%string).
Qed.

(** X24: the dependency step of install.sh.  It asks the package manager
    for exactly the tools among [gh], [fzf] and [jq] that are missing, in
    that order.  With nothing missing it runs no command at all.  On macOS
    it needs [brew] and exits 1 without it; on Linux it takes [apt-get]
    before [yum] before [dnf], runs [apt-get update] first and stops there
    if that fails, and exits 1 when none of the three is there; on any
    other system it exits 1.  Its status is that of the install command. *)
Theorem install_dependencies_outcome
    (world : list Shell.Command -> Shell.Command -> Shell.Answer)
    (installed : string -> bool) (stdin : list string) :
  let missing := missing_packages installed in
  let r := outcome (Installer.install_dependencies world installed
                      (Shell.initial stdin)) in
  let os := output_of world [] uname in
  let os_again := output_of world [uname] uname in
  (missing = [] -> status_of r = 0 /\ commands_of r = []) /\
  (missing <> [] -> os = "Darwin"%string ->
   (installed "brew"%string = false ->
    status_of r = 1 /\ commands_of r = [uname]) /\
   (installed "brew"%string = true ->
    status_of r = Shell.ans_status (world [uname] (brew_install missing)) /\
    commands_of r = [uname; brew_install missing])) /\
  (missing <> [] -> os <> "Darwin"%string -> os_again <> "Linux"%string ->
   status_of r = 1 /\ commands_of r = [uname; uname]) /\
  (missing <> [] -> os <> "Darwin"%string -> os_again = "Linux"%string ->
   match package_manager installed with
   | None => status_of r = 1 /\ commands_of r = [uname; uname]
   | Some manager =>
       let install := sudo_install manager missing in
       if String.eqb manager "apt-get" then
         let updated := Shell.ans_status (world [uname; uname] apt_update) in
         (updated <> 0 ->
          status_of r = updated /\
          commands_of r = [uname; uname; apt_update]) /\
         (updated = 0 ->
          status_of r
          = Shell.ans_status (world [uname; uname; apt_update] install) /\
          commands_of r = [uname; uname; apt_update; install])
       else
         status_of r = Shell.ans_status (world [uname; uname] install) /\
         commands_of r = [uname; uname; install]
   end).
Proof.
  cbv zeta.
  unfold status_of, commands_of, outcome, Installer.install_dependencies.
  cbv zeta. rewrite packages_to_install_missing.
  unfold Installer.echo_info, Installer.echo_success, Installer.echo_error.
  rewrite seq_echo.
  destruct (missing_packages installed) as [|p ps] eqn:Em.
  { cbn [length Nat.eqb]. rewrite seq_echo. unfold Shell.pure. shell_state.
    by repeat split. }
  cbn [length Nat.eqb]. split; [done|].
  rewrite seq_echo, seq_capture. cbn [snd]. fold uname. shell_state.
  fold (output_of world [] uname).
  destruct (String.eqb_spec (output_of world [] uname) "Darwin") as [Eo|Eo].
  - split; [|split; [done|done]]. intros _ _.
    destruct (installed "brew"%string); cbn [negb].
    + split; [done|]. intros _. rewrite ?seq_assoc, seq_echo, ?seq_assoc, seq_run.
      fold (brew_install (p :: ps)). shell_state. on_status.
      * rewrite seq_echo. unfold Shell.pure. shell_state. by rewrite e.
      * done.
    + split; [|done]. intros _. rewrite seq_assoc.
      unfold Shell.seq at 1. unfold Shell.echo_err, Shell.exit.
      shell_state. done.
  - split; [done|]. rewrite seq_assoc, seq_capture. cbn [snd]. fold uname.
    shell_state. fold (output_of world [uname] uname).
    destruct (String.eqb_spec (output_of world [uname] uname) "Linux")
      as [El|El].
    2:{ split; [|done]. intros _ _ _. rewrite seq_assoc.
        unfold Shell.seq at 1. unfold Shell.echo_err, Shell.exit.
        shell_state. done. }
    split; [done|]. intros _ _ _. unfold package_manager.
    destruct (installed "apt-get"%string).
    { cbn [String.eqb Ascii.eqb Bool.eqb]. cbv zeta.
      rewrite ?seq_assoc, seq_echo, ?seq_assoc, seq_run. fold apt_update. shell_state.
      on_status; [|done]. split; [done|]. intros _.
      rewrite ?seq_assoc, seq_run.
      fold (sudo_install "apt-get" (p :: ps)). shell_state. on_status.
      - rewrite seq_echo. unfold Shell.pure. shell_state. by rewrite e0.
      - done. }
    destruct (installed "yum"%string).
    { cbn [String.eqb Ascii.eqb Bool.eqb]. cbv zeta.
      rewrite ?seq_assoc, seq_echo, ?seq_assoc, seq_run.
      fold (sudo_install "yum" (p :: ps)). shell_state. on_status.
      - rewrite seq_echo. unfold Shell.pure. shell_state. by rewrite e.
      - done. }
    destruct (installed "dnf"%string).
    { cbn [String.eqb Ascii.eqb Bool.eqb]. cbv zeta.
      rewrite ?seq_assoc, seq_echo, ?seq_assoc, seq_run.
      fold (sudo_install "dnf" (p :: ps)). shell_state. on_status.
      - rewrite seq_echo. unfold Shell.pure. shell_state. by rewrite e.
      - done. }
    rewrite seq_assoc. unfold Shell.seq at 1.
    unfold Shell.echo_err, Shell.exit. shell_state. done.
Qed.

(** On a host with [dnf] only and [jq] missing, [jq] alone is installed. *)
Lemma install_dependencies_outcome_witness :
  commands_of (outcome (Installer.install_dependencies linux_host
                          fedora_tools (Shell.initial [])))
  = [uname; uname; sudo_install "dnf" ["jq"%string]].
Proof.
  destruct (install_dependencies_outcome linux_host fedora_tools [])
    as (_ & _ & _ & H).
  cbv zeta in H. destruct H as (_ & H); [discriminate..|reflexivity|].
  exact H.
Defined.

(** X25: the [review_code] tool.  With a string under [diff], the empty
    string included, it answers the review of that text as JSON and is
    never an error; the [required] mark of its schema is not enforced: a
    missing [diff] is answered with the engine's message about reading
    [toLowerCase] of undefined, and any other value that is not a string
    with an error as well.  It spawns nothing in any case. *)
Theorem review_code_behaviour (child : Spawn -> ProcOutcome)
    (toLowerCase : jstring -> jstring)
    (url_pathname : jstring -> option jstring)
    (engine_message : EngineError -> jstring)
    (GITHUB_TOKEN : option jstring) (args : gmap jstring JsValue) :
  let m := callTool child toLowerCase url_pathname engine_message
             GITHUB_TOKEN (js "review_code") (Some args) in
  (forall d : jstring,
     js_get args (js "diff") = Some (JStr d) ->
     m = ({| text := JsonOf (reviewCode toLowerCase d); isError := false |},
          [])) /\
  (js_get args (js "diff") = None ->
   m = ({| text :=
             Text (js "Error: " ++
                   engine_message (ReadOfUndefined (js "toLowerCase")));
           isError := true |}, [])) /\
  (forall v : JsValue,
     js_get args (js "diff") = Some v -> is_string v = false ->
     isError (value m) = true /\ spawned m = []).
Proof.
  intros m. subst m.
  rewrite callTool_advanced by (unfold advancedTools; set_solver).
  unfold call_advanced.
  assert (E1 : jstring_eqb (js "review_code") (js "rv_pr") = false)
    by reflexivity.
  assert (E2 : jstring_eqb (js "review_code") (js "review_code") = true)
    by reflexivity.
  rewrite E1, E2. clear E1 E2. cbv iota. unfold bindE, bind.
  split; [|split].
  - intros d ->. cbn [as_string_receiver]. eff. reflexivity.
  - intros ->. cbn [as_string_receiver]. eff. reflexivity.
  - intros v -> Hv. destruct v; try discriminate Hv;
      cbn [as_string_receiver]; eff; by split.
Qed.

(** The empty diff is reviewed; a number is refused. *)
Lemma review_code_behaviour_witness :
  isError (value (callTool silent_child id no_url no_message None
                    (js "review_code") (Some {[ js "diff" := JStr [] ]})))
  = false /\
  isError (value (callTool silent_child id no_url no_message None
                    (js "review_code") (Some {[ js "diff" := JNum 3 ]})))
  = true.
Proof.
  split.
  - destruct (review_code_behaviour silent_child id no_url no_message None
                {[ js "diff" := JStr [] ]}) as (H & _).
    rewrite (H []); [reflexivity|]. vm_compute. reflexivity.
  - destruct (review_code_behaviour silent_child id no_url no_message None
                {[ js "diff" := JNum 3 ]}) as (_ & _ & H).
    destruct (H (JNum 3)) as (He & _); [vm_compute; reflexivity|reflexivity|].
    exact He.
Defined.


